(** * YD-MultiTarget-Detection-Tracking: the training script [train.py]

    A shallow embedding of the video-classification pipeline of
    [src/train.py] and the properties of its data flow:

    - [VideoDataset.__getitem__]: decoding, normalisation, padding and
      truncation of the frame sequence (tensors are a shape and row-major
      flat data, pixels are bytes, normalised values are binary32 floats);
    - [VideoLSTMTransformerModel.forward]: the shapes that flow through the
      reshape, the LSTM, the Transformer and the linear head;
    - [VideoBehaviorModel.prepare_data]: class labels and the random
      train/test split over a directory tree;
    - [train_model] and [test_model]: the accumulators of the two loops.

    Python exceptions are a sum type; library calls (OpenCV, NumPy, PyTorch,
    [os]) are modelled by the part of their documented behaviour the script
    relies on. *)

From Stdlib Require Import ZArith QArith Qabs Qpower List Floats.SpecFloat.
From Stdlib Require Import Strings.Byte Strings.Ascii Strings.String.
From stdpp Require Import base list sorting strings.

Local Open Scope nat_scope.

(** ** Exceptions and the error monad *)

Inductive exn : Set :=
| IndexError
| ValueError
| RuntimeError
| TypeError
| ZeroDivisionError
| AssertionError
| OSError
| OverflowError.

Inductive result (A : Type) : Type :=
| Ok (a : A)
| Raise (e : exn).
Arguments Ok {A} a.
Arguments Raise {A} e.

#[global] Instance result_ret : MRet result := fun A a => Ok a.
#[global] Instance result_bind : MBind result := fun A B f m =>
  match m with
  | Ok a => f a
  | Raise e => Raise e
  end.
#[global] Instance result_fmap : FMap result := fun A B f m =>
  match m with
  | Ok a => Ok (f a)
  | Raise e => Raise e
  end.

Definition is_Ok {A} (r : result A) : bool :=
  match r with Ok _ => true | Raise _ => false end.

(** ** Python lists and strings *)

(** [l[i]]: a negative index counts from the end, anything outside
    [-len, len) raises [IndexError]. *)
Definition py_index {A} (l : list A) (i : Z) : result A :=
  let n := Z.of_nat (length l) in
  let j := if (i <? 0)%Z then (i + n)%Z else i in
  if ((0 <=? j)%Z && (j <? n)%Z)%bool then
    match l !! Z.to_nat j with
    | Some x => Ok x
    | None => Raise IndexError
    end
  else Raise IndexError.

(** A [str] is the list of its characters. *)
Definition pystr : Type := list ascii.

Definition str (s : string) : pystr := list_ascii_of_string s.

(** ** Arrays and tensors

    An n-dimensional array is its shape and its elements in row-major
    (C) order, as NumPy and PyTorch store a contiguous array. *)

Record ndarray (A : Type) : Type := mk_ndarray {
  shape : list nat;
  data : list A
}.
Arguments mk_ndarray {A} shape data.
Arguments shape {A} _.
Arguments data {A} _.

Definition numel (sh : list nat) : nat := foldr Nat.mul 1 sh.

Definition wf_ndarray {A} (t : ndarray A) : Prop :=
  length (data t) = numel (shape t).

(** [len(t)]: the size of the leading axis; a 0-d array has no length. *)
Definition py_len {A} (t : ndarray A) : result nat :=
  match shape t with
  | n :: _ => Ok n
  | [] => Raise TypeError
  end.

(** The rows [f 0, ..., f (n-1)] laid out one after the other. *)
Definition tabulate {A} (n : nat) (f : nat -> list A) : list A :=
  flat_map f (seq 0 n).

(** [np.array(frames)] on a Python list of equally shaped arrays stacks them
    along a new leading axis.  The empty list gives the one-dimensional
    array of shape [(0,)]: the shape of the elements is not known.  Arrays
    of different shapes are refused. *)
Definition np_array {A} (xs : list (ndarray A)) : result (ndarray A) :=
  match xs with
  | [] => Ok (mk_ndarray [0] [])
  | x :: _ =>
      if forallb (fun y => bool_decide (shape y = shape x)) xs
      then Ok (mk_ndarray (length xs :: shape x) (concat (map data xs)))
      else Raise ValueError
  end.

(** Elementwise map: a dtype conversion or an arithmetic broadcast of a
    scalar. *)
Definition nd_map {A B} (f : A -> B) (t : ndarray A) : ndarray B :=
  mk_ndarray (shape t) (map f (data t)).

(** [np.pad(t, ((0, padding), (0, 0), (0, 0), (0, 0)), mode='constant',
    constant_values=0)]: the four (before, after) pairs are broadcast
    against the shape [(t.ndim, 2)], which only succeeds when [t] has four
    axes; the zeros are appended at the end of the leading axis. *)
Definition np_pad {A} (zero : A) (t : ndarray A) (padding : nat)
  : result (ndarray A) :=
  match shape t with
  | [n; h; w; c] =>
      Ok (mk_ndarray [n + padding; h; w; c]
            (data t ++ replicate (padding * numel [h; w; c]) zero))
  | _ => Raise ValueError
  end.

(** [t[:k]] on the leading axis. *)
Definition slice_to {A} (t : ndarray A) (k : nat) : result (ndarray A) :=
  match shape t with
  | n :: rest =>
      Ok (mk_ndarray (Nat.min k n :: rest) (take (Nat.min k n * numel rest) (data t)))
  | [] => Raise IndexError
  end.

(** [t.permute(0, 3, 1, 2)]: four axes are named, so the tensor must
    have four; element [(i, c, y, x)] of the result is element
    [(i, y, x, c)] of [t]. *)
Definition permute_0312 {A} (dflt : A) (t : ndarray A) : result (ndarray A) :=
  match shape t with
  | [n; h; w; c] =>
      Ok (mk_ndarray [n; c; h; w]
            (tabulate n (fun i =>
             tabulate c (fun k =>
             tabulate h (fun y =>
             map (fun x => nth (((i * h + y) * w + x) * c + k) (data t) dflt)
                 (seq 0 w))))))
  | _ => Raise RuntimeError
  end.

(** [t[i, j, k, l]] for in-range non-negative indices of a 4-d tensor. *)
Definition get4 {A} (t : ndarray A) (i j k l : nat) : option A :=
  match shape t with
  | [s0; s1; s2; s3] =>
      if bool_decide (i < s0 /\ j < s1 /\ k < s2 /\ l < s3)
      then data t !! (((i * s1 + j) * s2 + k) * s3 + l)
      else None
  | _ => None
  end.

(** ** binary32 arithmetic

    [torch.float32] values, with the IEEE operations of the standard
    library's executable specification at precision 24. *)

Definition f32 : Type := spec_float.

Definition f32_of_Z (z : Z) : f32 := binary_normalize 24 128 z 0 false.
Definition f32_div : f32 -> f32 -> f32 := SFdiv 24 128.
Definition f32_zero : f32 := S754_zero false.
Definition f32_one : f32 := f32_of_Z 1.
Definition f32_leb : f32 -> f32 -> bool := SFleb.

(** uint8 to float32 is exact. *)
Definition f32_of_u8 (b : byte) : f32 := f32_of_Z (Z.of_N (Byte.to_N b)).

(** The real number a finite float denotes. *)
Definition f32_to_Q (x : f32) : option Q :=
  match x with
  | S754_zero _ => Some 0%Q
  | S754_finite s m e =>
      let v := (inject_Z (Zpos m) * Qpower 2 e)%Q in
      Some (if s then Qopp v else v)
  | _ => None
  end.

(** ** VideoDataset *)

Section VideoDataset.

(** A frame as the decoder hands it out, before resizing. *)
Variable RawFrame : Type.

(** [cv2.resize(frame, dsize)]: the value of the resized image at row
    [y], column [x], channel [c]; the interpolation itself is OpenCV's. *)
Variable cv2_resize_px : RawFrame -> nat * nat -> nat -> nat -> nat -> byte.

(** [cv2.resize] returns an image of [height x width x 3] bytes for
    [dsize = (width, height)]; the decoder delivers BGR frames. *)
Definition cv2_resize (frame : RawFrame) (dsize : nat * nat) : ndarray byte :=
  let '(wd, ht) := dsize in
  mk_ndarray [ht; wd; 3]
    (tabulate ht (fun y =>
     tabulate wd (fun x =>
     map (fun c => cv2_resize_px frame dsize y x c) (seq 0 3)))).

(** What [cv2.VideoCapture(path)] gives: whether the file could be opened
    and the frames that [read()] delivers before it first reports
    failure. *)
Record Capture : Type := mk_Capture {
  isOpened : bool;
  stream : list RawFrame
}.

Variable VideoCapture : pystr -> Capture.

(** The fields of the data set; labels and the frame count are
    non-negative integers. *)
Record VideoDataset : Type := mk_VideoDataset {
  video_paths : list pystr;
  labels : list nat;
  fixed_frame_count : nat
}.

(** [__len__] *)
Definition dataset_len (ds : VideoDataset) : nat := length (video_paths ds).

(** The [while cap.isOpened()] loop: every successful [read()] appends the
    resized frame, the first failed one leaves the loop. *)
Fixpoint read_loop (opened : bool) (rest : list RawFrame)
    (frames : list (ndarray byte)) : list (ndarray byte) :=
  if opened then
    match rest with
    | frame :: rest' =>
        read_loop opened rest' (frames ++ [cv2_resize frame (224, 224)])
    | [] => frames
    end
  else frames.

(** [torch.tensor(frames, dtype=torch.float32) / 255.0] *)
Definition normalize (arr : ndarray byte) : ndarray f32 :=
  nd_map (fun v => f32_div v (f32_of_Z 255)) (nd_map f32_of_u8 arr).

(** What [normalize] makes of one pixel. *)
Definition normalized (b : byte) : f32 :=
  f32_div (f32_of_u8 b) (f32_of_Z 255).

(** The second [torch.tensor(frames, dtype=torch.float32)]: the values are
    binary32 already and stay as they are. *)
Definition torch_tensor_f32 (t : ndarray f32) : ndarray f32 := t.

(** [__getitem__] *)
Definition getitem (ds : VideoDataset) (idx : Z)
  : result (ndarray f32 * nat) :=
  video_path ← py_index (video_paths ds) idx;
  label ← py_index (labels ds) idx;
  let cap := VideoCapture video_path in
  let frames := read_loop (isOpened cap) (stream cap) [] in
  frames ← np_array frames;
  let frames := normalize frames in
  len ← py_len frames;
  frames ←
    (if len <? fixed_frame_count ds then
       let padding := fixed_frame_count ds - len in
       np_pad f32_zero frames padding
     else if fixed_frame_count ds <? len then
       slice_to frames (fixed_frame_count ds)
     else Ok frames);
  let frames := torch_tensor_f32 frames in
  frames ← permute_0312 f32_zero frames;
  Ok (frames, label).

(** The frames the decoder delivers for a path. *)
Definition decoded (path : pystr) : list RawFrame :=
  if isOpened (VideoCapture path) then stream (VideoCapture path) else [].

End VideoDataset.

Arguments cv2_resize {RawFrame} cv2_resize_px frame dsize.
Arguments mk_Capture {RawFrame} isOpened stream.
Arguments isOpened {RawFrame} _.
Arguments stream {RawFrame} _.
Arguments read_loop {RawFrame} cv2_resize_px opened rest frames.
Arguments getitem {RawFrame} cv2_resize_px VideoCapture ds idx.
Arguments decoded {RawFrame} VideoCapture path.

(** [|x - p/255| <= 2^-25]: [x] is within half a unit in the last place of
    the exact quotient. *)
Definition close_to_quotient (x : f32) (b : byte) : bool :=
  match f32_to_Q x with
  | Some q =>
      Qle_bool (Qabs (q - inject_Z (Z.of_N (Byte.to_N b)) / 255))
               (1 / inject_Z (2 ^ 25))
  | None => false
  end.

(** ** VideoLSTMTransformerModel

    The forward pass is followed on the shapes of the tensors: each PyTorch
    module either accepts the shape it is given and determines the shape of
    its output, or raises. *)

Definition Shape : Type := list nat.

Record VideoLSTMTransformerModel : Type := mk_Model {
  input_size : nat;
  hidden_size : nat;
  num_classes : nat
}.

(** [nhead=8] of the [nn.Transformer] the constructor builds. *)
Definition nhead : nat := 8.

(** [__init__]: [nn.LSTM] is built first and refuses an [input_size] or a
    [hidden_size] that is not positive; [nn.Transformer] then builds
    multi-head attention layers, which refuse a [d_model] that is not a
    multiple of [nhead]. *)
Definition new_model (input_size hidden_size num_classes : nat)
  : result VideoLSTMTransformerModel :=
  if (input_size =? 0) || (hidden_size =? 0) then Raise ValueError
  else if hidden_size mod nhead =? 0
  then Ok (mk_Model input_size hidden_size num_classes)
  else Raise AssertionError.

(** [batch_size, seq_len, c, h, w = x.size()] *)
Definition unpack5 (x : Shape) : result (nat * nat * nat * nat * nat) :=
  match x with
  | [b; t; c; h; w] => Ok (b, t, c, h, w)
  | _ => Raise ValueError
  end.

(** [x.reshape(batch_size, seq_len, -1)]: the missing size is the number of
    elements divided by the product of the given ones, which must be
    non-zero and divide it. *)
Definition reshape_infer_last (x : Shape) (b t : nat) : result Shape :=
  if b * t =? 0 then Raise RuntimeError
  else if numel x mod (b * t) =? 0 then Ok [b; t; numel x / (b * t)]
  else Raise RuntimeError.

(** [nn.LSTM(input_size, hidden_size, batch_first=True)] on a batched
    sequence: the size of the last axis must be [input_size]. *)
Definition lstm_forward (input_size hidden_size : nat) (x : Shape)
  : result Shape :=
  match x with
  | [b; t; f] =>
      if f =? input_size then Ok [b; t; hidden_size] else Raise RuntimeError
  | _ => Raise RuntimeError
  end.

(** [nn.Transformer(d_model, batch_first=True)(src, tgt)]: same batch
    size, both feature sizes equal to [d_model]; the output has the shape
    of [tgt]. *)
Definition transformer_forward (d_model : nat) (src tgt : Shape)
  : result Shape :=
  match src, tgt with
  | [b; s; e], [b'; t; e'] =>
      if (b =? b') && (e =? d_model) && (e' =? d_model)
      then Ok [b'; t; d_model]
      else Raise RuntimeError
  | _, _ => Raise RuntimeError
  end.

(** [x[:, -1, :]] *)
Definition select_last (x : Shape) : result Shape :=
  match x with
  | [b; t; f] => if t =? 0 then Raise IndexError else Ok [b; f]
  | _ => Raise IndexError
  end.

(** [nn.Linear(in_features, out_features)] *)
Definition linear_forward (in_features out_features : nat) (x : Shape)
  : result Shape :=
  match x with
  | [b; f] =>
      if f =? in_features then Ok [b; out_features] else Raise RuntimeError
  | _ => Raise RuntimeError
  end.

(** [forward] *)
Definition forward (self : VideoLSTMTransformerModel) (x : Shape)
  : result Shape :=
  '(batch_size, seq_len, c, h, w) ← unpack5 x;
  x ← reshape_infer_last x batch_size seq_len;
  lstm_out ← lstm_forward (input_size self) (hidden_size self) x;
  transformer_out ← transformer_forward (hidden_size self) lstm_out lstm_out;
  last ← select_last transformer_out;
  linear_forward (hidden_size self) (num_classes self) last.

(** ** Paths, suffixes and the order of strings *)

Definition sep : ascii := "/"%char.

(** [os.path.join(a, b)] for two components (POSIX flavour). *)
Definition path_join (a b : pystr) : pystr :=
  match b with
  | c :: _ => if bool_decide (c = sep) then b
              else match last a with
                   | None => b
                   | Some d => if bool_decide (d = sep) then a ++ b
                               else a ++ sep :: b
                   end
  | [] => match last a with
          | None => []
          | Some d => if bool_decide (d = sep) then a else a ++ [sep]
          end
  end.

(** [s.endswith(suffix)] *)
Definition endswith (s suffix : pystr) : bool :=
  bool_decide (drop (length s - length suffix) s = suffix).

(** [a <= b] on [str]: lexicographic on the code points. *)
Fixpoint str_leb (a b : pystr) : bool :=
  match a, b with
  | [], _ => true
  | _ :: _, [] => false
  | x :: a', y :: b' =>
      if nat_of_ascii x <? nat_of_ascii y then true
      else if nat_of_ascii y <? nat_of_ascii x then false
      else str_leb a' b'
  end.

Definition str_le (a b : pystr) : Prop := str_leb a b = true.

#[global] Instance str_le_dec : RelDecision str_le :=
  fun a b => decide (str_leb a b = true).

(** ** binary64 draws *)

Definition f64 : Type := spec_float.
Definition f64_ltb : f64 -> f64 -> bool := SFltb.

(** The double nearest to [0.8]. *)
Definition f64_0_8 : f64 := S754_finite false 7205759403792794 (-53).

(** A Python [int] as the operand of a true division: the integer itself,
    whatever its size. *)
Definition f64_of_nat (n : nat) : f64 :=
  match n with
  | 0 => S754_zero false
  | S _ => S754_finite false (Pos.of_nat n) 0
  end.

(** The quotient, rounded once to the nearest double, ties to even. *)
Definition f64_div : f64 -> f64 -> f64 := SFdiv 53 1024.

(** The real number a finite double denotes. *)
Definition f64_to_Q (x : f64) : option Q :=
  match x with
  | S754_zero _ => Some 0%Q
  | S754_finite s m e =>
      let v := (inject_Z (Zpos m) * Qpower 2 e)%Q in
      Some (if s then Qopp v else v)
  | _ => None
  end.

(** ** Python dictionaries: insertion-ordered association lists *)

Fixpoint dict_set {K V} `{EqDecision K} (d : list (K * V)) (k : K) (v : V)
  : list (K * V) :=
  match d with
  | [] => [(k, v)]
  | (k', v') :: d' =>
      if decide (k = k') then (k', v) :: d' else (k', v') :: dict_set d' k v
  end.

Fixpoint dict_get {K V} `{EqDecision K} (d : list (K * V)) (k : K) : option V :=
  match d with
  | [] => None
  | (k', v') :: d' => if decide (k = k') then Some v' else dict_get d' k
  end.

(** [enumerate(l)] *)
Definition enumerate {A} (l : list A) : list (nat * A) :=
  imap (fun idx x => (idx, x)) l.

(** ** VideoBehaviorModel.prepare_data *)

Record Split : Type := mk_Split {
  train_paths : list pystr;
  test_paths : list pystr;
  train_labels : list nat;
  test_labels : list nat
}.

Section PrepareData.

(** [os.listdir], in whatever order the file system enumerates, and
    [os.path.isdir]. *)
Variable listdir : pystr -> result (list pystr).
Variable isdir : pystr -> bool.

(** NumPy's global generator: [np.random.rand()] returns a double and
    advances the state. *)
Variable Rng : Type.
Variable rand : Rng -> f64 * Rng.

(** [{class_name: idx for idx, class_name in enumerate(class_names)}] *)
Definition label_dict_of (class_names : list pystr) : list (pystr * nat) :=
  foldl (fun d '(idx, class_name) => dict_set d class_name idx) []
        (enumerate class_names).

(** The class folders, sorted. *)
Definition class_names_of (video_folder : pystr) (entries : list pystr)
  : list pystr :=
  merge_sort str_le
    (filter (fun folder => isdir (path_join video_folder folder) = true)
            entries).

(** The inner loop over the files of one class folder. *)
Fixpoint route_videos (class_path : pystr) (label : nat)
    (names : list pystr) (acc : Split) (g : Rng) : Split * Rng :=
  match names with
  | [] => (acc, g)
  | video_name :: rest =>
      if endswith video_name (str ".avi") then
        let video_path := path_join class_path video_name in
        let '(u, g') := rand g in
        if f64_ltb u f64_0_8 then
          route_videos class_path label rest
            (mk_Split (train_paths acc ++ [video_path]) (test_paths acc)
                      (train_labels acc ++ [label]) (test_labels acc)) g'
        else
          route_videos class_path label rest
            (mk_Split (train_paths acc) (test_paths acc ++ [video_path])
                      (train_labels acc) (test_labels acc ++ [label])) g'
      else route_videos class_path label rest acc g
  end.

(** The outer loop over [label_dict.items()]. *)
Fixpoint route_classes (video_folder : pystr) (items : list (pystr * nat))
    (acc : Split) (g : Rng) : result (Split * Rng) :=
  match items with
  | [] => Ok (acc, g)
  | (video_class, label) :: rest =>
      let class_path := path_join video_folder video_class in
      names ← listdir class_path;
      let '(acc', g') := route_videos class_path label names acc g in
      route_classes video_folder rest acc' g'
  end.

Definition prepare_data (video_folder : pystr) (g : Rng)
  : result (Split * Rng) :=
  entries ← listdir video_folder;
  let class_names := class_names_of video_folder entries in
  let label_dict := label_dict_of class_names in
  route_classes video_folder label_dict (mk_Split [] [] [] []) g.

(** The first [n] draws of the generator and the state after them. *)
Fixpoint draws (n : nat) (g : Rng) : list f64 * Rng :=
  match n with
  | 0 => ([], g)
  | S n' => let '(u, g') := rand g in
            let '(us, g'') := draws n' g' in (u :: us, g'')
  end.

End PrepareData.

Arguments route_videos {Rng} rand class_path label names acc g.
Arguments route_classes listdir {Rng} rand video_folder items acc g.
Arguments prepare_data listdir isdir {Rng} rand video_folder g.
Arguments draws {Rng} rand n g.

(** *** The split, described from the outside

    The videos that [prepare_data] enumerates, in the order it meets them,
    and the two subsequences that a list of draws selects. *)

Definition is_avi (video_name : pystr) : bool := endswith video_name (str ".avi").

Definition class_videos (class_path : pystr) (label : nat)
    (names : list pystr) : list (pystr * nat) :=
  map (fun video_name => (path_join class_path video_name, label))
      (filter (fun video_name => is_avi video_name = true) names).

Fixpoint all_videos (listdir : pystr -> result (list pystr))
    (video_folder : pystr) (items : list (pystr * nat))
  : result (list (pystr * nat)) :=
  match items with
  | [] => Ok []
  | (video_class, label) :: rest =>
      let class_path := path_join video_folder video_class in
      names ← listdir class_path;
      videos ← all_videos listdir video_folder rest;
      Ok (class_videos class_path label names ++ videos)
  end.

Definition to_train (u : f64) : bool := f64_ltb u f64_0_8.

(** The videos whose draw says [train] (when [b] is true) or test. *)
Definition routed (b : bool) (videos : list (pystr * nat)) (us : list f64)
  : list (pystr * nat) :=
  (filter (fun vu => to_train (snd vu) = b) (zip videos us)).*1.

Definition split_of (videos : list (pystr * nat)) (us : list f64) : Split :=
  mk_Split (routed true videos us).*1 (routed false videos us).*1
           (routed true videos us).*2 (routed false videos us).*2.

Definition split_app (a b : Split) : Split :=
  mk_Split (train_paths a ++ train_paths b) (test_paths a ++ test_paths b)
           (train_labels a ++ train_labels b) (test_labels a ++ test_labels b).

(** The assignment of labels, written as a recursion on the sorted names. *)
Fixpoint labels_from (k : nat) (names : list pystr) : list (pystr * nat) :=
  match names with
  | [] => []
  | name :: rest => (name, k) :: labels_from (S k) rest
  end.

(** ** DataLoader

    [DataLoader(dataset, batch_size, shuffle)] visits the indices
    [0 .. len(dataset)-1] in the order its sampler gives, cuts that order
    into consecutive batches of [batch_size] indices (the last one may be
    shorter), fetches the items of a batch with [dataset[i]] and collates
    them. *)

Definition Batch : Type := ndarray f32 * list nat.

(** [torch.stack]: at least one tensor, all of one shape. *)
Definition torch_stack (ts : list (ndarray f32)) : result (ndarray f32) :=
  match ts with
  | [] => Raise RuntimeError
  | t :: _ =>
      if forallb (fun y => bool_decide (shape y = shape t)) ts
      then Ok (mk_ndarray (length ts :: shape t) (concat (map data ts)))
      else Raise RuntimeError
  end.

Definition default_collate (samples : list (ndarray f32 * nat)) : result Batch :=
  inputs ← torch_stack (map fst samples);
  Ok (inputs, map snd samples).

(** Consecutive chunks of [n] elements; [fuel] bounds their number. *)
Fixpoint chunks_aux {A} (fuel n : nat) (l : list A) : list (list A) :=
  match fuel with
  | 0 => []
  | S fuel' =>
      match l with
      | [] => []
      | _ :: _ => take n l :: chunks_aux fuel' n (drop n l)
      end
  end.

Definition chunks {A} (n : nat) (l : list A) : list (list A) :=
  chunks_aux (length l) n l.

Record DataLoader : Type := mk_DataLoader {
  dl_getitem : nat -> result (ndarray f32 * nat);
  dl_len : nat;
  dl_batch_size : nat
}.

(** The constructor refuses a batch size that is not positive, and, with
    [shuffle=True], a data set without samples: the random sampler it
    builds wants a positive number of samples. *)
Definition new_DataLoader (getitem : nat -> result (ndarray f32 * nat))
    (len batch_size : nat) (shuffle : bool) : result DataLoader :=
  if shuffle && (len =? 0) then Raise ValueError
  else if batch_size =? 0 then Raise ValueError
  else Ok (mk_DataLoader getitem len batch_size).

(** One pass over the loader, the sampler having produced [order]: each
    element is the batch that [next()] returns, or the exception it
    raises. *)
Definition iter_DataLoader (dl : DataLoader) (order : list nat)
  : list (result Batch) :=
  map (fun idxs => samples ← mapM (dl_getitem dl) idxs; default_collate samples)
      (chunks (dl_batch_size dl) order).

(** The sequential sampler of [shuffle=False]. *)
Definition sequential (dl : DataLoader) : list nat := seq 0 (dl_len dl).

(** [create_data_loaders]: the two data sets of the split, each behind a
    loader of [batch_size]; the sampler of the training loader shuffles,
    that of the test loader is [sequential]. *)
Definition create_data_loaders {RawFrame : Type}
    (cv2_resize_px : RawFrame -> nat * nat -> nat -> nat -> nat -> byte)
    (VideoCapture : pystr -> Capture RawFrame)
    (batch_size fixed_frame_count : nat) (split : Split)
  : result (DataLoader * DataLoader) :=
  let train_dataset :=
    mk_VideoDataset (train_paths split) (train_labels split)
                    fixed_frame_count in
  let test_dataset :=
    mk_VideoDataset (test_paths split) (test_labels split)
                    fixed_frame_count in
  train_loader ←
    new_DataLoader
      (fun i => getitem cv2_resize_px VideoCapture train_dataset (Z.of_nat i))
      (dataset_len train_dataset) batch_size true;
  test_loader ←
    new_DataLoader
      (fun i => getitem cv2_resize_px VideoCapture test_dataset (Z.of_nat i))
      (dataset_len test_dataset) batch_size false;
  Ok (train_loader, test_loader).

(** ** The training and evaluation loops *)

(** [(predicted == labels).sum().item()] on one-dimensional tensors: equal
    lengths compare position by position, a length of one is broadcast,
    other lengths are refused. *)
Definition count_eq (predicted labels : list nat) : result nat :=
  let hits := fun xs ys =>
    length (filter (fun p => fst p = snd p) (zip xs ys)) in
  if length predicted =? length labels then Ok (hits predicted labels)
  else match predicted, labels with
       | [p], _ => Ok (hits (replicate (length labels) p) labels)
       | _, [l] => Ok (hits predicted (replicate (length predicted) l))
       | _, _ => Raise RuntimeError
       end.

(** [a / b] on two [int]s: true division, the double nearest to the exact
    quotient; a quotient beyond the doubles is refused. *)
Definition py_truediv (a b : nat) : result f64 :=
  if b =? 0 then Raise ZeroDivisionError
  else match f64_div (f64_of_nat a) (f64_of_nat b) with
       | S754_infinity _ => Raise OverflowError
       | q => Ok q
       end.

Section Loops.

(** The parameters of the model and the state of the optimiser. *)
Variable Params : Type.
Variable Optim : Type.
(** The logits of one sample, and the floats of the loss. *)
Variable Row : Type.
Variable Float : Type.

(** [model(inputs)]: one row of logits per sample, or an exception; the
    flag is the training mode. *)
Variable apply_model : Params -> bool -> ndarray f32 -> result (list Row).
(** The index [torch.max(outputs, 1)] returns for a row. *)
Variable argmax : Row -> nat.
(** The value of the cross entropy once the shapes agree. *)
Variable nll : list Row -> list nat -> result Float.
(** [optimizer.zero_grad()] before the forward pass, then
    [loss.backward(); optimizer.step()] with gradient tracking on: the
    gradients live between the two, what remains is the update of the
    parameters and of the optimiser, or the exception of a loss that does
    not depend on a parameter. *)
Variable optimizer_step :
  Params -> Optim -> ndarray f32 -> list nat -> result (Params * Optim).
Variable float_zero : Float.
Variable float_add : Float -> Float -> Float.
Variable float_div : Float -> nat -> Float.

(** What an observer of a run sees: each call of the model with the
    gradient mode it ran in, and the counters at the end of each pass
    over the training batches. *)
Inductive Event : Type :=
| Forward (inputs : ndarray f32) (grad : bool)
| EpochEnd (correct total : nat).

Record World : Type := mk_World {
  params : Params;
  optim : Optim;
  training : bool;
  grad_enabled : bool;
  trace : list Event
}.

(** State and exceptions. *)
Definition M (A : Type) : Type := World -> result A * World.

#[local] Instance M_ret : MRet M := fun A a w => (Ok a, w).
#[local] Instance M_bind : MBind M := fun A B f m w =>
  match m w with
  | (Ok a, w') => f a w'
  | (Raise e, w') => (Raise e, w')
  end.

Definition lift {A} (r : result A) : M A := fun w => (r, w).
Definition emit (ev : Event) : M unit := fun w =>
  (Ok tt, mk_World (params w) (optim w) (training w) (grad_enabled w)
                   (trace w ++ [ev])).
Definition set_training (b : bool) : M unit := fun w =>
  (Ok tt, mk_World (params w) (optim w) b (grad_enabled w) (trace w)).

(** [with torch.no_grad(): body]: the previous mode is restored on the
    way out, also when [body] raises. *)
Definition no_grad {A} (body : M A) : M A := fun w =>
  let prev := grad_enabled w in
  let '(r, w') :=
    body (mk_World (params w) (optim w) (training w) false (trace w)) in
  (r, mk_World (params w') (optim w') (training w') prev (trace w')).

Definition call_model (inputs : ndarray f32) : M (list Row) := fun w =>
  (apply_model (params w) (training w) inputs,
   mk_World (params w) (optim w) (training w) (grad_enabled w)
            (trace w ++ [Forward inputs (grad_enabled w)])).

(** [loss.backward(); optimizer.step()]: a loss computed without gradient
    tracking has no graph, and [backward] raises. *)
Definition backward_and_step (inputs : ndarray f32) (labels : list nat)
  : M unit := fun w =>
  if grad_enabled w then
    match optimizer_step (params w) (optim w) inputs labels with
    | Ok (p, o) =>
        (Ok tt, mk_World p o (training w) (grad_enabled w) (trace w))
    | Raise e => (Raise e, w)
    end
  else (Raise RuntimeError, w).

(** [nn.CrossEntropyLoss()(outputs, labels)]: the batch sizes must
    agree. *)
Definition criterion (outputs : list Row) (labels : list nat)
  : result Float :=
  if length outputs =? length labels then nll outputs labels
  else Raise ValueError.

(** The loop over the test batches. *)
Fixpoint test_batches (batches : list (result Batch)) (correct total : nat)
  : M (nat * nat) :=
  match batches with
  | [] => mret (correct, total)
  | b :: rest =>
      '(inputs, labels) ← lift b;
      outputs ← call_model inputs;
      let predicted := map argmax outputs in
      let total := total + length labels in
      hits ← lift (count_eq predicted labels);
      test_batches rest (correct + hits) total
  end.

Definition test_model (test_loader : list (result Batch)) : M f64 :=
  _ ← set_training false;
  '(correct, total) ← no_grad (test_batches test_loader 0 0);
  accuracy ← lift (py_truediv (100 * correct) total);
  mret accuracy.

(** The loop over the training batches of one epoch. *)
Fixpoint train_batches (batches : list (result Batch))
    (running_loss : Float) (correct total : nat)
  : M (Float * nat * nat) :=
  match batches with
  | [] => mret (running_loss, correct, total)
  | b :: rest =>
      '(inputs, labels) ← lift b;
      outputs ← call_model inputs;
      loss ← lift (criterion outputs labels);
      _ ← backward_and_step inputs labels;
      let running_loss := float_add running_loss loss in
      let predicted := map argmax outputs in
      let total := total + length labels in
      hits ← lift (count_eq predicted labels);
      train_batches rest running_loss (correct + hits) total
  end.

(** [running_loss / len(train_loader)] *)
Definition mean_loss (running_loss : Float) (len : nat) : result Float :=
  if len =? 0 then Raise ZeroDivisionError
  else Ok (float_div running_loss len).

(** The epochs [epoch, epoch+1, ..., epoch+n-1]; [train_loader e] is what
    the loader yields when it is iterated for the [e]-th time. *)
Fixpoint train_epochs (train_loader : nat -> list (result Batch))
    (epoch n : nat) (train_losses : list Float) (train_accuracies : list f64)
  : M (list Float * list f64) :=
  match n with
  | 0 => mret (train_losses, train_accuracies)
  | S n' =>
      _ ← set_training true;
      '(running_loss, correct, total) ←
        train_batches (train_loader epoch) float_zero 0 0;
      _ ← emit (EpochEnd correct total);
      accuracy ← lift (py_truediv (100 * correct) total);
      loss ← lift (mean_loss running_loss (length (train_loader epoch)));
      train_epochs train_loader (S epoch) n'
        (train_losses ++ [loss]) (train_accuracies ++ [accuracy])
  end.

Definition train_model (epochs : nat)
    (train_loader : nat -> list (result Batch))
  : M (list Float * list f64) :=
  train_epochs train_loader 0 epochs [] [].

End Loops.

Arguments mk_World {Params Optim} params optim training grad_enabled trace.
Arguments params {Params Optim} _.
Arguments optim {Params Optim} _.
Arguments training {Params Optim} _.
Arguments grad_enabled {Params Optim} _.
Arguments trace {Params Optim} _.
Arguments test_batches {Params Optim Row} apply_model argmax batches correct total.
Arguments test_model {Params Optim Row} apply_model argmax test_loader.
Arguments criterion {Row Float} nll outputs labels.
Arguments train_batches {Params Optim Row Float} apply_model argmax nll
  optimizer_step float_add batches running_loss correct total.
Arguments train_epochs {Params Optim Row Float} apply_model argmax nll
  optimizer_step float_zero float_add float_div train_loader epoch n
  train_losses train_accuracies.
Arguments train_model {Params Optim Row Float} apply_model argmax nll
  optimizer_step float_zero float_add float_div epochs train_loader.

(** *** The loops, described from the outside *)

(** The number of samples in the batches a loader yields. *)
Definition n_samples (batches : list (result Batch)) : nat :=
  sum_list (map (fun b => match b with
                          | Ok (_, labels) => length labels
                          | Raise _ => 0
                          end) batches).

(** The calls of the model that one pass over [batches] makes. *)
Definition forward_events (grad : bool) (batches : list (result Batch))
  : list Event :=
  flat_map (fun b => match b with
                     | Ok (inputs, _) => [Forward inputs grad]
                     | Raise _ => []
                     end) batches.

(** The predictions of one pass that agree with the labels. *)
Definition n_correct {Row : Type} (predict : ndarray f32 -> result (list Row))
    (argmax : Row -> nat) (batches : list (result Batch)) : nat :=
  sum_list (map (fun b =>
    match b with
    | Ok (inputs, labels) =>
        match predict inputs with
        | Ok outputs =>
            length (filter (fun p => fst p = snd p)
                           (zip (map argmax outputs) labels))
        | Raise _ => 0
        end
    | Raise _ => 0
    end) batches).

(** A batch that arrives, on which the model returns one row per sample. *)
Definition served {Row : Type} (predict : ndarray f32 -> result (list Row))
    (b : result Batch) : Prop :=
  exists inputs labels outputs,
    b = Ok (inputs, labels) /\
    predict inputs = Ok outputs /\
    length outputs = length labels.

(** The counters logged at the ends of the epochs. *)
Definition epoch_ends (evs : list Event) : list (nat * nat) :=
  flat_map (fun ev => match ev with
                      | EpochEnd c t => [(c, t)]
                      | Forward _ _ => []
                      end) evs.

(** [100 * correct / total] for the counters [(correct, total)]. *)
Definition percentage (ct : nat * nat) : f64 :=
  f64_div (f64_of_nat (100 * fst ct)) (f64_of_nat (snd ct)).

(** ** Sample inputs *)

(** A decoder whose frames carry no information, resized to black. *)
Definition black_px : unit -> nat * nat -> nat -> nat -> nat -> byte :=
  fun _ _ _ _ _ => x00.

(** A file that cannot be opened. *)
Definition unreadable : pystr -> Capture unit :=
  fun _ => mk_Capture false [].

(** A file that opens and delivers two frames. *)
Definition two_frames : pystr -> Capture unit :=
  fun _ => mk_Capture true [tt; tt].

(** A dataset of one video with label 0. *)
Definition one_video (F : nat) : VideoDataset :=
  mk_VideoDataset [str "v.avi"] [0] F.

(** A directory [root] with the class folders [a] and [b] and a stray
    file. *)
Definition sample_listdir (p : pystr) : result (list pystr) :=
  if decide (p = str "root") then Ok [str "b"; str "a"; str "f.txt"]
  else if decide (p = str "root/a") then Ok [str "x.avi"; str "notes.txt"]
  else if decide (p = str "root/b") then Ok [str "y.avi"; str "z.avi"]
  else Raise OSError.

Definition sample_isdir (p : pystr) : bool :=
  bool_decide (p = str "root/a" \/ p = str "root/b").

(** A generator that alternates between 0.5 and 0.875. *)
Definition sample_rand (n : nat) : f64 * nat :=
  (if Nat.even n then S754_finite false 4503599627370496 (-53)
   else S754_finite false 7881299347898368 (-53), S n).

(** A toy classifier: a row is the class it predicts; every sample is
    predicted as class 0; the parameters count the optimiser steps. *)
Definition toy_model (p : nat) (training : bool) (x : ndarray f32)
  : result (list nat) :=
  match shape x with
  | n :: _ => Ok (replicate n 0)
  | [] => Raise RuntimeError
  end.

(** The pipeline's model, known by the shapes it accepts. *)
Definition pipeline_model (p : nat) (training : bool) (x : ndarray f32)
  : result (list nat) :=
  sh ← forward (mk_Model 224 512 101) (shape x);
  match sh with
  | n :: _ => Ok (replicate n 0)
  | [] => Raise RuntimeError
  end.

(** A model that answers every batch with two rows. *)
Definition two_rows_model (p : nat) (training : bool) (x : ndarray f32)
  : result (list nat) := Ok [0; 0].

Definition toy_nll (outputs : list nat) (labels : list nat) : result nat :=
  Ok 0.

Definition toy_step (p : nat) (o : unit) (x : ndarray f32) (labels : list nat)
  : result (nat * unit) := Ok (S p, o).

(** Three one-element items with the labels 0, 1, 0. *)
Definition toy_getitem (i : nat) : result (ndarray f32 * nat) :=
  Ok (mk_ndarray [1] [f32_zero], i mod 2).

Definition toy_loader : DataLoader := mk_DataLoader toy_getitem 3 2.

(** A loader over a data set without samples. *)
Definition empty_loader : DataLoader := mk_DataLoader toy_getitem 0 8.

(** The sampler turns the indices of the data set around in odd epochs. *)
Definition toy_order (e : nat) : list nat :=
  if Nat.even e then [0; 1; 2] else [2; 1; 0].

Definition toy_world : World nat unit :=
  mk_World 0 tt true true [].

(** A decoder whose frames are numbered; the number is the value of every
    byte of the resized frame. *)
Definition numbered_px : nat -> nat * nat -> nat -> nat -> nat -> byte :=
  fun f _ _ _ _ => match Byte.of_nat f with Some b => b | None => x00 end.

(** Two videos that differ from their third frame on. *)
Definition video_a : pystr -> Capture nat :=
  fun _ => mk_Capture true [1; 2; 3].
Definition video_b : pystr -> Capture nat :=
  fun _ => mk_Capture true [1; 2; 7; 9].

(** Two videos, the second with fewer labels than paths would need. *)
Definition two_videos (F : nat) : VideoDataset :=
  mk_VideoDataset [str "u.avi"; str "v.avi"] [0; 1] F.

(** The float that a pixel of value [n] becomes, and the check that the 256
    of them are in strictly increasing order. *)
Definition normalize_level (n : nat) : f32 :=
  f32_div (f32_of_Z (Z.of_nat n)) (f32_of_Z 255).

Definition f32_ltb : f32 -> f32 -> bool := SFltb.

(** The 256 levels with their pixel values, and what is asked of two of
    them: the smaller pixel has the strictly smaller float, and no float is
    below itself. *)
Definition levels : list (nat * f32) :=
  map (fun i => (i, normalize_level i)) (seq 0 256).

Definition pair_ok (p q : nat * f32) : bool :=
  implb (fst p <? fst q) (f32_ltb (snd p) (snd q))
  && negb (f32_ltb (snd q) (snd q)).

(** A second file system: as [sample_listdir], but the stray file [f.txt]
    of the root cannot be listed as a directory there, while here it
    answers with names. *)
Definition sample_listdir2 (p : pystr) : result (list pystr) :=
  if decide (p = str "root/f.txt") then Ok [str "w.avi"]
  else sample_listdir p.

(** A root that holds files and no folder. *)
Definition flat_listdir (p : pystr) : result (list pystr) :=
  if decide (p = str "root") then Ok [str "x.avi"; str "f.txt"]
  else Raise OSError.

Definition no_isdir (p : pystr) : bool := false.

(** A generator whose draws are all 0.5. *)
Definition low_rand (n : nat) : f64 * nat :=
  (S754_finite false 4503599627370496 (-53), S n).

(** [DataLoader(VideoDataset(...), batch_size=...)]: the loader fetches
    item [i] with [dataset[i]]. *)
Definition loader_of {RawFrame : Type}
    (cv2_resize_px : RawFrame -> nat * nat -> nat -> nat -> nat -> byte)
    (VideoCapture : pystr -> Capture RawFrame)
    (dataset : VideoDataset) (batch_size : nat) : DataLoader :=
  mk_DataLoader
    (fun i => getitem cv2_resize_px VideoCapture dataset (Z.of_nat i))
    (dataset_len dataset) batch_size.

(** A batch that arrives and on which, whatever the parameters and the
    state of the optimiser, the model in training mode returns one row per
    sample, the loss is defined and the backward pass and the step of the
    optimiser go through. *)
Definition trainable {Row Float : Type} {Params Optim : Type}
    (apply_model : Params -> bool -> ndarray f32 -> result (list Row))
    (nll : list Row -> list nat -> result Float)
    (optimizer_step :
       Params -> Optim -> ndarray f32 -> list nat -> result (Params * Optim))
    (b : result Batch) : Prop :=
  exists inputs labels,
    b = Ok (inputs, labels) /\
    forall p o, exists outputs loss,
      apply_model p true inputs = Ok outputs /\
      length outputs = length labels /\
      nll outputs labels = Ok loss /\
      is_Ok (optimizer_step p o inputs labels) = true.

(** The calls of the model among the events of a run. *)
Definition forward_calls (evs : list Event) : list Event :=
  flat_map (fun ev => match ev with
                      | Forward _ _ => [ev]
                      | EpochEnd _ _ => []
                      end) evs.

(** [plot_results]: the x axis is [range(1, self.epochs + 1)]; [plt.plot]
    refuses a history whose length is not that of the axis.  What is drawn
    is matplotlib's. *)
Definition plot_results {Float : Type} (epochs : nat)
    (train_losses : list Float) (train_accuracies : list f64) : result unit :=
  let axis := seq 1 epochs in
  if length axis =? length train_losses then
    if length axis =? length train_accuracies then Ok tt
    else Raise ValueError
  else Raise ValueError.

(** A video without frames between two videos of two frames. *)
Definition middle_unreadable (path : pystr) : Capture unit :=
  if decide (path = str "v.avi") then mk_Capture false []
  else mk_Capture true [tt; tt].

Definition three_videos (F : nat) : VideoDataset :=
  mk_VideoDataset [str "u.avi"; str "v.avi"; str "w.avi"] [0; 1; 0] F.

(** The labels of the batches that arrive, one after the other. *)
Definition batch_labels (batches : list (result Batch)) : list nat :=
  flat_map (fun b => match b with
                     | Ok (_, labels) => labels
                     | Raise _ => []
                     end) batches.

(** The shift record [mrs] holds the integer part of [A / B] and the
    position of its fractional part with respect to one half. *)
Definition represents (A B : Z) (mrs : shr_record) : Prop :=
  (0 <= A)%Z /\ (0 < B)%Z /\
  shr_m mrs = (A / B)%Z /\
  shr_r mrs = (B <=? 2 * (A mod B))%Z /\
  shr_s mrs = negb ((A mod B =? 0)%Z || (2 * (A mod B) =? B)%Z).

(** The float that a rounding returns, as a mantissa and an exponent. *)
Definition float_of (m e : Z) : spec_float :=
  match m with
  | Z0 => S754_zero false
  | Zpos p => S754_finite false p e
  | Zneg _ => S754_nan
  end.

(** * Properties *)

(** ** Row-major indexing *)

Lemma length_concat_uniform {A} (m : nat) (ls : list (list A)) :
  Forall (fun l => length l = m) ls -> length (concat ls) = length ls * m.
Proof.
  induction 1 as [|l ls Hl _ IH]; [done|].
  cbn [concat]. rewrite length_app, IH, Hl. cbn [length]. lia.
Qed.

Lemma lookup_concat_uniform {A} (m : nat) (ls : list (list A)) (i j : nat) :
  Forall (fun l => length l = m) ls -> j < m ->
  concat ls !! (i * m + j) = ls !! i ≫= (fun l => l !! j).
Proof.
  intros Hall Hj. revert i. induction Hall as [|l ls Hl _ IH]; intros i.
  - by rewrite !lookup_nil.
  - cbn [concat]. destruct i as [|i].
    + cbn. rewrite lookup_app_l by lia. done.
    + rewrite lookup_app_r by (rewrite Hl; lia).
      replace (S i * m + j - length l) with (i * m + j) by (rewrite Hl; lia).
      by rewrite IH.
Qed.

Lemma tabulate_concat {A} (n : nat) (f : nat -> list A) :
  tabulate n f = concat (map f (seq 0 n)).
Proof. unfold tabulate. apply flat_map_concat_map. Qed.

Lemma tabulate_uniform {A} (n m : nat) (f : nat -> list A) :
  (forall i, i < n -> length (f i) = m) ->
  Forall (fun l => length l = m) (map f (seq 0 n)).
Proof.
  intros Hf. apply Forall_forall. intros l Hin.
  apply list_elem_of_fmap in Hin as (i & -> & Hi).
  apply elem_of_seq in Hi. apply Hf. lia.
Qed.

Lemma length_tabulate {A} (n m : nat) (f : nat -> list A) :
  (forall i, i < n -> length (f i) = m) -> length (tabulate n f) = n * m.
Proof.
  intros Hf. rewrite tabulate_concat.
  rewrite (length_concat_uniform m) by by apply tabulate_uniform.
  by rewrite length_map, length_seq.
Qed.

Lemma lookup_tabulate {A} (n m : nat) (f : nat -> list A) (i j : nat) :
  (forall i, i < n -> length (f i) = m) -> i < n -> j < m ->
  tabulate n f !! (i * m + j) = f i !! j.
Proof.
  intros Hf Hi Hj. rewrite tabulate_concat.
  rewrite (lookup_concat_uniform m) by (by apply tabulate_uniform || done).
  rewrite list_lookup_fmap, lookup_seq_lt by done. done.
Qed.

Lemma lookup_map_seq {A} (n : nat) (f : nat -> A) (j : nat) :
  j < n -> map f (seq 0 n) !! j = Some (f j).
Proof. intros Hj. by rewrite list_lookup_fmap, lookup_seq_lt. Qed.

Lemma numel3 (h w c : nat) : numel [h; w; c] = h * (w * c).
Proof. unfold numel. cbn [foldr]. lia. Qed.

Lemma numel4 (n h w c : nat) : numel [n; h; w; c] = n * (h * (w * c)).
Proof. unfold numel. cbn [foldr]. lia. Qed.

Lemma flat4 (h w c i y x k : nat) :
  ((i * h + y) * w + x) * c + k = i * (h * (w * c)) + ((y * w + x) * c + k).
Proof. lia. Qed.

Lemma flat3_lt (h w c y x k : nat) :
  y < h -> x < w -> k < c -> (y * w + x) * c + k < h * (w * c).
Proof.
  intros Hy Hx Hk.
  assert (y * w + x < h * w) as H1 by nia.
  assert ((y * w + x) * c + k < (y * w + x + 1) * c) as H2 by lia.
  assert ((y * w + x + 1) * c <= h * w * c) as H3
    by (apply Nat.mul_le_mono_r; lia).
  lia.
Qed.

Lemma flat4_lt (n h w c i y x k : nat) :
  i < n -> y < h -> x < w -> k < c ->
  ((i * h + y) * w + x) * c + k < n * (h * (w * c)).
Proof.
  intros Hi Hy Hx Hk. rewrite flat4.
  pose proof (flat3_lt h w c y x k Hy Hx Hk) as H1.
  assert (i * (h * (w * c)) + h * (w * c) <= n * (h * (w * c))) as H2.
  { replace (i * (h * (w * c)) + h * (w * c)) with ((i + 1) * (h * (w * c)))
      by lia.
    apply Nat.mul_le_mono_r. lia. }
  lia.
Qed.

(** ** Tensor operations, observed through [get4] *)

Lemma get4_in_range {A} (t : ndarray A) (n h w c i y x k : nat) :
  shape t = [n; h; w; c] -> i < n -> y < h -> x < w -> k < c ->
  get4 t i y x k = data t !! (((i * h + y) * w + x) * c + k).
Proof.
  intros Hs Hi Hy Hx Hk. unfold get4. rewrite Hs.
  by rewrite bool_decide_eq_true_2.
Qed.

Lemma get4_out_of_range {A} (t : ndarray A) (n h w c i y x k : nat) :
  shape t = [n; h; w; c] -> ~ (i < n /\ y < h /\ x < w /\ k < c) ->
  get4 t i y x k = None.
Proof.
  intros Hs Hn. unfold get4. rewrite Hs. by rewrite bool_decide_eq_false_2.
Qed.

Lemma get4_nd_map {A B} (f : A -> B) (t : ndarray A) (i y x k : nat) :
  get4 (nd_map f t) i y x k = f <$> get4 t i y x k.
Proof.
  unfold get4, nd_map. cbn [shape data].
  destruct (shape t) as [|s0 [|s1 [|s2 [|s3 [|? ?]]]]]; try done.
  case_bool_decide; [|done]. apply list_lookup_fmap.
Qed.

Lemma wf_nd_map {A B} (f : A -> B) (t : ndarray A) :
  wf_ndarray t -> wf_ndarray (nd_map f t).
Proof. unfold wf_ndarray, nd_map. cbn [shape data]. by rewrite length_map. Qed.

Lemma permute_0312_spec {A} (d : A) (t : ndarray A) (n h w c : nat) :
  shape t = [n; h; w; c] -> wf_ndarray t ->
  exists t', permute_0312 d t = Ok t' /\ shape t' = [n; c; h; w] /\
    wf_ndarray t' /\
    forall i k y x, get4 t' i k y x = get4 t i y x k.
Proof.
  intros Hs Hwf. unfold permute_0312. rewrite Hs.
  pose (row := fun i k y =>
    map (fun x => nth (((i * h + y) * w + x) * c + k) (data t) d) (seq 0 w)).
  exists (mk_ndarray [n; c; h; w]
    (tabulate n (fun i => tabulate c (fun k => tabulate h (row i k))))).
  split; [reflexivity|]. split; [reflexivity|].
  assert (Hrow : forall i k y, length (row i k y) = w).
  { intros. unfold row. by rewrite length_map, length_seq. }
  assert (Hpl : forall i k, length (tabulate h (row i k)) = h * w).
  { intros. by apply length_tabulate. }
  assert (Hcu : forall i,
    length (tabulate c (fun k => tabulate h (row i k))) = c * (h * w)).
  { intros. by apply length_tabulate. }
  split.
  - unfold wf_ndarray. cbn [shape data]. rewrite numel4.
    apply length_tabulate. intros; apply Hcu.
  - intros i k y x.
    destruct (decide (i < n /\ k < c /\ y < h /\ x < w)) as [(Hi&Hk&Hy&Hx)|Hn].
    + rewrite (get4_in_range _ n c h w) by done.
      rewrite (get4_in_range t n h w c) by done.
      cbn [data].
      replace (((i * c + k) * h + y) * w + x)
        with (i * (c * (h * w)) + (k * (h * w) + (y * w + x))) by lia.
      rewrite (lookup_tabulate n (c * (h * w))); [|by intros; apply Hcu|done|].
      2:{ pose proof (flat3_lt c h w k y x Hk Hy Hx). lia. }
      rewrite (lookup_tabulate c (h * w)); [|by intros; apply Hpl|done|].
      2:{ assert (y * w + x < (y + 1) * w) by lia.
          assert ((y + 1) * w <= h * w) by (apply Nat.mul_le_mono_r; lia).
          lia. }
      rewrite (lookup_tabulate h w) by done.
      unfold row. rewrite lookup_map_seq by done.
      pose proof (flat4_lt n h w c i y x k Hi Hy Hx Hk) as Hlt.
      unfold wf_ndarray in Hwf. rewrite Hs, numel4 in Hwf.
      destruct (lookup_lt_is_Some_2 (data t) (((i * h + y) * w + x) * c + k))
        as [v Hv]; [lia|].
      rewrite Hv. f_equal. by apply nth_lookup_Some.
    + rewrite (get4_out_of_range _ n c h w) by done.
      rewrite (get4_out_of_range t n h w c); [done|done|]. tauto.
Qed.

Lemma np_pad_spec {A} (z : A) (t : ndarray A) (p n h w c : nat) :
  shape t = [n; h; w; c] -> wf_ndarray t ->
  exists t', np_pad z t p = Ok t' /\ shape t' = [n + p; h; w; c] /\
    wf_ndarray t' /\
    forall i y x k, y < h -> x < w -> k < c ->
      get4 t' i y x k =
        if decide (i < n) then get4 t i y x k
        else if decide (i < n + p) then Some z else None.
Proof.
  intros Hs Hwf. unfold np_pad. rewrite Hs.
  eexists. split; [reflexivity|]. split; [reflexivity|].
  unfold wf_ndarray in *. rewrite Hs, numel4 in Hwf.
  split.
  - cbn [shape data]. rewrite length_app, length_replicate, numel4, numel3, Hwf.
    lia.
  - intros i y x k Hy Hx Hk.
    destruct (decide (i < n)) as [Hi|Hi].
    + rewrite (get4_in_range _ (n + p) h w c) by (done || lia).
      rewrite (get4_in_range t n h w c) by done.
      cbn [data]. apply lookup_app_l.
      pose proof (flat4_lt n h w c i y x k Hi Hy Hx Hk). lia.
    + destruct (decide (i < n + p)) as [Hip|Hip].
      * rewrite (get4_in_range _ (n + p) h w c) by done.
        cbn [data].
        pose proof (flat3_lt h w c y x k Hy Hx Hk) as H3.
        rewrite lookup_app_r by (rewrite flat4, Hwf; nia).
        rewrite numel3, flat4, Hwf.
        replace (i * (h * (w * c)) + ((y * w + x) * c + k) - n * (h * (w * c)))
          with ((i - n) * (h * (w * c)) + ((y * w + x) * c + k)) by nia.
        apply lookup_replicate_2.
        assert ((i - n) * (h * (w * c)) + h * (w * c) <= p * (h * (w * c))).
        { replace ((i - n) * (h * (w * c)) + h * (w * c))
            with ((i - n + 1) * (h * (w * c))) by lia.
          apply Nat.mul_le_mono_r. lia. }
        lia.
      * apply (get4_out_of_range _ (n + p) h w c); [done|]. tauto.
Qed.

Lemma slice_to_spec {A} (t : ndarray A) (kk n h w c : nat) :
  shape t = [n; h; w; c] -> wf_ndarray t -> kk <= n ->
  exists t', slice_to t kk = Ok t' /\ shape t' = [kk; h; w; c] /\
    wf_ndarray t' /\
    forall i y x k,
      get4 t' i y x k = if decide (i < kk) then get4 t i y x k else None.
Proof.
  intros Hs Hwf Hk. unfold slice_to. rewrite Hs.
  rewrite Nat.min_l by done.
  eexists. split; [reflexivity|]. split; [reflexivity|].
  unfold wf_ndarray in *. rewrite Hs, numel4 in Hwf.
  split.
  - cbn [shape data]. rewrite length_take, numel4, numel3, Hwf.
    assert (kk * (h * (w * c)) <= n * (h * (w * c)))
      by (apply Nat.mul_le_mono_r; lia).
    lia.
  - intros i y x k.
    destruct (decide (i < kk)) as [Hi|Hi].
    + destruct (decide (y < h /\ x < w /\ k < c)) as [(Hy&Hx&Hc)|Hn].
      * rewrite (get4_in_range _ kk h w c) by done.
        rewrite (get4_in_range t n h w c) by (done || lia).
        cbn [data]. apply lookup_take_lt. rewrite numel3.
        apply flat4_lt; done.
      * rewrite (get4_out_of_range _ kk h w c) by (done || tauto).
        rewrite (get4_out_of_range t n h w c); [done|done|tauto].
    + apply (get4_out_of_range _ kk h w c); [done|tauto].
Qed.

(** ** VideoDataset.__getitem__ *)

Lemma py_index_lookup {A} (l : list A) (i : nat) (x : A) :
  l !! i = Some x -> py_index l (Z.of_nat i) = Ok x.
Proof.
  intros Hx. pose proof (lookup_lt_Some _ _ _ Hx) as Hlt.
  unfold py_index.
  replace (Z.of_nat i <? 0)%Z with false by (symmetry; apply Z.ltb_ge; lia).
  replace (0 <=? Z.of_nat i)%Z with true by (symmetry; apply Z.leb_le; lia).
  replace (Z.of_nat i <? Z.of_nat (length l))%Z with true
    by (symmetry; apply Z.ltb_lt; lia).
  cbn [andb]. by rewrite Nat2Z.id, Hx.
Qed.

Section VideoDataset_facts.

Context {RawFrame : Type}.
Variable px : RawFrame -> nat * nat -> nat -> nat -> nat -> byte.
Variable capture : pystr -> Capture RawFrame.

Lemma cv2_resize_spec (frame : RawFrame) (wd ht : nat) :
  shape (cv2_resize px frame (wd, ht)) = [ht; wd; 3] /\
  wf_ndarray (cv2_resize px frame (wd, ht)) /\
  forall y x c, y < ht -> x < wd -> c < 3 ->
    data (cv2_resize px frame (wd, ht)) !! ((y * wd + x) * 3 + c)
    = Some (px frame (wd, ht) y x c).
Proof.
  unfold cv2_resize, wf_ndarray. cbn [shape data].
  assert (Hrow : forall y x : nat,
    length (map (fun c => px frame (wd, ht) y x c) (seq 0 3)) = 3).
  { intros. by rewrite length_map, length_seq. }
  assert (Hline : forall y : nat, length (tabulate wd (fun x =>
    map (fun c => px frame (wd, ht) y x c) (seq 0 3))) = wd * 3).
  { intros. apply length_tabulate. intros; apply Hrow. }
  split; [done|]. split.
  - rewrite numel3. apply length_tabulate. intros; apply Hline.
  - intros y x c Hy Hx Hc.
    replace ((y * wd + x) * 3 + c) with (y * (wd * 3) + (x * 3 + c)) by lia.
    rewrite (lookup_tabulate ht (wd * 3)); [|by intros; apply Hline|done|lia].
    rewrite (lookup_tabulate wd 3); [|by intros; apply Hrow|done|done].
    by rewrite lookup_map_seq.
Qed.

Lemma read_loop_spec (opened : bool) (rest : list RawFrame)
    (frames : list (ndarray byte)) :
  read_loop px opened rest frames =
  frames ++ (if opened
             then map (fun f => cv2_resize px f (224, 224)) rest else []).
Proof.
  revert frames. induction rest as [|f rest IH]; intros frames.
  - destruct opened; cbn [read_loop map]; by rewrite app_nil_r.
  - destruct opened.
    + cbn [read_loop map]. rewrite IH. by rewrite <- app_assoc.
    + cbn [read_loop]. by rewrite app_nil_r.
Qed.

Lemma read_loop_decoded (path : pystr) :
  read_loop px (isOpened (capture path)) (stream (capture path)) [] =
  map (fun f => cv2_resize px f (224, 224)) (decoded capture path).
Proof.
  rewrite read_loop_spec. unfold decoded.
  by destruct (isOpened (capture path)).
Qed.

(** Stacking the resized frames of a non-empty video. *)
Lemma np_array_frames (raws : list RawFrame) (wd ht : nat) :
  raws <> [] ->
  exists t,
    np_array (map (fun f => cv2_resize px f (wd, ht)) raws) = Ok t /\
    shape t = [length raws; ht; wd; 3] /\ wf_ndarray t /\
    forall i y x c, y < ht -> x < wd -> c < 3 ->
      get4 t i y x c = (fun f => px f (wd, ht) y x c) <$> raws !! i.
Proof.
  intros Hne. destruct raws as [|f0 raws']; [done|].
  set (raws := f0 :: raws').
  set (frames := map (fun f => cv2_resize px f (wd, ht)) raws).
  assert (Hall : Forall (fun l => length l = ht * (wd * 3)) (map data frames)).
  { apply Forall_forall. intros l Hl.
    apply list_elem_of_fmap in Hl as (fr & -> & Hfr).
    apply list_elem_of_fmap in Hfr as (f & -> & _).
    destruct (cv2_resize_spec f wd ht) as (Hs & Hwf & _).
    unfold wf_ndarray in Hwf. by rewrite Hwf, Hs, numel3. }
  exists (mk_ndarray (length frames :: [ht; wd; 3]) (concat (map data frames))).
  split.
  - subst frames raws. cbn [map np_array].
    replace (forallb _ _) with true; [done|].
    symmetry. apply forallb_forall. intros fr Hfr.
    apply bool_decide_eq_true_2.
    change (In fr (map (fun f => cv2_resize px f (wd, ht)) (f0 :: raws')))
      in Hfr.
    apply in_map_iff in Hfr as (f & <- & _). done.
  - assert (Hlen : length frames = length raws)
      by (subst frames; apply length_map).
    split; [by rewrite Hlen|]. split.
    + unfold wf_ndarray. cbn [shape data]. rewrite numel4.
      rewrite (length_concat_uniform (ht * (wd * 3))) by done.
      by rewrite length_map.
    + intros i y x c Hy Hx Hc.
      destruct (raws !! i) as [f|] eqn:Hi.
      * pose proof (lookup_lt_Some _ _ _ Hi) as Hlt.
        rewrite (get4_in_range _ (length frames) ht wd 3)
          by (done || lia).
        cbn [data]. rewrite flat4.
        rewrite (lookup_concat_uniform (ht * (wd * 3)));
          [|done|by apply flat3_lt].
        rewrite list_lookup_fmap. subst frames.
        rewrite list_lookup_fmap, Hi. cbn.
        by apply cv2_resize_spec.
      * apply lookup_ge_None in Hi.
        apply (get4_out_of_range _ (length frames) ht wd 3); [done|]. lia.
Qed.

(** The whole of [__getitem__] on a video that has at least one frame. *)
Lemma getitem_nonempty (ds : VideoDataset) (idx : Z) (path : pystr)
    (label : nat) :
  py_index (video_paths ds) idx = Ok path ->
  py_index (labels ds) idx = Ok label ->
  decoded capture path <> [] ->
  exists t,
    getitem px capture ds idx = Ok (t, label) /\
    shape t = [fixed_frame_count ds; 3; 224; 224] /\
    wf_ndarray t /\
    forall i c y x,
      i < fixed_frame_count ds -> c < 3 -> y < 224 -> x < 224 ->
      get4 t i c y x =
        Some (match decoded capture path !! i with
              | Some f => normalized (px f (224, 224) y x c)
              | None => f32_zero
              end).
Proof.
  intros Hpath Hlabel Hne. unfold getitem.
  rewrite Hpath, Hlabel. cbn [mbind result_bind].
  rewrite read_loop_decoded.
  set (raws := decoded capture path) in *.
  destruct (np_array_frames raws 224 224 Hne) as (t0 & -> & Hs0 & Hwf0 & Hg0).
  cbn [mbind result_bind].
  set (t1 := normalize t0).
  assert (Hs1 : shape t1 = [length raws; 224; 224; 3]) by done.
  assert (Hwf1 : wf_ndarray t1) by (by do 2 apply wf_nd_map).
  assert (Hg1 : forall i y x c, y < 224 -> x < 224 -> c < 3 ->
    get4 t1 i y x c = (fun f => normalized (px f (224, 224) y x c)) <$> raws !! i).
  { intros i y x c Hy Hx Hc. unfold t1, normalize.
    rewrite !get4_nd_map, Hg0 by done. by destruct (raws !! i). }
  unfold py_len. rewrite Hs1.
  set (F := fixed_frame_count ds).
  assert (exists t2,
    (if length raws <? F then np_pad f32_zero t1 (F - length raws)
     else if F <? length raws then slice_to t1 F else Ok t1) = Ok t2 /\
    shape t2 = [F; 224; 224; 3] /\ wf_ndarray t2 /\
    forall i y x c, i < F -> y < 224 -> x < 224 -> c < 3 ->
      get4 t2 i y x c =
        Some (match raws !! i with
              | Some f => normalized (px f (224, 224) y x c)
              | None => f32_zero
              end)) as (t2 & Ht2 & Hs2 & Hwf2 & Hg2).
  { destruct (Nat.ltb_spec (length raws) F) as [Hlt|Hge].
    - destruct (np_pad_spec f32_zero t1 (F - length raws) _ _ _ _ Hs1 Hwf1)
        as (t2 & -> & Hs2 & Hwf2 & Hg2).
      exists t2. split; [done|].
      split; [rewrite Hs2; f_equal; lia|]. split; [done|].
      intros i y x c Hi Hy Hx Hc. rewrite Hg2 by done.
      destruct (decide (i < length raws)) as [Hin|Hout].
      + rewrite Hg1 by done.
        destruct (lookup_lt_is_Some_2 raws i Hin) as [f ->]. done.
      + rewrite decide_True by lia.
        by rewrite (proj2 (lookup_ge_None raws i)) by lia.
    - assert (forall i, i < F -> exists f, raws !! i = Some f) as Hin.
      { intros i Hi. apply lookup_lt_is_Some_2. lia. }
      destruct (Nat.ltb_spec F (length raws)) as [Hlt|Hle].
      + destruct (slice_to_spec t1 F _ _ _ _ Hs1 Hwf1 ltac:(lia))
          as (t2 & -> & Hs2 & Hwf2 & Hg2).
        exists t2. do 3 (split; [done|]).
        intros i y x c Hi Hy Hx Hc. rewrite Hg2, decide_True by done.
        rewrite Hg1 by done. by destruct (Hin i Hi) as [f ->].
      + exists t1. split; [done|].
        split; [rewrite Hs1; f_equal; lia|]. split; [done|].
        intros i y x c Hi Hy Hx Hc.
        rewrite Hg1 by done. by destruct (Hin i Hi) as [f ->]. }
  cbn [mbind result_bind]. rewrite Ht2. cbn [mbind result_bind].
  unfold torch_tensor_f32.
  destruct (permute_0312_spec f32_zero t2 _ _ _ _ Hs2 Hwf2)
    as (t3 & -> & Hs3 & Hwf3 & Hg3).
  exists t3. do 3 (split; [done|]).
  intros i c y x Hi Hc Hy Hx. rewrite Hg3. by apply Hg2.
Qed.

(** Without a single frame the stacked array has one axis, and neither
    the padding nor the permutation accepts it. *)
Lemma getitem_empty (ds : VideoDataset) (idx : Z) (path : pystr)
    (label : nat) :
  py_index (video_paths ds) idx = Ok path ->
  py_index (labels ds) idx = Ok label ->
  decoded capture path = [] ->
  getitem px capture ds idx =
    Raise (if fixed_frame_count ds =? 0 then RuntimeError else ValueError).
Proof.
  intros Hpath Hlabel Hnil. unfold getitem.
  rewrite Hpath, Hlabel. cbn [mbind result_bind].
  rewrite read_loop_decoded, Hnil. cbn [map np_array mbind result_bind].
  unfold normalize, nd_map, py_len. cbn [shape data map].
  destruct (fixed_frame_count ds) as [|F]; done.
Qed.

(** A tensor is only ever returned for a video of at least one frame. *)
Lemma getitem_Ok_decoded (ds : VideoDataset) (idx : Z) (t : ndarray f32)
    (label : nat) :
  getitem px capture ds idx = Ok (t, label) ->
  exists path,
    py_index (video_paths ds) idx = Ok path /\
    py_index (labels ds) idx = Ok label /\
    decoded capture path <> [].
Proof.
  intros Hget.
  destruct (py_index (video_paths ds) idx) as [path|e] eqn:Hpath;
    [|by unfold getitem in Hget; rewrite Hpath in Hget].
  destruct (py_index (labels ds) idx) as [label'|e] eqn:Hlabel;
    [|by unfold getitem in Hget; rewrite Hpath, Hlabel in Hget].
  exists path.
  destruct (decide (decoded capture path = [])) as [Hnil|Hne].
  - by rewrite (getitem_empty ds idx path label') in Hget.
  - destruct (getitem_nonempty ds idx path label' Hpath Hlabel Hne)
      as (t' & Hget' & _).
    rewrite Hget' in Hget. injection Hget as _ ->. done.
Qed.

End VideoDataset_facts.

Lemma normalized_bounds (b : byte) :
  f32_leb f32_zero (normalized b) = true /\
  f32_leb (normalized b) f32_one = true /\
  close_to_quotient (normalized b) b = true.
Proof. destruct b; vm_compute; auto. Qed.

Lemma f32_zero_bounds :
  f32_leb f32_zero f32_zero = true /\ f32_leb f32_zero f32_one = true.
Proof. vm_compute. auto. Qed.

(** C1. With the default [fixed_frame_count] of 100, a video whose decode
    yields no frame (L = 0 < F) does not come back as a tensor of 100 zero
    frames: the stacked array has a single axis and [np.pad] refuses the
    four pad widths. *)
Theorem getitem_zero_frames_default :
  getitem black_px unreadable (one_video 100) 0 = Raise ValueError.
Proof. vm_compute. reflexivity. Qed.

(** C3. For every video whose decode yields zero frames, [__getitem__]
    raises: [ValueError] from [np.pad] when [fixed_frame_count] is
    positive, [RuntimeError] from [permute] when it is zero.  No tensor is
    returned. *)
Theorem getitem_unreadable_raises {RawFrame : Type}
    (px : RawFrame -> nat * nat -> nat -> nat -> nat -> byte)
    (capture : pystr -> Capture RawFrame)
    (ds : VideoDataset) (idx : Z) (path : pystr) (label : nat) :
  py_index (video_paths ds) idx = Ok path ->
  py_index (labels ds) idx = Ok label ->
  decoded capture path = [] ->
  getitem px capture ds idx =
    Raise (if fixed_frame_count ds =? 0 then RuntimeError else ValueError).
Proof. apply getitem_empty. Qed.

Lemma getitem_unreadable_raises_witness :
  py_index (video_paths (one_video 5)) 0 = Ok (str "v.avi") /\
  py_index (labels (one_video 5)) 0 = Ok 0 /\
  decoded unreadable (str "v.avi") = [] /\
  getitem black_px unreadable (one_video 5) 0 = Raise ValueError.
Proof.
  split; [reflexivity|]. split; [reflexivity|]. split; [reflexivity|].
  apply (getitem_unreadable_raises black_px unreadable (one_video 5) 0
           (str "v.avi") 0); reflexivity.
Defined.

(** C7. For a video with at least one frame, [__getitem__] returns a tensor
    of shape (F, 3, 224, 224) in which every entry (i, c, y, x) is, for a
    decoded frame i, the binary32 quotient of the resized frame's byte at
    (y, x, c) by 255 (within 2^-25 of the exact quotient), and 0 for a
    padded frame; every entry lies between 0 and 1. *)
Theorem getitem_pixels_normalized {RawFrame : Type}
    (px : RawFrame -> nat * nat -> nat -> nat -> nat -> byte)
    (capture : pystr -> Capture RawFrame)
    (ds : VideoDataset) (idx : Z) (path : pystr) (label : nat) :
  py_index (video_paths ds) idx = Ok path ->
  py_index (labels ds) idx = Ok label ->
  decoded capture path <> [] ->
  exists t,
    getitem px capture ds idx = Ok (t, label) /\
    shape t = [fixed_frame_count ds; 3; 224; 224] /\
    wf_ndarray t /\
    forall i c y x,
      i < fixed_frame_count ds -> c < 3 -> y < 224 -> x < 224 ->
      exists v,
        get4 t i c y x = Some v /\
        match decoded capture path !! i with
        | Some f =>
            v = f32_div (f32_of_u8 (px f (224, 224) y x c)) (f32_of_Z 255) /\
            close_to_quotient v (px f (224, 224) y x c) = true
        | None => v = f32_zero
        end /\
        f32_leb f32_zero v = true /\ f32_leb v f32_one = true.
Proof.
  intros Hpath Hlabel Hne.
  destruct (getitem_nonempty px capture ds idx path label Hpath Hlabel Hne)
    as (t & Hget & Hs & Hwf & Hpx).
  exists t. do 3 (split; [done|]).
  intros i c y x Hi Hc Hy Hx. eexists. split; [by apply Hpx|].
  destruct (decoded capture path !! i) as [f|].
  - pose proof (normalized_bounds (px f (224, 224) y x c)) as (H0 & H1 & Hq).
    done.
  - split; [done|]. apply f32_zero_bounds.
Qed.

Lemma getitem_pixels_normalized_witness :
  py_index (video_paths (one_video 3)) 0 = Ok (str "v.avi") /\
  py_index (labels (one_video 3)) 0 = Ok 0 /\
  decoded two_frames (str "v.avi") <> [] /\
  exists t,
    getitem black_px two_frames (one_video 3) 0 = Ok (t, 0) /\
    shape t = [3; 3; 224; 224] /\
    wf_ndarray t /\
    forall i c y x,
      i < 3 -> c < 3 -> y < 224 -> x < 224 ->
      exists v,
        get4 t i c y x = Some v /\
        match decoded two_frames (str "v.avi") !! i with
        | Some f =>
            v = f32_div (f32_of_u8 (black_px f (224, 224) y x c)) (f32_of_Z 255)
            /\ close_to_quotient v (black_px f (224, 224) y x c) = true
        | None => v = f32_zero
        end /\
        f32_leb f32_zero v = true /\ f32_leb v f32_one = true.
Proof.
  split; [reflexivity|]. split; [reflexivity|]. split; [discriminate|].
  apply (getitem_pixels_normalized black_px two_frames (one_video 3) 0
           (str "v.avi") 0); [reflexivity|reflexivity|discriminate].
Defined.

(** ** VideoLSTMTransformerModel.forward *)

Lemma numel5 (b t c h w : nat) : numel [b; t; c; h; w] = c * h * w * (b * t).
Proof. unfold numel. cbn [foldr]. lia. Qed.

(** On a non-empty batch of non-empty sequences the forward pass succeeds
    exactly when the flattened frame size is the LSTM's [input_size]. *)
Lemma forward_spec (self : VideoLSTMTransformerModel) (b t c h w : nat) :
  b * t <> 0 ->
  forward self [b; t; c; h; w] =
    if c * h * w =? input_size self then Ok [b; num_classes self]
    else Raise RuntimeError.
Proof.
  intros Hbt. unfold forward. cbn [unpack5 mbind result_bind].
  unfold reshape_infer_last.
  rewrite (proj2 (Nat.eqb_neq _ _) Hbt).
  rewrite numel5, Nat.Div0.mod_mul, Nat.div_mul by done.
  cbn [Nat.eqb mbind result_bind lstm_forward].
  destruct (c * h * w =? input_size self); [|done].
  cbn [mbind result_bind transformer_forward].
  rewrite !Nat.eqb_refl. cbn [andb mbind result_bind select_last].
  assert (t <> 0) as Ht by lia.
  rewrite (proj2 (Nat.eqb_neq _ _) Ht).
  cbn [mbind result_bind linear_forward]. by rewrite Nat.eqb_refl.
Qed.

Lemma forward_empty (self : VideoLSTMTransformerModel) (b t c h w : nat) :
  b * t = 0 -> forward self [b; t; c; h; w] = Raise RuntimeError.
Proof.
  intros Hbt. unfold forward. cbn [unpack5 mbind result_bind].
  unfold reshape_infer_last. by rewrite Hbt.
Qed.

(** C2. The model that [main] constructs ([input_size=224],
    [hidden_size=512], [num_classes=101]) is built without error, and its
    forward pass raises on every batch of frames of shape 3x224x224,
    whatever the batch size and the sequence length: the flattened frame has
    3*224*224 = 150528 features and the LSTM expects 224.  No logits are
    returned. *)
Theorem forward_pipeline_model_raises :
  new_model 224 512 101 = Ok (mk_Model 224 512 101) /\
  forall b t : nat,
    forward (mk_Model 224 512 101) [b; t; 3; 224; 224] = Raise RuntimeError.
Proof.
  split; [reflexivity|]. intros b t.
  destruct (decide (b * t = 0)) as [Hz|Hnz].
  - by apply forward_empty.
  - rewrite forward_spec by done. cbn [input_size].
    replace (3 * 224 * 224 =? 224) with false; [done|].
    symmetry. apply Nat.eqb_neq. lia.
Qed.

(** The forward pass as the specification describes it: logits of shape
    (batch, num_classes), once [input_size] is the flattened frame size. *)
Lemma forward_logits_shape (self : VideoLSTMTransformerModel)
    (b t c h w : nat) :
  b * t <> 0 -> input_size self = c * h * w ->
  forward self [b; t; c; h; w] = Ok [b; num_classes self].
Proof. intros Hbt Hin. rewrite forward_spec, Hin, Nat.eqb_refl; done. Qed.

(** ** The order of class names *)

#[global] Instance str_le_total : Total str_le.
Proof.
  intros a. unfold str_le.
  induction a as [|x a IH]; intros [|y b]; cbn [str_leb]; auto.
  destruct (Nat.ltb_spec (nat_of_ascii x) (nat_of_ascii y)); [auto|].
  destruct (Nat.ltb_spec (nat_of_ascii y) (nat_of_ascii x)); [auto|].
  apply IH.
Qed.

#[global] Instance str_le_antisymm : AntiSymm (=) str_le.
Proof.
  intros a. unfold str_le.
  induction a as [|x a IH]; intros [|y b]; cbn [str_leb]; try done.
  destruct (Nat.ltb_spec (nat_of_ascii x) (nat_of_ascii y)) as [Hxy|Hxy];
    destruct (Nat.ltb_spec (nat_of_ascii y) (nat_of_ascii x)) as [Hyx|Hyx];
    try done; try lia.
  intros Hab Hba.
  assert (x = y) as ->.
  { rewrite <- (ascii_nat_embedding x), <- (ascii_nat_embedding y).
    f_equal. lia. }
  f_equal. by apply IH.
Qed.

#[global] Instance str_le_trans : Transitive str_le.
Proof.
  intros a. unfold str_le.
  induction a as [|x a IH]; intros [|y b] [|z c]; cbn [str_leb]; try done.
  destruct (Nat.ltb_spec (nat_of_ascii x) (nat_of_ascii y)) as [Hxy|Hxy];
    destruct (Nat.ltb_spec (nat_of_ascii y) (nat_of_ascii z)) as [Hyz|Hyz];
    destruct (Nat.ltb_spec (nat_of_ascii x) (nat_of_ascii z)) as [Hxz|Hxz];
    try done; try lia.
  - destruct (Nat.ltb_spec (nat_of_ascii z) (nat_of_ascii y)); [done|lia].
  - destruct (Nat.ltb_spec (nat_of_ascii y) (nat_of_ascii x)); [done|lia].
  - destruct (Nat.ltb_spec (nat_of_ascii y) (nat_of_ascii x)); [done|].
    destruct (Nat.ltb_spec (nat_of_ascii z) (nat_of_ascii y)); [done|].
    destruct (Nat.ltb_spec (nat_of_ascii z) (nat_of_ascii x)); [lia|].
    apply IH.
Qed.

(** ** Labels *)

Lemma dict_set_fresh {K V} `{EqDecision K} (d : list (K * V)) (k : K) (v : V) :
  k ∉ d.*1 -> dict_set d k v = d ++ [(k, v)].
Proof.
  induction d as [|[k' v'] d IH]; intros Hk; [done|].
  cbn [dict_set]. cbn in Hk. apply not_elem_of_cons in Hk as [Hne Hk].
  rewrite decide_False by done. cbn. f_equal. by apply IH.
Qed.

Lemma labels_from_keys (k : nat) (names : list pystr) :
  (labels_from k names).*1 = names.
Proof.
  revert k. induction names as [|n names IH]; intros k; [done|].
  cbn. f_equal. apply IH.
Qed.

Lemma foldl_labels_from (names : list pystr) (k : nat)
    (d : list (pystr * nat)) :
  NoDup names -> (forall n, n ∈ names -> n ∉ d.*1) ->
  foldl (fun d '(idx, class_name) => dict_set d class_name idx) d
        (imap (fun idx x => (k + idx, x)) names)
  = d ++ labels_from k names.
Proof.
  revert k d. induction names as [|n names IH]; intros k d Hnd Hfresh.
  - cbn. by rewrite app_nil_r.
  - apply NoDup_cons in Hnd as [Hn Hnd].
    cbn [imap foldl]. rewrite Nat.add_0_r.
    rewrite dict_set_fresh by (apply Hfresh; left).
    rewrite (imap_ext _ (fun idx x => (S k + idx, x)))
      by (intros; cbn; f_equal; lia).
    rewrite IH; [|done|].
    + cbn [labels_from]. by rewrite <- app_assoc.
    + intros m Hm. rewrite fmap_app. cbn.
      rewrite elem_of_app, list_elem_of_singleton.
      intros [Hin| ->]; [|done].
      by apply (Hfresh m); [right|].
Qed.

(** Distinct names get their position in the list, in the order of the
    list. *)
Lemma label_dict_of_labels_from (names : list pystr) :
  NoDup names -> label_dict_of names = labels_from 0 names.
Proof.
  intros Hnd. unfold label_dict_of, enumerate.
  exact (foldl_labels_from names 0 [] Hnd (fun n _ => not_elem_of_nil n)).
Qed.

Lemma dict_get_labels_from (names : list pystr) (k i : nat) (name : pystr) :
  NoDup names -> names !! i = Some name ->
  dict_get (labels_from k names) name = Some (k + i).
Proof.
  revert k i. induction names as [|n names IH]; intros k i Hnd Hi; [done|].
  apply NoDup_cons in Hnd as [Hn Hnd]. cbn [labels_from dict_get].
  destruct i as [|i].
  - cbn in Hi. injection Hi as ->. rewrite decide_True by done.
    f_equal. lia.
  - cbn in Hi. rewrite decide_False.
    + rewrite (IH (S k) i) by done. f_equal. lia.
    + intros ->. apply Hn. by eapply list_elem_of_lookup_2.
Qed.

Lemma class_names_sorted (isdir : pystr -> bool) (video_folder : pystr)
    (entries : list pystr) :
  Sorted str_le (class_names_of isdir video_folder entries) /\
  class_names_of isdir video_folder entries ≡ₚ
    filter (fun folder => isdir (path_join video_folder folder) = true) entries.
Proof.
  unfold class_names_of. split.
  - apply Sorted_merge_sort. apply _.
  - apply merge_sort_Permutation.
Qed.

(** C4. The labels are a function of the set of class folders.  Two
    enumerations of the same directory entries, in whatever order, give the
    same sorted list of class names and the same dictionary; the class names
    are sorted lexicographically and, the entries of a directory being
    distinct, the dictionary lists them in that order and maps each to its
    position. *)
Theorem label_assignment_order_independent (isdir : pystr -> bool)
    (video_folder : pystr) (entries1 entries2 : list pystr) :
  entries1 ≡ₚ entries2 ->
  NoDup entries1 ->
  let names1 := class_names_of isdir video_folder entries1 in
  let names2 := class_names_of isdir video_folder entries2 in
  names1 = names2 /\
  label_dict_of names1 = label_dict_of names2 /\
  Sorted str_le names1 /\
  (forall name, name ∈ names1 <->
     name ∈ entries1 /\ isdir (path_join video_folder name) = true) /\
  label_dict_of names1 = labels_from 0 names1 /\
  forall i name, names1 !! i = Some name ->
    dict_get (label_dict_of names1) name = Some i.
Proof.
  intros Hperm Hnd names1 names2.
  destruct (class_names_sorted isdir video_folder entries1) as [Hs1 Hp1].
  destruct (class_names_sorted isdir video_folder entries2) as [Hs2 Hp2].
  fold names1 in Hs1, Hp1. fold names2 in Hs2, Hp2.
  assert (names1 = names2) as Heq.
  { apply (Sorted_unique str_le); [done|done|].
    rewrite Hp1, Hp2. by rewrite Hperm. }
  assert (NoDup names1) as Hnd1.
  { rewrite Hp1. by apply NoDup_filter. }
  split; [done|]. split; [by rewrite Heq|]. split; [done|]. split.
  - intros name. rewrite Hp1, list_elem_of_filter. tauto.
  - split; [by apply label_dict_of_labels_from|].
    intros i name Hi. rewrite label_dict_of_labels_from by done.
    by rewrite (dict_get_labels_from names1 0 i name).
Qed.

Lemma label_assignment_order_independent_witness :
  [str "b"; str "a"; str "f.txt"] ≡ₚ [str "a"; str "f.txt"; str "b"] /\
  NoDup [str "b"; str "a"; str "f.txt"] /\
  class_names_of sample_isdir (str "root") [str "b"; str "a"; str "f.txt"]
    = [str "a"; str "b"] /\
  label_dict_of
    (class_names_of sample_isdir (str "root") [str "b"; str "a"; str "f.txt"])
  = label_dict_of
      (class_names_of sample_isdir (str "root")
         [str "a"; str "f.txt"; str "b"]) /\
  dict_get
    (label_dict_of
       (class_names_of sample_isdir (str "root")
          [str "b"; str "a"; str "f.txt"])) (str "b") = Some 1.
Proof.
  assert (H1 : [str "b"; str "a"; str "f.txt"]
               ≡ₚ [str "a"; str "f.txt"; str "b"]).
  { change [str "a"; str "f.txt"; str "b"]
      with ([str "a"; str "f.txt"] ++ [str "b"]).
    apply Permutation_cons_append. }
  assert (H2 : NoDup [str "b"; str "a"; str "f.txt"])
    by (apply (bool_decide_unpack _); vm_compute; exact I).
  split; [exact H1|]. split; [exact H2|]. split; [vm_compute; reflexivity|].
  destruct (label_assignment_order_independent sample_isdir (str "root")
              _ _ H1 H2) as (_ & Hdict & _ & _ & _ & Hget).
  split; [exact Hdict|]. apply (Hget 1). vm_compute. reflexivity.
Defined.

(** ** Suffixes and joined paths *)

Lemma endswith_app_sep (a b suffix : pystr) :
  sep ∉ suffix -> endswith (a ++ sep :: b) suffix = endswith b suffix.
Proof.
  intros Hsep. unfold endswith. apply bool_decide_ext.
  rewrite length_app. cbn [length].
  destruct (decide (length suffix <= length b)) as [Hle|Hgt].
  - rewrite drop_app_ge by lia.
    replace (length a + S (length b) - length suffix - length a)
      with (S (length b - length suffix)) by lia.
    done.
  - replace (length b - length suffix) with 0 by lia. rewrite drop_0.
    rewrite drop_app_le by lia. split.
    + intros Heq. exfalso. apply Hsep. rewrite <- Heq.
      apply elem_of_app. right. left.
    + intros ->. lia.
Qed.

Lemma sep_not_in_avi : sep ∉ str ".avi".
Proof.
  intros H. repeat (apply elem_of_cons in H as [H|H]; [discriminate H|]).
  by apply elem_of_nil in H.
Qed.

Lemma is_avi_path_join (a b : pystr) : is_avi (path_join a b) = is_avi b.
Proof.
  unfold is_avi, path_join.
  destruct b as [|c b].
  - destruct (last a) as [d|] eqn:Hlast; [|done].
    case_bool_decide as Hd.
    + subst d. apply last_Some in Hlast as [a' ->].
      by rewrite (endswith_app_sep a' []) by apply sep_not_in_avi.
    + by rewrite (endswith_app_sep a []) by apply sep_not_in_avi.
  - case_bool_decide as Hc; [done|].
    destruct (last a) as [d|] eqn:Hlast; [|done].
    case_bool_decide as Hd.
    + subst d. apply last_Some in Hlast as [a' ->].
      rewrite <- app_assoc. cbn [app].
      by rewrite endswith_app_sep by apply sep_not_in_avi.
    + by rewrite endswith_app_sep by apply sep_not_in_avi.
Qed.

(** ** The split *)

Section PrepareData_facts.

Variable listdir : pystr -> result (list pystr).
Variable isdir : pystr -> bool.
Context {Rng : Type}.
Variable rand : Rng -> f64 * Rng.

Lemma draws_length (n : nat) (g : Rng) : length (draws rand n g).1 = n.
Proof.
  revert g. induction n as [|n IH]; intros g; [done|].
  cbn [draws]. destruct (rand g) as [u g1]. specialize (IH g1).
  destruct (draws rand n g1) as [us g2]. cbn in *. by rewrite IH.
Qed.

Lemma draws_add (n1 n2 : nat) (g : Rng) :
  draws rand (n1 + n2) g =
    ((draws rand n1 g).1 ++ (draws rand n2 (draws rand n1 g).2).1,
     (draws rand n2 (draws rand n1 g).2).2).
Proof.
  revert g. induction n1 as [|n1 IH]; intros g.
  - cbn. by destruct (draws rand n2 g).
  - cbn [Nat.add draws]. destruct (rand g) as [u g1]. rewrite IH.
    destruct (draws rand n1 g1) as [us1 g2]. cbn.
    by destruct (draws rand n2 g2).
Qed.

Lemma routed_cons (b : bool) (v : pystr * nat) (u : f64)
    (videos : list (pystr * nat)) (us : list f64) :
  routed b (v :: videos) (u :: us) =
    if decide (to_train u = b) then v :: routed b videos us
    else routed b videos us.
Proof.
  unfold routed. cbn [zip zip_with]. rewrite filter_cons. cbn [snd].
  by destruct (decide (to_train u = b)).
Qed.

Lemma routed_app (b : bool) (v1 v2 : list (pystr * nat)) (u1 u2 : list f64) :
  length v1 = length u1 ->
  routed b (v1 ++ v2) (u1 ++ u2) = routed b v1 u1 ++ routed b v2 u2.
Proof.
  intros Hlen. unfold routed.
  rewrite zip_with_app by done. by rewrite filter_app, fmap_app.
Qed.

Lemma split_of_app (v1 v2 : list (pystr * nat)) (u1 u2 : list f64) :
  length v1 = length u1 ->
  split_of (v1 ++ v2) (u1 ++ u2) = split_app (split_of v1 u1) (split_of v2 u2).
Proof.
  intros Hlen. unfold split_of, split_app. cbn.
  by rewrite !routed_app, !fmap_app by done.
Qed.

Lemma split_app_assoc (a b c : Split) :
  split_app (split_app a b) c = split_app a (split_app b c).
Proof. unfold split_app. cbn. by rewrite <- !app_assoc. Qed.

Lemma split_app_nil_r (a : Split) : split_app a (split_of [] []) = a.
Proof. destruct a. unfold split_app. cbn. by rewrite !app_nil_r. Qed.

Lemma split_app_nil_l (a : Split) : split_app (mk_Split [] [] [] []) a = a.
Proof. by destruct a. Qed.

(** The inner loop routes the [.avi] files of the folder, one draw each. *)
Lemma route_videos_spec (class_path : pystr) (label : nat)
    (names : list pystr) (acc : Split) (g : Rng) :
  let videos := class_videos class_path label names in
  route_videos rand class_path label names acc g =
    (split_app acc (split_of videos (draws rand (length videos) g).1),
     (draws rand (length videos) g).2).
Proof.
  revert acc g. induction names as [|n names IH]; intros acc g.
  - cbn. by rewrite split_app_nil_r.
  - cbn [route_videos]. unfold class_videos. rewrite filter_cons.
    fold (is_avi n).
    destruct (is_avi n) eqn:Havi.
    + rewrite decide_True by done. cbn [map length draws].
      destruct (rand g) as [u g1].
      fold (class_videos class_path label names).
      specialize (IH (if f64_ltb u f64_0_8
        then mk_Split (train_paths acc ++ [path_join class_path n])
               (test_paths acc) (train_labels acc ++ [label])
               (test_labels acc)
        else mk_Split (train_paths acc)
               (test_paths acc ++ [path_join class_path n])
               (train_labels acc) (test_labels acc ++ [label])) g1).
      cbn zeta in IH.
      destruct (draws rand (length (class_videos class_path label names)) g1)
        as [us g2] eqn:Hd.
      cbn [fst snd] in *.
      transitivity (route_videos rand class_path label names
        (if f64_ltb u f64_0_8
         then mk_Split (train_paths acc ++ [path_join class_path n])
                (test_paths acc) (train_labels acc ++ [label])
                (test_labels acc)
         else mk_Split (train_paths acc)
                (test_paths acc ++ [path_join class_path n])
                (train_labels acc) (test_labels acc ++ [label])) g1).
      { by destruct (f64_ltb u f64_0_8). }
      rewrite IH. f_equal.
      unfold split_of, split_app. rewrite !routed_cons.
      unfold to_train.
      destruct (f64_ltb u f64_0_8); cbn;
        by rewrite <- ?app_assoc.
    + rewrite decide_False by done. apply IH.
Qed.

(** The outer loop: all the videos of all the classes, in order. *)
Lemma route_classes_spec (video_folder : pystr)
    (items : list (pystr * nat)) (acc : Split) (g : Rng) :
  route_classes listdir rand video_folder items acc g =
    (videos ← all_videos listdir video_folder items;
     Ok (split_app acc (split_of videos (draws rand (length videos) g).1),
         (draws rand (length videos) g).2)).
Proof.
  revert acc g. induction items as [|[video_class label] items IH];
    intros acc g.
  - cbn. by rewrite split_app_nil_r.
  - cbn [route_classes all_videos].
    destruct (listdir (path_join video_folder video_class)) as [names|e];
      [|done].
    cbn [mbind result_bind].
    rewrite route_videos_spec. cbn zeta. rewrite IH.
    destruct (all_videos listdir video_folder items) as [videos|e]; [|done].
    cbn [mbind result_bind]. rewrite length_app, draws_add. cbn [fst snd].
    rewrite split_of_app by (by rewrite draws_length).
    by rewrite split_app_assoc.
Qed.

(** [prepare_data], as a function of the directory tree and the draws. *)
Lemma prepare_data_spec (video_folder : pystr) (g : Rng) :
  prepare_data listdir isdir rand video_folder g =
    (entries ← listdir video_folder;
     videos ← all_videos listdir video_folder
                (label_dict_of (class_names_of isdir video_folder entries));
     Ok (split_of videos (draws rand (length videos) g).1,
         (draws rand (length videos) g).2)).
Proof.
  unfold prepare_data.
  destruct (listdir video_folder) as [entries|e]; [|done].
  cbn [mbind result_bind]. rewrite route_classes_spec.
  destruct (all_videos _ _ _) as [videos|e]; [|done].
  cbn [mbind result_bind]. by rewrite split_app_nil_l.
Qed.

Lemma all_videos_avi (video_folder : pystr) (items : list (pystr * nat))
    (videos : list (pystr * nat)) :
  all_videos listdir video_folder items = Ok videos ->
  forall v, v ∈ videos -> is_avi v.1 = true.
Proof.
  revert videos. induction items as [|[video_class label] items IH];
    intros videos Hall v Hv.
  - injection Hall as <-. by apply elem_of_nil in Hv.
  - cbn [all_videos] in Hall.
    destruct (listdir (path_join video_folder video_class)) as [names|e];
      [|done].
    cbn [mbind result_bind] in Hall.
    destruct (all_videos listdir video_folder items) as [rest|e]; [|done].
    cbn [mbind result_bind] in Hall. injection Hall as <-.
    apply elem_of_app in Hv as [Hv|Hv]; [|by apply (IH rest)].
    unfold class_videos in Hv.
    apply list_elem_of_fmap in Hv as (n & -> & Hn).
    apply list_elem_of_filter in Hn as [Hn _]. cbn [fst].
    by rewrite is_avi_path_join.
Qed.

End PrepareData_facts.

Lemma routed_perm (videos : list (pystr * nat)) (us : list f64) :
  length us = length videos ->
  routed true videos us ++ routed false videos us ≡ₚ videos.
Proof.
  intros Hlen. unfold routed. rewrite <- fmap_app.
  rewrite <- (fst_zip videos us) at 3 by lia.
  apply fmap_Permutation.
  set (z := zip videos us).
  transitivity (filter (fun vu : pystr * nat * f64 => to_train vu.2 = true) z ++
                filter (fun vu : pystr * nat * f64 => ~ to_train vu.2 = true) z);
    [|apply filter_app_complement].
  apply Permutation_app; [done|].
  assert (filter (fun vu : pystr * nat * f64 => to_train vu.2 = false) z =
          filter (fun vu : pystr * nat * f64 => ~ to_train vu.2 = true) z) as ->;
    [|done].
  apply list_filter_iff. intros vu. destruct (to_train vu.2); naive_solver.
Qed.

Lemma routed_lookup (videos : list (pystr * nat)) (us : list f64)
    (i : nat) (v : pystr * nat) (u : f64) :
  videos !! i = Some v -> us !! i = Some u ->
  v ∈ routed (to_train u) videos us.
Proof.
  intros Hv Hu. unfold routed.
  apply list_elem_of_fmap. exists (v, u). split; [done|].
  apply list_elem_of_filter. split; [done|].
  apply list_elem_of_lookup. exists i.
  by rewrite lookup_zip_with, Hv; cbn; rewrite Hu.
Qed.

(** C5. When the directories can be listed, [prepare_data] returns; the
    train paths with their labels are exactly the enumerated videos whose
    draw is below 0.8, the test paths with their labels exactly the others,
    both in enumeration order; the path and label lists are parallel; the
    two sets together are a rearrangement of the enumerated videos, so each
    enumerated file is appended to exactly one of them; and when the
    enumerated paths are distinct no path is in both. *)
Theorem prepare_data_routes_each_video
    (listdir : pystr -> result (list pystr)) (isdir : pystr -> bool)
    {Rng : Type} (rand : Rng -> f64 * Rng)
    (video_folder : pystr) (g : Rng)
    (entries : list pystr) (videos : list (pystr * nat)) :
  listdir video_folder = Ok entries ->
  all_videos listdir video_folder
    (label_dict_of (class_names_of isdir video_folder entries)) = Ok videos ->
  let us := (draws rand (length videos) g).1 in
  exists s,
    prepare_data listdir isdir rand video_folder g
      = Ok (s, (draws rand (length videos) g).2) /\
    zip (train_paths s) (train_labels s) = routed true videos us /\
    zip (test_paths s) (test_labels s) = routed false videos us /\
    length (train_paths s) = length (train_labels s) /\
    length (test_paths s) = length (test_labels s) /\
    zip (train_paths s) (train_labels s) ++ zip (test_paths s) (test_labels s)
      ≡ₚ videos /\
    (forall i v, videos !! i = Some v ->
       exists u, us !! i = Some u /\
         if f64_ltb u f64_0_8
         then v ∈ zip (train_paths s) (train_labels s)
         else v ∈ zip (test_paths s) (test_labels s)) /\
    (NoDup videos.*1 ->
       forall p, p ∈ train_paths s -> p ∉ test_paths s).
Proof.
  intros Hdir Hall us.
  exists (split_of videos us). split.
  { rewrite prepare_data_spec, Hdir. cbn [mbind result_bind].
    by rewrite Hall. }
  assert (length us = length videos) as Hlen by apply draws_length.
  unfold split_of. cbn [train_paths test_paths train_labels test_labels].
  rewrite !zip_fst_snd, !length_fmap.
  do 4 (split; [done|]).
  split; [by apply routed_perm|]. split.
  - intros i v Hv.
    destruct (lookup_lt_is_Some_2 us i) as [u Hu].
    { rewrite Hlen. by eapply lookup_lt_Some. }
    exists u. split; [done|].
    pose proof (routed_lookup videos us i v u Hv Hu) as Hin.
    unfold to_train in Hin. by destruct (f64_ltb u f64_0_8).
  - intros Hnd.
    assert (NoDup ((routed true videos us).*1 ++ (routed false videos us).*1))
      as Hnd'.
    { rewrite <- fmap_app. by rewrite (routed_perm videos us Hlen). }
    apply NoDup_app in Hnd' as (_ & Hdisj & _). exact Hdisj.
Qed.

Lemma prepare_data_routes_each_video_witness :
  sample_listdir (str "root") = Ok [str "b"; str "a"; str "f.txt"] /\
  all_videos sample_listdir (str "root")
    (label_dict_of
       (class_names_of sample_isdir (str "root")
          [str "b"; str "a"; str "f.txt"]))
    = Ok [(str "root/a/x.avi", 0); (str "root/b/y.avi", 1);
          (str "root/b/z.avi", 1)] /\
  NoDup [str "root/a/x.avi"; str "root/b/y.avi"; str "root/b/z.avi"] /\
  prepare_data sample_listdir sample_isdir sample_rand (str "root") 0
    = Ok (mk_Split [str "root/a/x.avi"; str "root/b/z.avi"]
                   [str "root/b/y.avi"] [0; 1] [1], 3) /\
  forall p, p ∈ [str "root/a/x.avi"; str "root/b/z.avi"] ->
            p ∉ [str "root/b/y.avi"].
Proof.
  assert (H1 : sample_listdir (str "root")
               = Ok [str "b"; str "a"; str "f.txt"]) by reflexivity.
  assert (H2 : all_videos sample_listdir (str "root")
    (label_dict_of
       (class_names_of sample_isdir (str "root")
          [str "b"; str "a"; str "f.txt"]))
    = Ok [(str "root/a/x.avi", 0); (str "root/b/y.avi", 1);
          (str "root/b/z.avi", 1)]) by (vm_compute; reflexivity).
  assert (H3 : NoDup [str "root/a/x.avi"; str "root/b/y.avi";
                      str "root/b/z.avi"])
    by (apply (bool_decide_unpack _); vm_compute; exact I).
  split; [exact H1|]. split; [exact H2|]. split; [exact H3|].
  destruct (prepare_data_routes_each_video sample_listdir sample_isdir
              sample_rand (str "root") 0 _ _ H1 H2)
    as (s & Hrun & _ & _ & _ & _ & _ & _ & Hdisj).
  assert (Hs : prepare_data sample_listdir sample_isdir sample_rand
                 (str "root") 0
               = Ok (mk_Split [str "root/a/x.avi"; str "root/b/z.avi"]
                       [str "root/b/y.avi"] [0; 1] [1], 3))
    by (vm_compute; reflexivity).
  rewrite Hs in Hrun. injection Hrun as <-.
  split; [reflexivity|]. exact (Hdisj H3).
Defined.

(** C10. Whatever [prepare_data] returns, no path made of a folder and a
    file name that does not end with [.avi] is among the train paths or the
    test paths; every returned path ends with [.avi]. *)
Theorem prepare_data_only_avi
    (listdir : pystr -> result (list pystr)) (isdir : pystr -> bool)
    {Rng : Type} (rand : Rng -> f64 * Rng)
    (video_folder : pystr) (g g' : Rng) (s : Split) :
  prepare_data listdir isdir rand video_folder g = Ok (s, g') ->
  (forall p, p ∈ train_paths s ++ test_paths s ->
     endswith p (str ".avi") = true) /\
  forall class_path video_name,
    endswith video_name (str ".avi") = false ->
    (path_join class_path video_name ∉ train_paths s) /\
    (path_join class_path video_name ∉ test_paths s).
Proof.
  intros Hrun. rewrite prepare_data_spec in Hrun.
  destruct (listdir video_folder) as [entries|e]; [|done].
  cbn [mbind result_bind] in Hrun.
  destruct (all_videos _ _ _) as [videos|e] eqn:Hall; [|done].
  cbn [mbind result_bind] in Hrun. injection Hrun as <- _.
  assert (Hsub : forall b p,
    p ∈ (routed b videos (draws rand (length videos) g).1).*1 ->
    is_avi p = true).
  { intros b p Hp.
    apply list_elem_of_fmap in Hp as (v & -> & Hv).
    unfold routed in Hv.
    apply list_elem_of_fmap in Hv as ([v' u] & -> & Hvu).
    apply list_elem_of_filter in Hvu as [_ Hvu].
    apply elem_of_zip_l in Hvu.
    by apply (all_videos_avi listdir video_folder _ videos Hall). }
  assert (Hall_avi : forall p,
    p ∈ train_paths (split_of videos (draws rand (length videos) g).1) ++
        test_paths (split_of videos (draws rand (length videos) g).1) ->
    endswith p (str ".avi") = true).
  { intros p Hp. apply elem_of_app in Hp as [Hp|Hp].
    - exact (Hsub true p Hp).
    - exact (Hsub false p Hp). }
  split; [exact Hall_avi|].
  intros class_path video_name Hno.
  assert (is_avi (path_join class_path video_name) = false) as Hj
    by (by rewrite is_avi_path_join).
  unfold is_avi in Hj.
  split; intros Hin.
  - rewrite (Hall_avi (path_join class_path video_name)) in Hj; [done|].
    apply elem_of_app. by left.
  - rewrite (Hall_avi (path_join class_path video_name)) in Hj; [done|].
    apply elem_of_app. by right.
Qed.

Lemma prepare_data_only_avi_witness :
  prepare_data sample_listdir sample_isdir sample_rand (str "root") 0
    = Ok (mk_Split [str "root/a/x.avi"; str "root/b/z.avi"]
                   [str "root/b/y.avi"] [0; 1] [1], 3) /\
  endswith (str "notes.txt") (str ".avi") = false /\
  (str "root/a/notes.txt" ∉ [str "root/a/x.avi"; str "root/b/z.avi"]) /\
  (str "root/a/notes.txt" ∉ [str "root/b/y.avi"]).
Proof.
  assert (Hs : prepare_data sample_listdir sample_isdir sample_rand
                 (str "root") 0
               = Ok (mk_Split [str "root/a/x.avi"; str "root/b/z.avi"]
                       [str "root/b/y.avi"] [0; 1] [1], 3))
    by (vm_compute; reflexivity).
  split; [exact Hs|]. split; [reflexivity|].
  exact (proj2 (prepare_data_only_avi sample_listdir sample_isdir sample_rand
                  (str "root") 0 3 _ Hs)
               (str "root/a") (str "notes.txt") eq_refl).
Defined.

(** ** Counting and percentages *)

Lemma hits_le (predicted labels : list nat) :
  length (filter (fun p : nat * nat => p.1 = p.2) (zip predicted labels))
  <= length labels.
Proof.
  etransitivity; [apply length_filter|].
  rewrite length_zip_with. lia.
Qed.

Lemma count_eq_same_length (predicted labels : list nat) :
  length predicted = length labels ->
  count_eq predicted labels =
    Ok (length (filter (fun p : nat * nat => p.1 = p.2) (zip predicted labels))).
Proof. intros Hlen. unfold count_eq. by rewrite Hlen, Nat.eqb_refl. Qed.

(** *** Rounding a quotient to binary64 *)

Section Rounding.
Local Open Scope Z_scope.

Lemma shr_1_nonneg (m : Z) (r s : bool) :
  0 <= m ->
  shr_1 (Build_shr_record m r s)
  = Build_shr_record (m / 2) (Z.odd m) (r || s).
Proof.
  intros Hm. rewrite <- Z.div2_div.
  destruct m as [|[p|p|]|p]; try reflexivity. lia.
Qed.

Lemma represents_shr_1 (A B : Z) (mrs : shr_record) :
  represents A B mrs -> represents A (2 * B) (shr_1 mrs).
Proof.
  destruct mrs as [m r s]. intros (HA & HB & Hm & Hr & Hs).
  cbn [shr_m shr_r shr_s] in *.
  pose proof (Z.div_pos A B HA HB) as Hq.
  rewrite shr_1_nonneg by lia. subst m r s.
  pose proof (Z.div_mod A B ltac:(lia)) as Hdm.
  pose proof (Z.mod_pos_bound A B HB) as Hrho.
  pose proof (Z.div_mod (A / B) 2 ltac:(lia)) as Hq2.
  pose proof (Z.mod_pos_bound (A / B) 2 ltac:(lia)) as Hbit.
  set (q := A / B) in *. set (rho := A mod B) in *.
  assert (Hdiv : A / (2 * B) = q / 2).
  { symmetry. apply (Z.div_unique A (2 * B) (q / 2) (rho + B * (q mod 2))); nia. }
  assert (Hmod : A mod (2 * B) = rho + B * (q mod 2)).
  { symmetry. apply (Z.mod_unique A (2 * B) (q / 2) (rho + B * (q mod 2))); nia. }
  unfold represents. cbn [shr_m shr_r shr_s].
  rewrite Hdiv, Hmod. rewrite (Zmod_odd q) in *.
  split; [done|]. split; [lia|]. split; [done|].
  destruct (Z.odd q); split.
  - symmetry. apply Z.leb_le. lia.
  - destruct (Z.leb_spec B (2 * rho)), (Z.eqb_spec rho 0),
      (Z.eqb_spec (2 * rho) B), (Z.eqb_spec (rho + B * 1) 0),
      (Z.eqb_spec (2 * (rho + B * 1)) (2 * B)); cbn; try reflexivity; lia.
  - symmetry. apply Z.leb_gt. lia.
  - destruct (Z.leb_spec B (2 * rho)), (Z.eqb_spec rho 0),
      (Z.eqb_spec (2 * rho) B), (Z.eqb_spec (rho + B * 0) 0),
      (Z.eqb_spec (2 * (rho + B * 0)) (2 * B)); cbn; try reflexivity; lia.
Qed.

Lemma represents_eq (A B B' : Z) (mrs : shr_record) :
  B = B' -> represents A B mrs -> represents A B' mrs.
Proof. by intros ->. Qed.

Lemma represents_iter_pos (p : positive) :
  forall (A B : Z) (mrs : shr_record),
    represents A B mrs ->
    represents A (2 ^ Zpos p * B) (SpecFloat.iter_pos shr_1 p mrs).
Proof.
  induction p as [p IH|p IH|]; intros A B mrs H; cbn [SpecFloat.iter_pos].
  - apply represents_shr_1, IH, IH in H.
    eapply represents_eq; [|exact H].
    replace (Z.pos p~1) with (Z.pos p + Z.pos p + 1) by lia.
    rewrite !Z.pow_add_r by lia. change (2 ^ 1) with 2. ring.
  - apply IH, IH in H.
    eapply represents_eq; [|exact H].
    replace (Z.pos p~0) with (Z.pos p + Z.pos p) by lia.
    rewrite !Z.pow_add_r by lia. ring.
  - apply represents_shr_1 in H. exact H.
Qed.

(** [shr] divides by a power of two and moves the exponent with it. *)
Lemma represents_shr (A B : Z) (mrs : shr_record) (e n : Z) :
  represents A B mrs ->
  represents A (2 ^ Z.max n 0 * B) (shr mrs e n).1 /\
  (shr mrs e n).2 = e + Z.max n 0.
Proof.
  intros H. destruct n as [|p|p]; cbn [shr fst snd].
  - split; [|lia]. eapply represents_eq; [|exact H].
    rewrite Z.max_r, Z.pow_0_r by lia. lia.
  - split; [|lia]. rewrite Z.max_l by lia. by apply represents_iter_pos.
  - split; [|lia]. eapply represents_eq; [|exact H].
    rewrite Z.max_r, Z.pow_0_r by lia. lia.
Qed.

(** The quotient and the location that the division computes. *)
Lemma represents_div_eucl (A b : Z) :
  0 <= A -> 0 < b ->
  represents A b
    (shr_record_of_loc (Z.div_eucl A b).1 (new_location b (Z.div_eucl A b).2)).
Proof.
  intros HA Hb.
  change (Z.div_eucl A b).1 with (A / b).
  change (Z.div_eucl A b).2 with (A mod b).
  pose proof (Z.mod_pos_bound A b Hb) as Hrho.
  set (rho := A mod b) in *.
  assert (Hshape : forall l,
    (l = loc_Exact -> rho = 0) ->
    (l = loc_Inexact Lt -> rho <> 0 /\ 2 * rho < b) ->
    (l = loc_Inexact Eq -> 2 * rho = b) ->
    (l = loc_Inexact Gt -> 2 * rho > b) ->
    represents A b (shr_record_of_loc (A / b) l)).
  { intros l H1 H2 H3 H4. unfold represents. fold rho.
    split; [done|]. split; [done|].
    destruct l as [|[]]; cbn [shr_record_of_loc shr_m shr_r shr_s];
      (split; [done|]).
    - rewrite H1 by done. destruct (Z.leb_spec b (2 * 0)); [lia|].
      by rewrite Z.eqb_refl.
    - specialize (H3 eq_refl).
      destruct (Z.leb_spec b (2 * rho)), (Z.eqb_spec rho 0),
        (Z.eqb_spec (2 * rho) b); cbn; try done; lia.
    - destruct (H2 eq_refl).
      destruct (Z.leb_spec b (2 * rho)), (Z.eqb_spec rho 0),
        (Z.eqb_spec (2 * rho) b); cbn; try done; lia.
    - specialize (H4 eq_refl).
      destruct (Z.leb_spec b (2 * rho)), (Z.eqb_spec rho 0),
        (Z.eqb_spec (2 * rho) b); cbn; try done; lia. }
  apply Hshape; unfold new_location, new_location_even, new_location_odd;
    destruct (Z.even b) eqn:Heven; destruct (Z.eqb_spec rho 0);
    try done; try lia.
  all: try (destruct (Z.compare_spec (2 * rho) b); intros [=]; lia).
  all: assert (Hodd : Z.odd b = true) by (by rewrite <- Z.negb_even, Heven).
  all: apply Z.odd_spec in Hodd as [k Hk].
  all: destruct (Z.compare_spec (2 * rho + 1) b); intros [=]; lia.
Qed.

(** Rounding to nearest moves to one of the two neighbours and stays where
    it is on an integer. *)
Lemma round_nearest_even_represents (A B : Z) (mrs : shr_record) :
  represents A B mrs ->
  let m := round_nearest_even (shr_m mrs) (loc_of_shr_record mrs) in
  A / B <= m <= A / B + 1 /\ (A mod B = 0 -> m = A / B).
Proof.
  destruct mrs as [m r s]. intros (HA & HB & Hm & Hr & Hs).
  cbn [shr_m shr_r shr_s] in *. cbn zeta. subst m.
  destruct r, s; cbn [loc_of_shr_record round_nearest_even].
  - split; [lia|]. intros H0. rewrite H0 in Hr.
    symmetry in Hr. apply Z.leb_le in Hr. lia.
  - split; [destruct (Z.even (A / B)); lia|]. intros H0. rewrite H0 in Hr.
    symmetry in Hr. apply Z.leb_le in Hr. lia.
  - split; [lia|done].
  - split; [lia|done].
Qed.

Lemma round_nearest_even_close (A B : Z) (mrs : shr_record) :
  represents A B mrs ->
  2 * Z.abs (round_nearest_even (shr_m mrs) (loc_of_shr_record mrs) * B - A)
  <= B.
Proof.
  destruct mrs as [m r s]. intros (HA & HB & Hm & Hr & Hs).
  cbn [shr_m shr_r shr_s] in *. subst m.
  pose proof (Z.div_mod A B ltac:(lia)) as Hdm.
  pose proof (Z.mod_pos_bound A B HB) as Hrho.
  set (q := A / B) in *. set (rho := A mod B) in *.
  destruct (Z.leb_spec B (2 * rho)), (Z.eqb_spec rho 0),
    (Z.eqb_spec (2 * rho) B); subst r s;
    cbn [loc_of_shr_record round_nearest_even negb orb];
    try destruct (Z.even q); nia.
Qed.

Lemma round_nearest_even_le (A B N : Z) (mrs : shr_record) :
  represents A B mrs -> A <= N * B ->
  0 <= round_nearest_even (shr_m mrs) (loc_of_shr_record mrs) <= N.
Proof.
  intros H HN. pose proof H as (HA & HB & _).
  destruct (round_nearest_even_represents A B mrs H) as [[Hlo Hhi] Hex].
  pose proof (Z.div_pos A B HA HB) as Hq.
  pose proof (Z.div_mod A B ltac:(lia)) as Hdm.
  pose proof (Z.mod_pos_bound A B HB) as Hrho.
  split; [lia|].
  destruct (Z.eq_dec (A mod B) 0) as [Hz|Hz].
  - rewrite Hex by done. nia.
  - assert (A / B < N) by nia. lia.
Qed.

Lemma Zdigits2_gt (m : Z) : 0 <= m -> m < 2 ^ Zdigits2 m.
Proof.
  intros Hm. destruct m as [|p|p]; [done| |lia]. cbn [Zdigits2].
  induction p as [p IH|p IH|]; cbn [digits2_pos]; [| |done].
  - rewrite Pos2Z.inj_succ, Z.pow_succ_r by lia. lia.
  - rewrite Pos2Z.inj_succ, Z.pow_succ_r by lia. lia.
Qed.

Lemma Zdigits2_low (m : Z) : 0 < m -> 2 ^ (Zdigits2 m - 1) <= m.
Proof.
  intros Hm. destruct m as [|p|p]; [lia| |lia]. cbn [Zdigits2].
  induction p as [p IH|p IH|]; cbn [digits2_pos]; [| |done].
  - rewrite Pos2Z.inj_succ.
    replace (Z.succ (Z.pos (digits2_pos p)) - 1)
      with (Z.succ (Z.pos (digits2_pos p) - 1)) by lia.
    rewrite Z.pow_succ_r by lia. lia.
  - rewrite Pos2Z.inj_succ.
    replace (Z.succ (Z.pos (digits2_pos p)) - 1)
      with (Z.succ (Z.pos (digits2_pos p) - 1)) by lia.
    rewrite Z.pow_succ_r by lia. lia.
Qed.

Lemma Zdigits2_le (m k : Z) :
  0 <= m < 2 ^ k -> 0 <= k -> Zdigits2 m <= k.
Proof.
  intros [Hm Hlt] Hk. destruct m as [|p|p]; [done| |lia].
  cbn [Zdigits2]. clear Hm. revert k Hlt Hk.
  induction p as [p IH|p IH|]; intros k Hlt Hk; cbn [digits2_pos].
  - assert (1 <= k).
    { destruct (Z.eq_dec k 0) as [->|]; [cbn in Hlt; lia|lia]. }
    replace k with (Z.succ (k - 1)) in Hlt by lia.
    rewrite Z.pow_succ_r in Hlt by lia.
    specialize (IH (k - 1) ltac:(lia) ltac:(lia)). lia.
  - assert (1 <= k).
    { destruct (Z.eq_dec k 0) as [->|]; [cbn in Hlt; lia|lia]. }
    replace k with (Z.succ (k - 1)) in Hlt by lia.
    rewrite Z.pow_succ_r in Hlt by lia.
    specialize (IH (k - 1) ltac:(lia) ltac:(lia)). lia.
  - destruct (Z.eq_dec k 0) as [->|]; [cbn in Hlt; lia|lia].
Qed.


Lemma shr_m_of_loc (m : Z) (l : location) : shr_m (shr_record_of_loc m l) = m.
Proof. by destruct l as [|[]]. Qed.

Lemma represents_exact (m : Z) :
  0 <= m -> represents m 1 (shr_record_of_loc m loc_Exact).
Proof.
  intros Hm. unfold represents. cbn [shr_record_of_loc shr_m shr_r shr_s].
  rewrite Z.div_1_r, Z.mod_1_r. done.
Qed.

Lemma Zdigits2_nonneg (m : Z) : 0 <= Zdigits2 m.
Proof. destruct m; cbn; lia. Qed.

(** The shift that brings a mantissa of [d] digits at exponent [e] to the
    format. *)
Lemma fexp_shift (d e k : Z) :
  0 <= k <= 53 -> e <= k - 53 -> 0 <= d <= k - e ->
  let n := Z.max (fexp 53 1024 (d + e) - e) 0 in
  0 <= n /\ e + n <= k - 53 /\ d <= 53 + n /\ -1074 <= e + n /\
  (-1074 <= e -> d <= 53 -> n = 0) /\
  (-1074 <= e -> d <= 54 -> n <= 1).
Proof. unfold fexp, emin. lia. Qed.

Lemma pow2_bound (x K k j : Z) :
  0 <= x <= K * 2 ^ j -> 0 <= j -> 0 <= k -> K < 2 ^ k -> x < 2 ^ (k + j).
Proof.
  intros Hx Hj Hk HK. rewrite Z.pow_add_r by lia.
  pose proof (Z.pow_pos_nonneg 2 j ltac:(lia) Hj). nia.
Qed.

Lemma div_pow_lt (m d n : Z) :
  0 <= m < 2 ^ d -> 0 <= n -> d <= 53 + n -> m / 2 ^ n < 2 ^ 53.
Proof.
  intros Hm Hn Hd.
  pose proof (Z.pow_pos_nonneg 2 n ltac:(lia) Hn) as HP.
  apply Z.div_lt_upper_bound; [done|].
  rewrite <- Z.pow_add_r by lia.
  eapply Z.lt_le_trans; [exact (proj2 Hm)|].
  apply Z.pow_le_mono_r; lia.
Qed.

Lemma pow2_split (x y z : Z) :
  0 <= x -> 0 <= y -> z = x + y -> 2 ^ z = 2 ^ x * 2 ^ y.
Proof. intros Hx Hy ->. by apply Z.pow_add_r. Qed.

(** Rounding to binary64 the quotient [A / B * 2 ^ ez], known to be at
    most an integer [K] below [2 ^ k]: the result [m * 2 ^ e] is at most
    [K] and within half a unit of the last place [2 ^ e] of the
    quotient. *)
Lemma binary_round_aux_spec (A B K k mz ez : Z) (lz : location) :
  represents A B (shr_record_of_loc mz lz) ->
  0 <= k <= 53 -> ez <= k - 53 -> 0 <= K < 2 ^ k ->
  A <= K * 2 ^ (- ez) * B ->
  exists m e,
    binary_round_aux 53 1024 false mz ez lz = float_of m e /\
    0 <= m /\ ez <= e <= k - 53 /\ m <= K * 2 ^ (- e) /\
    2 * Z.abs (m * (2 ^ (e - ez) * B) - A) <= 2 ^ (e - ez) * B.
Proof.
  intros H Hk Hez HK HA. pose proof H as (HA0 & HB & Hmz & _).
  rewrite shr_m_of_loc in Hmz.
  assert (Hmz_lo : 0 <= mz) by (subst mz; by apply Z.div_pos).
  assert (Hmz_hi : mz <= K * 2 ^ (- ez)).
  { subst mz. apply Z.div_le_upper_bound; [done|].
    clear -HA. lia. }
  pose proof (pow2_bound mz K k (- ez) (conj Hmz_lo Hmz_hi)
                ltac:(clear -Hk Hez; lia) (proj1 Hk) (proj2 HK)) as Hmz_lt.
  pose proof (Zdigits2_le mz (k + - ez) (conj Hmz_lo Hmz_lt)
                ltac:(clear -Hk Hez; lia)) as Hd.
  pose proof (Zdigits2_gt mz Hmz_lo) as Hdz.
  pose proof (Zdigits2_nonneg mz) as Hdz0.
  unfold binary_round_aux, shr_fexp.
  destruct (fexp_shift (Zdigits2 mz) ez k Hk Hez
              ltac:(clear -Hd Hdz0; lia))
    as (Hn1 & He1k & Hd53 & He1min & _ & _).
  set (n1 := Z.max (fexp 53 1024 (Zdigits2 mz + ez) - ez) 0) in *.
  destruct (represents_shr A B (shr_record_of_loc mz lz) ez
              (fexp 53 1024 (Zdigits2 mz + ez) - ez) H) as [H1 He1].
  fold n1 in H1, He1.
  destruct (shr (shr_record_of_loc mz lz) ez _) as [mrs1 e1].
  cbn [fst snd] in H1, He1. subst e1.
  set (e1 := ez + n1) in *.
  pose proof (Z.pow_pos_nonneg 2 n1 ltac:(lia) Hn1) as HP1.
  (* the mantissa after the first shift has at most 53 digits *)
  assert (Hm1 : 0 <= shr_m mrs1 < 2 ^ 53).
  { destruct H1 as (_ & HB1 & -> & _).
    split; [apply Z.div_pos; [done|exact HB1]|].
    rewrite Z.mul_comm, <- Z.div_div by (clear -HB HP1; lia).
    rewrite <- Hmz.
    exact (div_pow_lt mz (Zdigits2 mz) n1 (conj Hmz_lo Hdz) Hn1 Hd53). }
  assert (HA1 : A <= K * 2 ^ (- e1) * (2 ^ n1 * B)).
  { rewrite (pow2_split (- e1) n1 (- ez)) in HA
      by (subst e1; clear -Hn1 He1k Hk; lia).
    clear -HA. lia. }
  pose proof (round_nearest_even_le A (2 ^ n1 * B) (K * 2 ^ (- e1))
                mrs1 H1 HA1) as Hm2.
  pose proof (round_nearest_even_close A (2 ^ n1 * B) mrs1 H1) as Hclose.
  pose proof (round_nearest_even_represents A _ mrs1 H1) as [Hm12 _].
  replace (A / (2 ^ n1 * B)) with (shr_m mrs1) in Hm12
    by (by destruct H1 as (_ & _ & -> & _)).
  set (m2 := round_nearest_even (shr_m mrs1) (loc_of_shr_record mrs1)) in *.
  assert (Hm2_53 : m2 <= 2 ^ 53) by (clear -Hm1 Hm12; lia).
  pose proof (pow2_bound m2 K k (- e1) Hm2
                ltac:(clear -Hk He1k; lia) (proj1 Hk) (proj2 HK)) as Hm2_lt.
  pose proof (Zdigits2_le m2 (k + - e1) (conj (proj1 Hm2) Hm2_lt)
                ltac:(clear -Hk He1k; lia)) as Hd2.
  pose proof (Zdigits2_nonneg m2) as Hd20.
  destruct (fexp_shift (Zdigits2 m2) e1 k Hk He1k
              ltac:(clear -Hd2 Hd20; lia))
    as (Hn2 & He3k & _ & _ & Hn2_0 & Hn2_1).
  set (n2 := Z.max (fexp 53 1024 (Zdigits2 m2 + e1) - e1) 0) in *.
  destruct (represents_shr m2 1 (shr_record_of_loc m2 loc_Exact) e1
              (fexp 53 1024 (Zdigits2 m2 + e1) - e1)
              (represents_exact m2 (proj1 Hm2))) as [H2 He3].
  fold n2 in H2, He3.
  destruct (shr (shr_record_of_loc m2 loc_Exact) e1 _) as [mrs2 e3].
  cbn [fst snd] in H2, He3. subst e3.
  destruct H2 as (_ & HP2 & Hm3 & _). rewrite Z.mul_1_r in Hm3, HP2.
  (* the second shift loses nothing *)
  assert (Hexact : shr_m mrs2 * 2 ^ n2 = m2).
  { destruct (Z.eq_dec m2 (2 ^ 53)) as [Hcarry|Hno].
    - assert (Zdigits2 m2 <= 54) as Hd54.
      { apply Zdigits2_le; [|done]. rewrite Hcarry. done. }
      specialize (Hn2_1 He1min Hd54).
      assert (n2 = 0 \/ n2 = 1) as [Hz|Hz] by (clear -Hn2 Hn2_1; lia);
        rewrite Hm3, Hcarry, Hz; reflexivity.
    - assert (Zdigits2 m2 <= 53) as Hd53'.
      { apply Zdigits2_le; [|done]. clear -Hm2 Hm2_53 Hno. lia. }
      rewrite Hm3, (Hn2_0 He1min Hd53').
      change (2 ^ 0) with 1. rewrite Z.div_1_r. apply Z.mul_1_r. }
  exists (shr_m mrs2), (e1 + n2).
  assert (Hm3_lo : 0 <= shr_m mrs2).
  { rewrite Hm3. apply Z.div_pos; [exact (proj1 Hm2)|exact HP2]. }
  assert (Hm3_hi : shr_m mrs2 <= K * 2 ^ (- (e1 + n2))).
  { rewrite Hm3. apply Z.div_le_upper_bound; [done|].
    rewrite (Z.mul_comm (2 ^ n2)), <- Z.mul_assoc.
    rewrite <- (pow2_split (- (e1 + n2)) n2 (- e1))
      by (clear -Hn2 He3k Hk; lia).
    exact (proj2 Hm2). }
  split.
  { unfold float_of. destruct (shr_m mrs2) as [|m3|m3]; [done| |done].
    destruct (Z.leb_spec (e1 + n2) (1024 - 53)) as [|Hgt]; [done|].
    clear -Hgt He3k Hk. lia. }
  split; [done|]. split; [subst e1; clear -Hn1 Hn2 He3k; lia|].
  split; [done|].
  rewrite (pow2_split n2 n1 (e1 + n2 - ez))
    by (subst e1; clear -Hn1 Hn2; lia).
  replace (shr_m mrs2 * (2 ^ n2 * 2 ^ n1 * B))
    with (m2 * (2 ^ n1 * B)) by (rewrite <- Hexact; ring).
  etransitivity; [exact Hclose|].
  rewrite <- Z.mul_assoc.
  assert (0 < 2 ^ n1 * B) as HPB by (clear -HP1 HB; nia).
  clear -HPB HP2. nia.
Qed.

Lemma SFdiv_core_binary_represents (a b : positive) (K k : Z) :
  0 <= k <= 53 -> 0 <= K < 2 ^ k -> Z.pos a <= K * Z.pos b ->
  let '(mz, ez, lz) := SFdiv_core_binary 53 1024 (Z.pos a) 0 (Z.pos b) 0 in
  ez <= k - 53 /\
  represents (Z.pos a * 2 ^ (- ez)) (Z.pos b) (shr_record_of_loc mz lz).
Proof.
  intros Hk HK Hab. unfold SFdiv_core_binary.
  set (e' := Z.min _ _).
  assert (He' : e' <= k - 53).
  { subst e'. unfold fexp, emin.
    pose proof (Zdigits2_low (Z.pos a) ltac:(lia)) as Hda.
    pose proof (Zdigits2_gt (Z.pos b) ltac:(lia)) as Hdb.
    assert (Hd : Zdigits2 (Z.pos a) - 1 < k + Zdigits2 (Z.pos b)).
    { apply (Z.pow_lt_mono_r_iff 2); [lia|cbn; lia|].
      rewrite Z.pow_add_r by (cbn; lia). nia. }
    lia. }
  set (m' := match 0 - 0 - e' with
             | 0 => Z.pos a
             | Z.pos _ => Z.shiftl (Z.pos a) (0 - 0 - e')
             | Z.neg _ => 0
             end).
  assert (Hm' : m' = Z.pos a * 2 ^ (- e')).
  { subst m'. replace (0 - 0 - e') with (- e') by lia.
    destruct (- e') as [|p|p] eqn:Hs; [cbn; lia| |lia].
    by rewrite Z.shiftl_mul_pow2. }
  pose proof (represents_div_eucl m' (Z.pos b)) as Hrep.
  destruct (Z.div_eucl m' (Z.pos b)) as [q r]. cbn [fst snd] in Hrep.
  split; [done|]. rewrite <- Hm'. apply Hrep; [|done].
  rewrite Hm'. pose proof (Z.pow_pos_nonneg 2 (- e') ltac:(lia) ltac:(lia)).
  nia.
Qed.

(** The quotient of two naturals, rounded to binary64: for a quotient that
    is at most an integer [K] below [2 ^ k], the double is [m * 2 ^ e]
    with [e <= k - 53], at most [K], and within [2 ^ (e - 1)] of the
    quotient. *)
Lemma f64_div_nat_spec (a b K : nat) (k : Z) :
  (0 < b)%nat -> (a <= K * b)%nat -> 0 <= k <= 53 -> Z.of_nat K < 2 ^ k ->
  exists m e,
    f64_div (f64_of_nat a) (f64_of_nat b) = float_of m e /\
    0 <= m /\ e <= k - 53 /\ m <= Z.of_nat K * 2 ^ (- e) /\
    2 * Z.abs (m * Z.of_nat b - Z.of_nat a * 2 ^ (- e)) <= Z.of_nat b.
Proof.
  intros Hb Hab Hk HK. destruct b as [|b']; [lia|].
  destruct a as [|a'].
  { exists 0, (k - 53). split; [done|]. split; [done|]. split; [done|].
    pose proof (Z.pow_pos_nonneg 2 (- (k - 53)) ltac:(lia) ltac:(lia)).
    split; [nia|]. rewrite Z.mul_0_l. cbn [Z.sub Z.opp Z.abs]. lia. }
  unfold f64_div, f64_of_nat, SFdiv. cbn [xorb].
  pose proof (SFdiv_core_binary_represents (Pos.of_nat (S a'))
                (Pos.of_nat (S b')) (Z.of_nat K) k Hk ltac:(lia)
                ltac:(lia)) as Hcore.
  destruct (SFdiv_core_binary 53 1024 _ 0 _ 0) as [[mz ez] lz].
  destruct Hcore as [Hez Hrep].
  assert (Z.pos (Pos.of_nat (S a')) = Z.of_nat (S a')) as Ha by lia.
  assert (Z.pos (Pos.of_nat (S b')) = Z.of_nat (S b')) as Hb' by lia.
  rewrite Ha, Hb' in Hrep.
  pose proof (Z.pow_pos_nonneg 2 (- ez) ltac:(lia) ltac:(lia)) as HP.
  destruct (binary_round_aux_spec _ _ (Z.of_nat K) k _ _ _ Hrep Hk Hez
              ltac:(lia) ltac:(nia))
    as (m & e & Hres & Hm & He & Hle & Hclose).
  exists m, e. split; [done|]. split; [done|]. split; [lia|].
  split; [done|].
  assert (Hsplit : 2 ^ (- ez) = 2 ^ (e - ez) * 2 ^ (- e)).
  { rewrite <- Z.pow_add_r by lia. f_equal. lia. }
  rewrite Hsplit in Hclose.
  pose proof (Z.pow_pos_nonneg 2 (e - ez) ltac:(lia) ltac:(lia)) as HS.
  set (S1 := 2 ^ (e - ez)) in *. set (P := 2 ^ (- e)) in *.
  replace (m * (S1 * Z.of_nat (S b')) - Z.of_nat (S a') * (S1 * P))
    with (S1 * (m * Z.of_nat (S b') - Z.of_nat (S a') * P)) in Hclose by ring.
  rewrite Z.abs_mul, (Z.abs_eq S1) in Hclose by lia.
  nia.
Qed.

End Rounding.

Lemma Qpower_2_nonpos (e : Z) :
  (e <= 0)%Z -> (Qpower 2 e == / inject_Z (2 ^ (- e)))%Q.
Proof.
  intros He. rewrite Zpower_Qpower by lia.
  rewrite <- Qpower_opp. by rewrite Z.opp_involutive.
Qed.

Lemma inject_Z_pos (z : Z) : (0 < z)%Z -> (0 < inject_Z z)%Q.
Proof. intros Hz. change 0%Q with (inject_Z 0). by rewrite <- Zlt_Qlt. Qed.

Lemma inject_Z_nonzero (z : Z) : (0 < z)%Z -> ~ (inject_Z z == 0)%Q.
Proof.
  intros Hz Heq. apply inject_Z_pos in Hz. rewrite Heq in Hz.
  by apply Qlt_irrefl in Hz.
Qed.

(** The value of the double [m * 2 ^ e] that a division returned, against
    the bound [K] and against the exact quotient [a / b]. *)
Lemma float_of_to_Q (m e K k : Z) (a b : nat) :
  (0 <= m)%Z -> (0 <= k <= 53)%Z -> (e <= k - 53)%Z ->
  (m <= K * 2 ^ (- e))%Z -> 0 < b ->
  (2 * Z.abs (m * Z.of_nat b - Z.of_nat a * 2 ^ (- e)) <= Z.of_nat b)%Z ->
  exists v,
    f64_to_Q (float_of m e) = Some v /\
    (0 <= v)%Q /\ (v <= inject_Z K)%Q /\
    (Qabs (v - inject_Z (Z.of_nat a) / inject_Z (Z.of_nat b))
     <= 1 / inject_Z (2 ^ (54 - k)))%Q.
Proof.
  intros Hm Hk He Hle Hb Hclose.
  pose proof (Z.pow_pos_nonneg 2 (- e) ltac:(lia) ltac:(lia)) as HP.
  pose proof (Z.pow_pos_nonneg 2 (54 - k) ltac:(lia) ltac:(lia)) as HC.
  assert (HCP : (2 ^ (54 - k) <= 2 * 2 ^ (- e))%Z).
  { change (2 * 2 ^ (- e))%Z with (2 ^ 1 * 2 ^ (- e))%Z.
    rewrite <- Z.pow_add_r by lia. apply Z.pow_le_mono_r; lia. }
  set (P := (2 ^ (- e))%Z) in *. set (C := (2 ^ (54 - k))%Z) in *.
  assert (Hv : exists v, f64_to_Q (float_of m e) = Some v /\
                         (v == inject_Z m / inject_Z P)%Q).
  { destruct m as [|p|p]; [| |lia].
    - exists 0%Q. split; [done|]. unfold Qdiv. by rewrite Qmult_0_l.
    - eexists. split; [reflexivity|]. cbn beta iota zeta.
      unfold Qdiv. by rewrite Qpower_2_nonpos by lia. }
  destruct Hv as (v & Hv & Heq). exists v. split; [done|].
  pose proof (inject_Z_pos P HP) as HPQ.
  pose proof (inject_Z_pos C HC) as HCQ.
  assert (HPb : (0 < P * Z.of_nat b)%Z) by (clear -HP Hb; nia).
  rewrite Heq. split; [|split].
  - apply Qle_shift_div_l; [done|]. rewrite Qmult_0_l.
    change 0%Q with (inject_Z 0). by rewrite <- Zle_Qle.
  - apply Qle_shift_div_r; [done|].
    by rewrite <- inject_Z_mult, <- Zle_Qle.
  - set (z := (m * Z.of_nat b - Z.of_nat a * P)%Z) in *.
    assert (Hdiff : (inject_Z m / inject_Z P
                     - inject_Z (Z.of_nat a) / inject_Z (Z.of_nat b)
                     == inject_Z z / inject_Z (P * Z.of_nat b))%Q).
    { subst z. unfold Z.sub.
      rewrite inject_Z_plus, inject_Z_opp, !inject_Z_mult.
      field. split; apply inject_Z_nonzero; lia. }
    rewrite Hdiff. unfold Qdiv at 1. rewrite Qabs_Qmult.
    rewrite (Qabs_pos (/ inject_Z (P * Z.of_nat b))).
    2:{ apply Qinv_le_0_compat, Qlt_le_weak, inject_Z_pos. done. }
    change (Qabs (inject_Z z)) with (inject_Z (Z.abs z)).
    apply Qle_shift_div_r; [by apply inject_Z_pos|].
    assert (Hswap : (1 / inject_Z C * inject_Z (P * Z.of_nat b)
                     == inject_Z (P * Z.of_nat b) / inject_Z C)%Q)
      by (field; by apply inject_Z_nonzero).
    rewrite Hswap. apply Qle_shift_div_l; [done|].
    rewrite <- inject_Z_mult, <- Zle_Qle.
    clear -Hclose HCP HP Hb. nia.
Qed.

(** The accuracy of counters with [correct <= total] is a double between 0
    and 100, within 2^-47 of the exact quotient. *)
Lemma percentage_bounds (c t : nat) :
  c <= t -> 0 < t ->
  exists v,
    f64_to_Q (percentage (c, t)) = Some v /\
    (0 <= v)%Q /\ (v <= 100)%Q /\
    (Qabs (v - inject_Z (Z.of_nat (100 * c)) / inject_Z (Z.of_nat t))
     <= 1 / inject_Z (2 ^ 47))%Q.
Proof.
  intros Hct Ht. unfold percentage. cbn [fst snd].
  destruct (f64_div_nat_spec (100 * c) t 100 7 Ht ltac:(lia) ltac:(lia)
              ltac:(done))
    as (m & e & -> & Hm & He & Hle & Hclose).
  exact (float_of_to_Q m e 100 7 (100 * c) t Hm ltac:(lia) He Hle Ht Hclose).
Qed.

Lemma py_truediv_percentage (c t : nat) :
  c <= t ->
  py_truediv (100 * c) t =
    if t =? 0 then Raise ZeroDivisionError else Ok (percentage (c, t)).
Proof.
  intros Hct. unfold py_truediv, percentage. cbn [fst snd].
  destruct (Nat.eqb_spec t 0) as [|Ht]; [done|].
  destruct (f64_div_nat_spec (100 * c) t 100 7 ltac:(lia) ltac:(lia)
              ltac:(lia) ltac:(done))
    as (m & e & -> & Hm & _).
  destruct m; [done|done|lia].
Qed.

(** ** DataLoader *)

Lemma chunks_aux_concat {A} (fuel n : nat) (l : list A) :
  n <> 0 -> length l <= fuel -> concat (chunks_aux fuel n l) = l.
Proof.
  intros Hn. revert l. induction fuel as [|fuel IH]; intros l Hl.
  - destruct l; [done|cbn in Hl; lia].
  - destruct l as [|x l]; [done|].
    cbn [chunks_aux concat]. rewrite IH.
    + apply take_drop.
    + rewrite length_drop. cbn [length] in *. lia.
Qed.

Lemma chunks_concat {A} (n : nat) (l : list A) :
  n <> 0 -> concat (chunks n l) = l.
Proof. intros Hn. by apply chunks_aux_concat. Qed.

Lemma mapM_Ok_length {A B} (f : A -> result B) (l : list A) (ys : list B) :
  mapM f l = Ok ys -> length ys = length l.
Proof.
  revert ys. induction l as [|x l IH]; intros ys Hys.
  - cbn in Hys. by injection Hys as <-.
  - cbn in Hys. destruct (f x) as [y|e]; [|done].
    cbn in Hys. destruct (mapM f l) as [k|e]; [|done].
    cbn in Hys. injection Hys as <-. cbn. f_equal. by apply IH.
Qed.

Lemma default_collate_labels (samples : list (ndarray f32 * nat))
    (inputs : ndarray f32) (labels : list nat) :
  default_collate samples = Ok (inputs, labels) ->
  labels = samples.*2 /\ shape inputs = length samples :: match samples with
                                                          | s :: _ => shape s.1
                                                          | [] => []
                                                          end.
Proof.
  unfold default_collate, torch_stack.
  destruct samples as [|s samples]; [done|].
  cbn [map fst]. destruct (forallb _ _); [|done].
  cbn [mbind result_bind]. intros [= <- <-]. cbn.
  by rewrite length_map.
Qed.

(** The loaders of the pipeline have a batch size and as many samples as
    the split has paths, and the training loader has at least one. *)
Lemma create_data_loaders_spec {RawFrame : Type}
    (px : RawFrame -> nat * nat -> nat -> nat -> nat -> byte)
    (capture : pystr -> Capture RawFrame)
    (batch_size F : nat) (split : Split)
    (train_loader test_loader : DataLoader) :
  create_data_loaders px capture batch_size F split
    = Ok (train_loader, test_loader) ->
  dl_batch_size train_loader <> 0 /\
  dl_batch_size test_loader <> 0 /\
  dl_len train_loader = length (train_paths split) /\
  dl_len test_loader = length (test_paths split) /\
  train_paths split <> [].
Proof.
  unfold create_data_loaders, new_DataLoader, dataset_len.
  cbn [video_paths andb].
  destruct (train_paths split) as [|path paths]; [done|].
  cbn [length Nat.eqb].
  destruct (Nat.eqb_spec batch_size 0); [done|].
  cbn [mbind result_bind]. by intros [= <- <-].
Qed.

(** The batches that were fetched without an exception hold one label for
    each index of their chunk. *)
Lemma n_samples_batches (dl : DataLoader) (cs : list (list nat)) :
  let batches :=
    map (fun idxs => samples ← mapM (dl_getitem dl) idxs;
                     default_collate samples) cs in
  Forall (fun b => is_Ok b = true) batches ->
  n_samples batches = length (concat cs).
Proof.
  induction cs as [|idxs cs IH]; [done|].
  cbn zeta in *. cbn [map]. intros Hall.
  apply Forall_cons in Hall as [Hb Hall].
  unfold n_samples in *. cbn [map sum_list sum_list_with concat].
  rewrite length_app, <- IH by done. f_equal.
  destruct (mapM (dl_getitem dl) idxs) as [samples|e] eqn:Hm; [|done].
  cbn [mbind result_bind] in *.
  destruct (default_collate samples) as [[inputs labels]|e] eqn:Hc; [|done].
  apply default_collate_labels in Hc as [-> _].
  rewrite length_fmap. by apply mapM_Ok_length in Hm.
Qed.

Lemma n_samples_iter_DataLoader (dl : DataLoader) (order : list nat) :
  dl_batch_size dl <> 0 ->
  Forall (fun b => is_Ok b = true) (iter_DataLoader dl order) ->
  n_samples (iter_DataLoader dl order) = length order.
Proof.
  intros Hbs Hall. unfold iter_DataLoader in *.
  rewrite (n_samples_batches dl) by done.
  by rewrite chunks_concat.
Qed.

(** A loader that was constructed has a batch size. *)
Lemma new_DataLoader_batch_size (getitem : nat -> result (ndarray f32 * nat))
    (len batch_size : nat) (shuffle : bool) (dl : DataLoader) :
  new_DataLoader getitem len batch_size shuffle = Ok dl ->
  dl_batch_size dl <> 0 /\ dl_len dl = len /\ dl_getitem dl = getitem.
Proof.
  unfold new_DataLoader. destruct (shuffle && (len =? 0)); [done|].
  destruct (Nat.eqb_spec batch_size 0); [done|].
  by intros [= <-].
Qed.

(** ** The loops *)

Section Loops_facts.

Context {Params Optim Row Float : Type}.
Variable apply_model : Params -> bool -> ndarray f32 -> result (list Row).
Variable argmax : Row -> nat.
Variable nll : list Row -> list nat -> result Float.
Variable optimizer_step :
  Params -> Optim -> ndarray f32 -> list nat -> result (Params * Optim).
Variable float_zero : Float.
Variable float_add : Float -> Float -> Float.
Variable float_div : Float -> nat -> Float.

Lemma n_correct_le (p : Params) (mode : bool)
    (batches : list (result Batch)) :
  n_correct (apply_model p mode) argmax batches <= n_samples batches.
Proof.
  unfold n_correct, n_samples.
  induction batches as [|b batches IH]; [done|].
  cbn [map sum_list sum_list_with].
  apply Nat.add_le_mono; [|done].
  destruct b as [[inputs labels]|e]; [|done].
  destruct (apply_model p mode inputs); [apply hits_le|apply Nat.le_0_l].
Qed.

(** The test loop on batches that are all served. *)
Lemma test_batches_served (batches : list (result Batch))
    (correct total : nat) (w : World Params Optim) :
  Forall (served (apply_model (params w) (training w))) batches ->
  test_batches apply_model argmax batches correct total w =
    (Ok (correct + n_correct (apply_model (params w) (training w)) argmax
                     batches,
         total + n_samples batches),
     mk_World (params w) (optim w) (training w) (grad_enabled w)
       (trace w ++ forward_events (grad_enabled w) batches)).
Proof.
  revert correct total w.
  induction batches as [|b batches IH]; intros correct total w Hall.
  - cbn. rewrite !Nat.add_0_r, app_nil_r. by destruct w.
  - apply Forall_cons in Hall as [(inputs & labels & outputs & -> & Hm & Hlen)
                                   Hall].
    cbn [test_batches]. unfold mbind, M_bind, lift, call_model.
    rewrite Hm.
    rewrite count_eq_same_length by (by rewrite length_map).
    rewrite IH by done. cbn [params optim training grad_enabled trace].
    unfold n_correct, n_samples, forward_events.
    cbn [map sum_list sum_list_with flat_map]. rewrite Hm.
    rewrite <- app_assoc. cbn [app]. unfold id. do 3 f_equal; lia.
Qed.

(** Whatever happens in the test loop, only the trace changes, and it
    grows by calls of the model made in the current gradient mode. *)
Lemma test_batches_frame (batches : list (result Batch))
    (correct total : nat) (w : World Params Optim) :
  let w' := (test_batches apply_model argmax batches correct total w).2 in
  params w' = params w /\ optim w' = optim w /\
  training w' = training w /\ grad_enabled w' = grad_enabled w /\
  exists k, trace w' =
    trace w ++ forward_events (grad_enabled w) (take k batches).
Proof.
  revert correct total w.
  induction batches as [|b batches IH]; intros correct total w.
  - cbn. do 4 (split; [done|]). exists 0. by rewrite app_nil_r.
  - cbn [test_batches]. unfold mbind, M_bind, lift, call_model.
    destruct b as [[inputs labels]|e].
    + destruct (apply_model (params w) (training w) inputs) as [outputs|e].
      * destruct (count_eq (map argmax outputs) labels) as [hits|e].
        -- cbn zeta. 
           match goal with |- context [test_batches _ _ _ ?c ?t ?w1] =>
             specialize (IH c t w1) end.
           cbn zeta in IH. cbn [params optim training grad_enabled trace] in IH.
           destruct IH as (Hp & Ho & Ht & Hg & k & Hk).
           do 4 (split; [done|]). exists (S k). rewrite Hk.
           cbn [take forward_events flat_map]. by rewrite <- app_assoc.
        -- cbn. do 4 (split; [done|]). by exists 1.
      * cbn. do 4 (split; [done|]). by exists 1.
    + cbn. do 4 (split; [done|]). exists 0. by rewrite app_nil_r.
Qed.

(** [test_model] on batches that are all served. *)
Lemma test_model_served (test_loader : list (result Batch))
    (w : World Params Optim) :
  Forall (served (apply_model (params w) false)) test_loader ->
  test_model apply_model argmax test_loader w =
    (py_truediv
       (100 * n_correct (apply_model (params w) false) argmax test_loader)
       (n_samples test_loader),
     mk_World (params w) (optim w) false (grad_enabled w)
       (trace w ++ forward_events false test_loader)).
Proof.
  intros Hall. unfold test_model, mbind, M_bind, set_training, no_grad, lift.
  rewrite test_batches_served by done.
  cbn [params optim training grad_enabled trace Nat.add].
  by destruct (py_truediv _ _).
Qed.

(** Whatever happens in [test_model], the parameters, the optimiser and
    the gradient mode are as before, the model is in evaluation mode, and
    the model was called on an initial segment of the batches, without
    gradient tracking. *)
Lemma test_model_frame (test_loader : list (result Batch))
    (w : World Params Optim) :
  let w' := (test_model apply_model argmax test_loader w).2 in
  params w' = params w /\ optim w' = optim w /\
  training w' = false /\ grad_enabled w' = grad_enabled w /\
  exists k, trace w' = trace w ++ forward_events false (take k test_loader).
Proof.
  unfold test_model, mbind, M_bind, set_training, no_grad, lift.
  pose proof (test_batches_frame test_loader 0 0
    (mk_World (params w) (optim w) false false (trace w))) as Hf.
  cbn zeta in Hf. cbn [params optim training grad_enabled trace] in Hf.
  destruct (test_batches apply_model argmax test_loader 0 0 _) as [r w1].
  cbn [snd] in Hf. destruct Hf as (Hp & Ho & Ht & Hg & k & Hk).
  destruct r as [[correct total]|e]; cbn zeta;
    cbn [params optim training grad_enabled trace snd].
  - destruct (py_truediv (100 * correct) total);
      cbn [params optim training grad_enabled trace snd]; eauto 10.
  - eauto 10.
Qed.

Lemma epoch_ends_app (evs1 evs2 : list Event) :
  epoch_ends (evs1 ++ evs2) = epoch_ends evs1 ++ epoch_ends evs2.
Proof. unfold epoch_ends. apply flat_map_app. Qed.

(** One pass over the training batches: the mode flags stay, the trace
    grows by calls of the model only, and a pass that completes has met
    every batch and counted each of its samples once, with no more hits
    than samples. *)
(** A pass that stops on an exception after the events [evs]. *)
Local Ltac stopped_after Hrun evs :=
  injection Hrun as <- <-; do 2 (split; [done|]); split; [|done];
  exists evs; split; [by rewrite ?app_nil_r|done].

Lemma train_batches_inv (batches : list (result Batch))
    (running_loss : Float) (correct total : nat) (w w' : World Params Optim)
    (r : result (Float * nat * nat)) :
  train_batches apply_model argmax nll optimizer_step float_add
    batches running_loss correct total w = (r, w') ->
  training w' = training w /\ grad_enabled w' = grad_enabled w /\
  (exists evs, trace w' = trace w ++ evs /\ epoch_ends evs = []) /\
  match r with
  | Ok (_, correct', total') =>
      Forall (fun b => is_Ok b = true) batches /\
      total' = total + n_samples batches /\
      correct <= correct' /\ correct' + total <= correct + total'
  | Raise _ => True
  end.
Proof.
  revert running_loss correct total w.
  induction batches as [|b batches IH]; intros rl c t w Hrun.
  - cbn in Hrun. injection Hrun as <- <-.
    do 2 (split; [done|]). split.
    + exists []. by rewrite app_nil_r.
    + unfold n_samples. cbn. split; [done|]. lia.
  - cbn [train_batches] in Hrun.
    unfold mbind, M_bind, lift, call_model, backward_and_step in Hrun.
    destruct b as [[inputs labels]|e].
    2:{ stopped_after Hrun (@nil Event). }
    destruct (apply_model (params w) (training w) inputs) as [outputs|e].
    2:{ stopped_after Hrun [Forward inputs (grad_enabled w)]. }
    unfold criterion in Hrun.
    destruct (length outputs =? length labels) eqn:Hlen.
    2:{ stopped_after Hrun [Forward inputs (grad_enabled w)]. }
    apply Nat.eqb_eq in Hlen.
    destruct (nll outputs labels) as [loss|e].
    2:{ stopped_after Hrun [Forward inputs (grad_enabled w)]. }
    cbn [params optim training grad_enabled trace] in Hrun.
    destruct (grad_enabled w) eqn:Hgrad.
    2:{ stopped_after Hrun [Forward inputs false]. }
    destruct (optimizer_step (params w) (optim w) inputs labels)
      as [[p o]|e].
    2:{ stopped_after Hrun [Forward inputs true]. }
    rewrite count_eq_same_length in Hrun by (by rewrite length_map).
    apply IH in Hrun as (Ht & Hg & (evs & Hevs & Hends) & Hr).
    cbn [params optim training grad_enabled trace] in *.
    do 2 (split; [done|]). split.
    + exists (Forward inputs true :: evs).
      split; [by rewrite Hevs, <- app_assoc|done].
    + destruct r as [[[rl' c'] t']|e]; [|done].
      destruct Hr as (Hall & Ht' & Hc1 & Hc2).
      pose proof (hits_le (map argmax outputs) labels) as Hh.
      split; [by constructor|].
      change (n_samples (Ok (inputs, labels) :: batches))
        with (length labels + n_samples batches).
      lia.
Qed.

(** The epochs: every logged end of epoch has counted [N] samples, when
    [N] is what a complete pass over the loader delivers; the returned
    accuracies are the percentages of the logged counters. *)
Lemma train_epochs_inv (train_loader : nat -> list (result Batch))
    (N : nat) :
  (forall e, Forall (fun b => is_Ok b = true) (train_loader e) ->
             n_samples (train_loader e) = N) ->
  forall (n epoch : nat) (losses : list Float) (accs : list f64)
         (w w' : World Params Optim) (r : result (list Float * list f64)),
  train_epochs apply_model argmax nll optimizer_step float_zero float_add
    float_div train_loader epoch n losses accs w = (r, w') ->
  exists evs,
    trace w' = trace w ++ evs /\
    Forall (fun ct => ct.2 = N /\ ct.1 <= ct.2) (epoch_ends evs) /\
    match r with
    | Ok (losses', accs') =>
        accs' = accs ++ map percentage (epoch_ends evs) /\
        length (epoch_ends evs) = n /\
        length losses' = length losses + n /\
        (n <> 0 -> N <> 0)
    | Raise _ => True
    end.
Proof.
  intros Hloader n.
  induction n as [|n IH]; intros epoch losses accs w w' r Hrun.
  - cbn in Hrun. injection Hrun as <- <-. exists [].
    rewrite !app_nil_r. cbn. split; [done|]. split; [constructor|].
    split; [done|]. split; [done|]. split; [lia|done].
  - cbn [train_epochs] in Hrun.
    unfold mbind, M_bind, set_training, emit, lift in Hrun.
    destruct (train_batches _ _ _ _ _ _ _ _ _ _) as [r1 w1] eqn:Hb in Hrun.
    apply train_batches_inv in Hb as (_ & _ & (evs1 & Hevs1 & Hends1) & Hr1).
    cbn [params optim training grad_enabled trace] in *.
    destruct r1 as [[[rl c] t]|e].
    2:{ injection Hrun as <- <-. exists evs1.
        rewrite Hends1. split; [done|]. split; [constructor|done]. }
    destruct Hr1 as (Hall & Ht & _ & Hct).
    rewrite Hloader in Ht by done. cbn [Nat.add] in Ht. subst t.
    assert (Forall (fun ct : nat * nat => ct.2 = N /\ ct.1 <= ct.2)
                   (epoch_ends (evs1 ++ [EpochEnd c N]))) as Hone.
    { rewrite epoch_ends_app, Hends1. cbn. constructor; [|constructor].
      cbn. split; [done|lia]. }
    rewrite py_truediv_percentage in Hrun by lia.
    destruct (N =? 0) eqn:HN.
    { injection Hrun as <- <-. exists (evs1 ++ [EpochEnd c N]).
      rewrite Hevs1, <- app_assoc. done. }
    apply Nat.eqb_neq in HN.
    unfold mean_loss in Hrun.
    destruct (length (train_loader epoch) =? 0).
    { injection Hrun as <- <-. exists (evs1 ++ [EpochEnd c N]).
      rewrite Hevs1, <- app_assoc. done. }
    apply IH in Hrun as (evs2 & Hevs2 & Hall2 & Hr).
    cbn [params optim training grad_enabled trace] in *.
    exists ((evs1 ++ [EpochEnd c N]) ++ evs2). split.
    { rewrite Hevs2, Hevs1. by rewrite <- !app_assoc. }
    split.
    { rewrite epoch_ends_app. by apply Forall_app. }
    destruct r as [[losses' accs']|e]; [|done].
    destruct Hr as (-> & Hlen & Hll & _).
    rewrite !epoch_ends_app, Hends1. cbn [app epoch_ends flat_map map].
    rewrite epoch_ends_app, Hends1 in Hone.
    split; [by rewrite <- app_assoc|].
    split; [cbn; by rewrite Hlen|].
    split; [rewrite Hll, length_app; cbn; lia|done].
Qed.

End Loops_facts.

(** C6. [train_model] over a [DataLoader] of [N] samples whose sampler
    yields, in every epoch, a rearrangement of the indices [0 .. N-1]: the
    batches of an epoch partition that rearrangement, so every sample is in
    exactly one batch; at the end of every epoch that is reached the counter
    [total] is [N] and [correct] does not exceed it; when the run returns,
    there is one accuracy per epoch, it is the double [100 * correct / total]
    of that epoch, within 2^-47 of the exact quotient, and its value lies
    between 0 and 100. *)
Theorem train_model_counts_every_sample {Params Optim Row Float : Type}
    (apply_model : Params -> bool -> ndarray f32 -> result (list Row))
    (argmax : Row -> nat)
    (nll : list Row -> list nat -> result Float)
    (optimizer_step :
       Params -> Optim -> ndarray f32 -> list nat -> result (Params * Optim))
    (float_zero : Float) (float_add : Float -> Float -> Float)
    (float_div : Float -> nat -> Float)
    (dl : DataLoader) (order : nat -> list nat) (epochs : nat)
    (w w' : World Params Optim) (r : result (list Float * list f64)) :
  dl_batch_size dl <> 0 ->
  (forall e, order e ≡ₚ sequential dl) ->
  train_model apply_model argmax nll optimizer_step float_zero float_add
    float_div epochs (fun e => iter_DataLoader dl (order e)) w = (r, w') ->
  (forall e, concat (chunks (dl_batch_size dl) (order e))
             ≡ₚ seq 0 (dl_len dl)) /\
  exists evs,
    trace w' = trace w ++ evs /\
    (forall correct total, (correct, total) ∈ epoch_ends evs ->
       total = dl_len dl /\ correct <= total /\
       (dl_len dl <> 0 ->
        exists v, f64_to_Q (percentage (correct, total)) = Some v /\
                  (0 <= v)%Q /\ (v <= 100)%Q /\
                  (Qabs (v - inject_Z (Z.of_nat (100 * correct))
                             / inject_Z (Z.of_nat total))
                   <= 1 / inject_Z (2 ^ 47))%Q)) /\
    forall losses accs, r = Ok (losses, accs) ->
      length accs = epochs /\
      length (epoch_ends evs) = epochs /\
      accs = map percentage (epoch_ends evs) /\
      Forall (fun a => exists v, f64_to_Q a = Some v /\
                                 (0 <= v)%Q /\ (v <= 100)%Q) accs.
Proof.
  intros Hbs Horder Hrun. split.
  { intros e. rewrite chunks_concat by done. apply Horder. }
  unfold train_model in Hrun.
  apply (train_epochs_inv apply_model argmax nll optimizer_step float_zero
           float_add float_div _ (dl_len dl)) in Hrun.
  2:{ intros e Hall. rewrite n_samples_iter_DataLoader by done.
      rewrite (Permutation_length (Horder e)). apply length_seq. }
  destruct Hrun as (evs & Hevs & Hends & Hr).
  exists evs. split; [done|]. split.
  { intros c t Hin. rewrite Forall_forall in Hends.
    destruct (Hends (c, t) Hin) as [Ht Hc]. cbn [fst snd] in *.
    do 2 (split; [done|]). intros HN.
    apply percentage_bounds; [done|lia]. }
  intros losses accs ->. destruct Hr as (-> & Hlen & _ & HN).
  cbn [app]. rewrite length_map. do 3 (split; [done|]).
  apply Forall_forall. intros a Ha.
  apply list_elem_of_fmap in Ha as ([c t] & -> & Hin).
  rewrite Forall_forall in Hends.
  destruct (Hends (c, t) Hin) as [Ht Hc]. cbn [fst snd] in *.
  destruct (percentage_bounds c t Hc) as (v & Hv & H0 & H100 & _).
  { destruct epochs as [|n]; [|specialize (HN ltac:(done)); lia].
    destruct (epoch_ends evs); [|done]. by apply elem_of_nil in Hin. }
  by exists v.
Qed.

Lemma toy_order_perm (e : nat) : toy_order e ≡ₚ sequential toy_loader.
Proof.
  unfold toy_order. destruct (Nat.even e); [done|].
  change (sequential toy_loader) with [0; 1; 2].
  change [2; 1; 0] with (reverse [0; 1; 2]). apply reverse_Permutation.
Qed.

Lemma train_model_counts_every_sample_witness :
  dl_batch_size toy_loader <> 0 /\
  (forall e, toy_order e ≡ₚ sequential toy_loader) /\
  exists r w',
    train_model toy_model id toy_nll toy_step 0 Nat.add Nat.div 2
      (fun e => iter_DataLoader toy_loader (toy_order e)) toy_world = (r, w') /\
    r = Ok ([0; 0], [S754_finite false 4691249611844267 (-46);
                     S754_finite false 4691249611844267 (-46)]) /\
    exists evs,
      trace w' = trace toy_world ++ evs /\
      (forall correct total, (correct, total) ∈ epoch_ends evs ->
         total = dl_len toy_loader /\ correct <= total /\
         (dl_len toy_loader <> 0 ->
          exists v, f64_to_Q (percentage (correct, total)) = Some v /\
                    (0 <= v)%Q /\ (v <= 100)%Q /\
                    (Qabs (v - inject_Z (Z.of_nat (100 * correct))
                               / inject_Z (Z.of_nat total))
                     <= 1 / inject_Z (2 ^ 47))%Q)) /\
      forall losses accs, r = Ok (losses, accs) ->
        length accs = 2 /\
        length (epoch_ends evs) = 2 /\
        accs = map percentage (epoch_ends evs) /\
        Forall (fun a => exists v, f64_to_Q a = Some v /\
                                   (0 <= v)%Q /\ (v <= 100)%Q) accs.
Proof.
  split; [discriminate|]. split; [exact toy_order_perm|].
  eexists _, _. split; [vm_compute; reflexivity|].
  split; [reflexivity|].
  apply (train_model_counts_every_sample toy_model id toy_nll toy_step 0
           Nat.add Nat.div toy_loader toy_order 2 toy_world);
    [discriminate|exact toy_order_perm|vm_compute; reflexivity].
Defined.

(** C8, as stated for every model, fails.  The model that [main] builds
    raises in its forward pass, and [test_model] raises with it; a model
    that answers a batch of one sample with two rows of logits has its two
    predictions compared with the one label by broadcasting, and
    [test_model] returns the double 200.0. *)
Lemma test_model_not_for_every_model :
  0 < n_samples [Ok (mk_ndarray [1; 100; 3; 224; 224] [], [0])] /\
  (test_model pipeline_model id
     [Ok (mk_ndarray [1; 100; 3; 224; 224] [], [0])] toy_world).1
  = Raise RuntimeError /\
  (test_model two_rows_model id
     [Ok (mk_ndarray [1; 100; 3; 224; 224] [], [0])] toy_world).1
  = Ok (S754_finite false 7036874417766400 (-45)) /\
  exists v,
    f64_to_Q (S754_finite false 7036874417766400 (-45)) = Some v /\
    (v == 200)%Q /\ ~ (v <= 100)%Q.
Proof.
  split; [vm_compute; lia|]. split; [vm_compute; reflexivity|].
  split; [vm_compute; reflexivity|].
  eexists. split; [reflexivity|].
  split; [vm_compute; reflexivity|]. vm_compute. intros H. by apply H.
Qed.

(** C8, amended. On a test loader of at least one sample whose batches all
    arrive and on which the model, in evaluation mode, returns one row of
    logits per sample, [test_model] returns the double
    [100 * correct / total], where [total] is the number of samples and
    [correct] the number of predictions that equal their label; its value
    lies between 0 and 100, within 2^-47 of the exact quotient; the model
    was called exactly once on each batch, in order, with gradient
    tracking off; the parameters and the optimiser state are unchanged,
    the model is left in evaluation mode and the gradient mode is
    restored.  For every model and every loader,
    also when the run raises, the parameters and the optimiser state are
    unchanged and the model was called on a first stretch of the batches
    only, with gradient tracking off. *)
Theorem test_model_accuracy {Params Optim Row : Type}
    (apply_model : Params -> bool -> ndarray f32 -> result (list Row))
    (argmax : Row -> nat)
    (test_loader : list (result Batch)) (w : World Params Optim) :
  (Forall (served (apply_model (params w) false)) test_loader ->
   0 < n_samples test_loader ->
   let correct :=
     n_correct (apply_model (params w) false) argmax test_loader in
   let total := n_samples test_loader in
   exists w',
     test_model apply_model argmax test_loader w
       = (Ok (percentage (correct, total)), w') /\
     correct <= total /\
     (exists v, f64_to_Q (percentage (correct, total)) = Some v /\
                (0 <= v)%Q /\ (v <= 100)%Q /\
                (Qabs (v - inject_Z (Z.of_nat (100 * correct))
                           / inject_Z (Z.of_nat total))
                 <= 1 / inject_Z (2 ^ 47))%Q) /\
     params w' = params w /\ optim w' = optim w /\
     training w' = false /\ grad_enabled w' = grad_enabled w /\
     trace w' = trace w ++ forward_events false test_loader) /\
  (let w' := (test_model apply_model argmax test_loader w).2 in
   params w' = params w /\ optim w' = optim w /\
   training w' = false /\ grad_enabled w' = grad_enabled w /\
   exists k, trace w' = trace w ++ forward_events false (take k test_loader)).
Proof.
  split; [|apply test_model_frame].
  intros Hall Hpos correct total.
  pose proof (n_correct_le apply_model argmax (params w) false test_loader)
    as Hle.
  eexists. split.
  { rewrite test_model_served by done.
    rewrite py_truediv_percentage by done.
    fold total. rewrite (proj2 (Nat.eqb_neq total 0)) by (unfold total; lia).
    reflexivity. }
  split; [done|].
  split; [exact (percentage_bounds correct total Hle Hpos)|].
  cbn [params optim training grad_enabled trace].
  done.
Qed.

Lemma test_model_accuracy_witness :
  Forall (served (toy_model (params toy_world) false))
         (iter_DataLoader toy_loader (sequential toy_loader)) /\
  0 < n_samples (iter_DataLoader toy_loader (sequential toy_loader)) /\
  exists w',
    test_model toy_model id
      (iter_DataLoader toy_loader (sequential toy_loader)) toy_world
      = (Ok (S754_finite false 4691249611844267 (-46)), w') /\
    params w' = params toy_world /\
    trace w' = trace toy_world ++
      forward_events false (iter_DataLoader toy_loader (sequential toy_loader)).
Proof.
  assert (H1 : Forall (served (toy_model (params toy_world) false))
                 (iter_DataLoader toy_loader (sequential toy_loader))).
  { repeat constructor; eexists _, _, _;
      (split; [reflexivity|split; reflexivity]). }
  assert (H2 : 0 < n_samples (iter_DataLoader toy_loader
                                (sequential toy_loader)))
    by (vm_compute; lia).
  split; [exact H1|]. split; [exact H2|].
  destruct (proj1 (test_model_accuracy toy_model id _ toy_world) H1 H2)
    as (w' & Hrun & _ & _ & Hp & _ & _ & _ & Htr).
  exists w'. split; [exact Hrun|]. split; [exact Hp|exact Htr].
Defined.

(** C9, as stated, fails for [epochs = 0]: over a training set without
    samples [train_model] returns two empty lists. *)
Lemma train_model_zero_epochs_returns :
  dl_len empty_loader = 0 /\
  n_samples (iter_DataLoader empty_loader (sequential empty_loader)) = 0 /\
  train_model toy_model id toy_nll toy_step 0 Nat.add Nat.div 0
    (fun _ => iter_DataLoader empty_loader (sequential empty_loader))
    toy_world
  = (Ok ([], []), toy_world).
Proof. split; [reflexivity|]. split; reflexivity. Qed.

(** C9, amended. Over a data set without samples, [test_model] raises
    [ZeroDivisionError], and so does [train_model] when it runs at least
    one epoch. *)
Theorem zero_samples_division_by_zero {Params Optim Row Float : Type}
    (apply_model : Params -> bool -> ndarray f32 -> result (list Row))
    (argmax : Row -> nat)
    (nll : list Row -> list nat -> result Float)
    (optimizer_step :
       Params -> Optim -> ndarray f32 -> list nat -> result (Params * Optim))
    (float_zero : Float) (float_add : Float -> Float -> Float)
    (float_div : Float -> nat -> Float)
    (dl : DataLoader) (order : nat -> list nat) (epochs : nat)
    (w : World Params Optim) :
  dl_len dl = 0 ->
  (forall e, order e ≡ₚ sequential dl) ->
  0 < epochs ->
  (test_model apply_model argmax (iter_DataLoader dl (sequential dl)) w).1
    = Raise ZeroDivisionError /\
  (train_model apply_model argmax nll optimizer_step float_zero float_add
     float_div epochs (fun e => iter_DataLoader dl (order e)) w).1
    = Raise ZeroDivisionError.
Proof.
  intros Hlen Horder Hep.
  assert (sequential dl = []) as Hseq by (unfold sequential; by rewrite Hlen).
  split.
  - by rewrite Hseq.
  - destruct epochs as [|n]; [lia|].
    unfold train_model. cbn [train_epochs].
    unfold mbind, M_bind, set_training, emit, lift.
    pose proof (Horder 0) as H0. rewrite Hseq in H0.
    apply Permutation_nil_r in H0. rewrite H0. done.
Qed.

Lemma zero_samples_division_by_zero_witness :
  dl_len empty_loader = 0 /\
  (forall e : nat, @nil nat ≡ₚ sequential empty_loader) /\
  0 < 3 /\
  (test_model toy_model id
     (iter_DataLoader empty_loader (sequential empty_loader)) toy_world).1
    = Raise ZeroDivisionError /\
  (train_model toy_model id toy_nll toy_step 0 Nat.add Nat.div 3
     (fun e => iter_DataLoader empty_loader []) toy_world).1
    = Raise ZeroDivisionError.
Proof.
  split; [reflexivity|]. split; [intros _; reflexivity|]. split; [lia|].
  apply (zero_samples_division_by_zero toy_model id toy_nll toy_step 0
           Nat.add Nat.div empty_loader (fun _ => []) 3 toy_world);
    [reflexivity|intros _; reflexivity|lia].
Defined.

(** * Further properties of the code *)

(** ** Indexing a data set *)

Lemma py_index_out_of_range {A} (l : list A) (i : Z) :
  (i < - Z.of_nat (length l) \/ Z.of_nat (length l) <= i)%Z ->
  py_index l i = Raise IndexError.
Proof.
  intros Hi. unfold py_index.
  destruct (Z.ltb_spec i 0) as [Hneg|Hpos].
  - replace (0 <=? i + Z.of_nat (length l))%Z with false; [done|].
    symmetry. apply Z.leb_gt. lia.
  - replace (i <? Z.of_nat (length l))%Z with false.
    + by rewrite andb_false_r.
    + symmetry. apply Z.ltb_ge. lia.
Qed.

Lemma py_index_in_range {A} (l : list A) (i : Z) :
  (- Z.of_nat (length l) <= i < Z.of_nat (length l))%Z ->
  exists x,
    py_index l i = Ok x /\
    l !! Z.to_nat (if (i <? 0)%Z then i + Z.of_nat (length l) else i)%Z
      = Some x.
Proof.
  intros Hi. unfold py_index.
  set (j := (if (i <? 0)%Z then i + Z.of_nat (length l) else i)%Z).
  assert (0 <= j < Z.of_nat (length l))%Z as Hj.
  { unfold j. destruct (Z.ltb_spec i 0); lia. }
  replace (0 <=? j)%Z with true by (symmetry; apply Z.leb_le; lia).
  replace (j <? Z.of_nat (length l))%Z with true
    by (symmetry; apply Z.ltb_lt; lia).
  cbn [andb].
  destruct (lookup_lt_is_Some_2 l (Z.to_nat j)) as [x Hx]; [lia|].
  exists x. by rewrite Hx.
Qed.

Lemma py_index_negative {A} (l : list A) (k : nat) :
  0 < k <= length l ->
  py_index l (- Z.of_nat k) = py_index l (Z.of_nat (length l - k)).
Proof.
  intros Hk. unfold py_index.
  replace (- Z.of_nat k <? 0)%Z with true by (symmetry; apply Z.ltb_lt; lia).
  replace (Z.of_nat (length l - k) <? 0)%Z with false
    by (symmetry; apply Z.ltb_ge; lia).
  by replace (- Z.of_nat k + Z.of_nat (length l))%Z
    with (Z.of_nat (length l - k)) by lia.
Qed.

(** X1. An index outside [-len, len) makes [__getitem__] raise
    [IndexError], whatever the files are: the path is looked up before
    anything is opened. *)
Theorem getitem_index_out_of_range {RawFrame : Type}
    (px : RawFrame -> nat * nat -> nat -> nat -> nat -> byte)
    (capture : pystr -> Capture RawFrame)
    (ds : VideoDataset) (idx : Z) :
  (idx < - Z.of_nat (dataset_len ds) \/ Z.of_nat (dataset_len ds) <= idx)%Z ->
  getitem px capture ds idx = Raise IndexError.
Proof.
  intros Hidx. unfold getitem.
  by rewrite (py_index_out_of_range (video_paths ds) idx Hidx).
Qed.

Lemma getitem_index_out_of_range_witness :
  (2 < - Z.of_nat (dataset_len (two_videos 5))
   \/ Z.of_nat (dataset_len (two_videos 5)) <= 2)%Z /\
  getitem black_px two_frames (two_videos 5) 2 = Raise IndexError.
Proof.
  assert (H : (2 < - Z.of_nat (dataset_len (two_videos 5))
               \/ Z.of_nat (dataset_len (two_videos 5)) <= 2)%Z)
    by (right; vm_compute; discriminate).
  split; [exact H|].
  exact (getitem_index_out_of_range black_px two_frames (two_videos 5) 2 H).
Defined.

(** X2. On a data set with as many labels as paths, a negative index counts
    from the end: item [-k] is item [len - k], for 1 <= k <= len. *)
Theorem getitem_negative_index {RawFrame : Type}
    (px : RawFrame -> nat * nat -> nat -> nat -> nat -> byte)
    (capture : pystr -> Capture RawFrame)
    (ds : VideoDataset) (k : nat) :
  length (labels ds) = length (video_paths ds) ->
  0 < k <= dataset_len ds ->
  getitem px capture ds (- Z.of_nat k)
  = getitem px capture ds (Z.of_nat (dataset_len ds - k)).
Proof.
  intros Hpar Hk. unfold getitem, dataset_len in *.
  rewrite (py_index_negative (video_paths ds) k) by done.
  rewrite (py_index_negative (labels ds) k) by lia.
  by rewrite Hpar.
Qed.

Lemma getitem_negative_index_witness :
  length (labels (two_videos 5)) = length (video_paths (two_videos 5)) /\
  0 < 1 <= dataset_len (two_videos 5) /\
  getitem black_px two_frames (two_videos 5) (- Z.of_nat 1)
  = getitem black_px two_frames (two_videos 5)
      (Z.of_nat (dataset_len (two_videos 5) - 1)).
Proof.
  assert (H1 : length (labels (two_videos 5))
               = length (video_paths (two_videos 5))) by reflexivity.
  assert (H2 : 0 < 1 <= dataset_len (two_videos 5)) by (vm_compute; lia).
  split; [exact H1|]. split; [exact H2|].
  exact (getitem_negative_index black_px two_frames (two_videos 5) 1 H1 H2).
Defined.

(** X3. On a data set with as many labels as paths and for an index in
    [-len, len), [__getitem__] never raises [IndexError]: it returns a
    tensor exactly when the video has at least one frame, with the label
    stored at that index, and raises [ValueError] or [RuntimeError]
    otherwise. *)
Theorem getitem_in_range {RawFrame : Type}
    (px : RawFrame -> nat * nat -> nat -> nat -> nat -> byte)
    (capture : pystr -> Capture RawFrame)
    (ds : VideoDataset) (idx : Z) :
  length (labels ds) = length (video_paths ds) ->
  (- Z.of_nat (dataset_len ds) <= idx < Z.of_nat (dataset_len ds))%Z ->
  exists path label,
    py_index (video_paths ds) idx = Ok path /\
    py_index (labels ds) idx = Ok label /\
    (decoded capture path <> [] ->
     exists t, getitem px capture ds idx = Ok (t, label) /\
               shape t = [fixed_frame_count ds; 3; 224; 224]) /\
    (decoded capture path = [] ->
     getitem px capture ds idx =
       Raise (if fixed_frame_count ds =? 0 then RuntimeError
              else ValueError)) /\
    getitem px capture ds idx <> Raise IndexError.
Proof.
  intros Hpar Hidx. unfold dataset_len in Hidx.
  destruct (py_index_in_range (video_paths ds) idx Hidx) as (path & Hpath & _).
  destruct (py_index_in_range (labels ds) idx) as (label & Hlabel & _);
    [by rewrite Hpar|].
  exists path, label. do 2 (split; [done|]).
  assert (Hne : decoded capture path <> [] ->
    exists t, getitem px capture ds idx = Ok (t, label) /\
              shape t = [fixed_frame_count ds; 3; 224; 224]).
  { intros Hne.
    destruct (getitem_nonempty px capture ds idx path label Hpath Hlabel Hne)
      as (t & Hget & Hs & _). by exists t. }
  pose proof (getitem_empty px capture ds idx path label Hpath Hlabel) as Hnil.
  do 2 (split; [done|]).
  destruct (decide (decoded capture path = [])) as [He|He].
  - rewrite (Hnil He). by destruct (fixed_frame_count ds =? 0).
  - destruct (Hne He) as (t & -> & _). done.
Qed.

Lemma getitem_in_range_witness :
  length (labels (two_videos 5)) = length (video_paths (two_videos 5)) /\
  (- Z.of_nat (dataset_len (two_videos 5)) <= -2
   < Z.of_nat (dataset_len (two_videos 5)))%Z /\
  getitem black_px two_frames (two_videos 5) (-2) <> Raise IndexError.
Proof.
  assert (H1 : length (labels (two_videos 5))
               = length (video_paths (two_videos 5))) by reflexivity.
  assert (H2 : (- Z.of_nat (dataset_len (two_videos 5)) <= -2
                < Z.of_nat (dataset_len (two_videos 5)))%Z)
    by (vm_compute; split; [discriminate|reflexivity]).
  split; [exact H1|]. split; [exact H2|].
  destruct (getitem_in_range black_px two_frames (two_videos 5) (-2) H1 H2)
    as (path & label & _ & _ & _ & _ & Hno).
  exact Hno.
Defined.

(** ** Truncation *)

(** A four-dimensional tensor is determined by its entries. *)
Lemma ndarray_ext4 {A} (t1 t2 : ndarray A) (n c h w : nat) :
  shape t1 = [n; c; h; w] -> shape t2 = [n; c; h; w] ->
  wf_ndarray t1 -> wf_ndarray t2 ->
  (forall i j y x, i < n -> j < c -> y < h -> x < w ->
     get4 t1 i j y x = get4 t2 i j y x) ->
  t1 = t2.
Proof.
  intros Hs1 Hs2 Hwf1 Hwf2 Hget.
  unfold wf_ndarray in *. rewrite Hs1, numel4 in Hwf1.
  rewrite Hs2, numel4 in Hwf2.
  destruct t1 as [sh1 d1], t2 as [sh2 d2]. cbn [shape data] in *. subst.
  f_equal. apply list_eq. intros k.
  destruct (decide (k < n * (c * (h * w)))) as [Hk|Hk].
  2:{ rewrite !(proj2 (lookup_ge_None _ _)) by lia. done. }
  assert (w <> 0 /\ h <> 0 /\ c <> 0) as (Hw & Hh & Hc) by nia.
  set (x := k mod w). set (q1 := k / w).
  set (y := q1 mod h). set (q2 := q1 / h).
  set (j := q2 mod c). set (i := q2 / c).
  assert (k = ((i * c + j) * h + y) * w + x) as Hkeq.
  { unfold i, j, y, x, q2, q1.
    pose proof (Nat.div_mod_eq k w).
    pose proof (Nat.div_mod_eq (k / w) h).
    pose proof (Nat.div_mod_eq (k / w / h) c). nia. }
  assert (x < w) by (apply Nat.mod_upper_bound; done).
  assert (y < h) by (apply Nat.mod_upper_bound; done).
  assert (j < c) by (apply Nat.mod_upper_bound; done).
  assert (i < n) as Hi.
  { unfold i, q2, q1.
    apply Nat.Div0.div_lt_upper_bound, Nat.Div0.div_lt_upper_bound,
      Nat.Div0.div_lt_upper_bound. nia. }
  specialize (Hget i j y x Hi ltac:(done) ltac:(done) ltac:(done)).
  rewrite (get4_in_range _ n c h w) in Hget by done.
  rewrite (get4_in_range _ n c h w) in Hget by done.
  cbn [data] in Hget. by rewrite Hkeq.
Qed.

(** X4. [__getitem__] keeps the first [fixed_frame_count] frames and
    nothing else of a longer video: two videos of at least one frame that
    agree on their first F frames give the same item. *)
Theorem getitem_depends_on_first_frames {RawFrame : Type}
    (px : RawFrame -> nat * nat -> nat -> nat -> nat -> byte)
    (capture1 capture2 : pystr -> Capture RawFrame)
    (ds : VideoDataset) (idx : Z) (path : pystr) (label : nat) :
  py_index (video_paths ds) idx = Ok path ->
  py_index (labels ds) idx = Ok label ->
  decoded capture1 path <> [] ->
  decoded capture2 path <> [] ->
  take (fixed_frame_count ds) (decoded capture1 path)
    = take (fixed_frame_count ds) (decoded capture2 path) ->
  getitem px capture1 ds idx = getitem px capture2 ds idx.
Proof.
  intros Hpath Hlabel Hne1 Hne2 Htake.
  destruct (getitem_nonempty px capture1 ds idx path label Hpath Hlabel Hne1)
    as (t1 & -> & Hs1 & Hwf1 & Hg1).
  destruct (getitem_nonempty px capture2 ds idx path label Hpath Hlabel Hne2)
    as (t2 & -> & Hs2 & Hwf2 & Hg2).
  do 2 f_equal.
  apply (ndarray_ext4 t1 t2 (fixed_frame_count ds) 3 224 224); try done.
  intros i c y x Hi Hc Hy Hx.
  rewrite Hg1, Hg2 by done.
  assert (decoded capture1 path !! i = decoded capture2 path !! i) as ->; [|done].
  rewrite <- (lookup_take_lt (decoded capture1 path) (fixed_frame_count ds) i)
    by done.
  rewrite <- (lookup_take_lt (decoded capture2 path) (fixed_frame_count ds) i)
    by done.
  by rewrite Htake.
Qed.

Lemma getitem_depends_on_first_frames_witness :
  py_index (video_paths (one_video 2)) 0 = Ok (str "v.avi") /\
  py_index (labels (one_video 2)) 0 = Ok 0 /\
  decoded video_a (str "v.avi") <> [] /\
  decoded video_b (str "v.avi") <> [] /\
  take (fixed_frame_count (one_video 2)) (decoded video_a (str "v.avi"))
    = take (fixed_frame_count (one_video 2)) (decoded video_b (str "v.avi")) /\
  getitem numbered_px video_a (one_video 2) 0
  = getitem numbered_px video_b (one_video 2) 0.
Proof.
  split; [reflexivity|]. split; [reflexivity|]. split; [discriminate|].
  split; [discriminate|]. split; [reflexivity|].
  apply (getitem_depends_on_first_frames numbered_px video_a video_b
           (one_video 2) 0 (str "v.avi") 0);
    [reflexivity|reflexivity|discriminate|discriminate|reflexivity].
Defined.

(** ** Normalisation keeps the order of the pixel values *)

Lemma levels_check :
  forallb (fun p => forallb (pair_ok p) levels) levels = true.
Proof. vm_compute. reflexivity. Qed.

Lemma levels_spec (i j : nat) :
  i < 256 -> j < 256 ->
  pair_ok (i, normalize_level i) (j, normalize_level j) = true.
Proof.
  intros Hi Hj. pose proof levels_check as Hall.
  rewrite forallb_forall in Hall.
  assert (forall k, k < 256 -> In (k, normalize_level k) levels) as Hin.
  { intros k Hk. unfold levels. apply in_map_iff. exists k. split; [done|].
    apply in_seq. lia. }
  specialize (Hall _ (Hin i Hi)). rewrite forallb_forall in Hall.
  exact (Hall _ (Hin j Hj)).
Qed.

Lemma normalized_level (b : byte) :
  normalized b = normalize_level (Byte.to_nat b).
Proof.
  unfold normalized, normalize_level, f32_of_u8.
  by rewrite Byte.to_N_via_nat, nat_N_Z.
Qed.

(** X5. Dividing by 255 in binary32 keeps the pixels apart and in order: a
    smaller byte gives a strictly smaller float, so different bytes never
    give the same float; 0 gives exactly 0.0 and 255 exactly 1.0. *)
Theorem normalized_strictly_increasing (b1 b2 : byte) :
  Byte.to_nat b1 < Byte.to_nat b2 ->
  f32_ltb (normalized b1) (normalized b2) = true /\
  normalized b1 <> normalized b2 /\
  normalized x00 = f32_zero /\
  normalized xff = f32_one.
Proof.
  intros Hlt.
  pose proof (Byte.to_nat_bounded b1) as Hb1.
  pose proof (Byte.to_nat_bounded b2) as Hb2.
  pose proof (levels_spec (Byte.to_nat b1) (Byte.to_nat b2)
                ltac:(lia) ltac:(lia)) as Hok.
  unfold pair_ok in Hok. cbn [fst snd] in Hok.
  apply andb_prop in Hok as [Himp Hirr].
  rewrite (proj2 (Nat.ltb_lt _ _) Hlt) in Himp. cbn [implb] in Himp.
  rewrite !normalized_level.
  split; [exact Himp|]. split.
  - intros Heq. rewrite Heq in Himp. rewrite Himp in Hirr. discriminate Hirr.
  - rewrite <- !normalized_level. split; vm_compute; reflexivity.
Qed.

Lemma normalized_strictly_increasing_witness :
  Byte.to_nat x7f < Byte.to_nat x80 /\
  f32_ltb (normalized x7f) (normalized x80) = true /\
  normalized x7f <> normalized x80.
Proof.
  assert (H : Byte.to_nat x7f < Byte.to_nat x80) by (vm_compute; lia).
  split; [exact H|].
  destruct (normalized_strictly_increasing x7f x80 H) as (H1 & H2 & _).
  split; [exact H1|exact H2].
Defined.

(** ** The forward pass, for every shape *)

(** X6. The forward pass returns for exactly one kind of input: five axes,
    a non-empty batch of non-empty sequences, and frames whose flattened
    size [c * h * w] is the [input_size] of the LSTM; what it returns then
    has the shape (batch, num_classes), whatever the sequence length and the
    hidden size.  Every other input raises: [ValueError] when the axes are
    not five, [RuntimeError] otherwise. *)
Theorem forward_closed_form (self : VideoLSTMTransformerModel) (x : Shape) :
  forward self x =
    match x with
    | [b; t; c; h; w] =>
        if b * t =? 0 then Raise RuntimeError
        else if c * h * w =? input_size self
             then Ok [b; num_classes self]
             else Raise RuntimeError
    | _ => Raise ValueError
    end.
Proof.
  destruct x as [|b [|t [|c [|h [|w [|extra x]]]]]]; try reflexivity.
  destruct (Nat.eqb_spec (b * t) 0) as [Hz|Hnz].
  - by apply forward_empty.
  - by apply forward_spec.
Qed.

(** ** The labels and the order of the split *)

Lemma dict_set_elem {K V} `{EqDecision K} (d : list (K * V)) (k k' : K)
    (v v' : V) :
  (k', v') ∈ dict_set d k v -> (k' = k /\ v' = v) \/ (k', v') ∈ d.
Proof.
  induction d as [|[k0 v0] d IH]; cbn [dict_set].
  - intros Hin. apply list_elem_of_singleton in Hin. left. by injection Hin.
  - destruct (decide (k = k0)) as [->|Hne]; intros Hin.
    + apply elem_of_cons in Hin as [Heq|Hin].
      * left. by injection Heq.
      * right. by right.
    + apply elem_of_cons in Hin as [Heq|Hin].
      * right. rewrite Heq. left.
      * destruct (IH Hin) as [?|?]; [by left|right; by right].
Qed.

Lemma foldl_labels_index (names done_names : list pystr)
    (d : list (pystr * nat)) :
  (forall k v, (k, v) ∈ d -> (done_names ++ names) !! v = Some k) ->
  forall k v,
    (k, v) ∈ foldl (fun d '(idx, class_name) => dict_set d class_name idx) d
               (imap (fun idx x => (length done_names + idx, x)) names) ->
    (done_names ++ names) !! v = Some k.
Proof.
  revert done_names d.
  induction names as [|n names IH]; intros done_names d Hd k v Hin.
  - cbn in Hin. by apply Hd.
  - cbn [imap foldl] in Hin. rewrite Nat.add_0_r in Hin.
    rewrite (imap_ext _ (fun idx x => (length (done_names ++ [n]) + idx, x)))
      in Hin by (intros; cbn; rewrite length_app; cbn; f_equal; lia).
    replace (done_names ++ n :: names) with ((done_names ++ [n]) ++ names)
      by (by rewrite <- app_assoc).
    apply (IH (done_names ++ [n]) (dict_set d n (length done_names)));
      [|done].
    intros k' v' Hin'. rewrite <- app_assoc. cbn [app].
    apply dict_set_elem in Hin' as [[-> ->]|Hin'].
    + by rewrite list_lookup_middle.
    + by apply Hd.
Qed.

(** Every entry of the dictionary maps a class name to a position at which
    the list of class names has that name. *)
Lemma label_dict_of_index (names : list pystr) (k : pystr) (v : nat) :
  (k, v) ∈ label_dict_of names -> names !! v = Some k.
Proof.
  intros Hin.
  apply (foldl_labels_index names [] []); [|exact Hin].
  intros k' v' H'. by apply elem_of_nil in H'.
Qed.

Lemma all_videos_provenance (listdir : pystr -> result (list pystr))
    (video_folder : pystr) (items : list (pystr * nat))
    (videos : list (pystr * nat)) :
  all_videos listdir video_folder items = Ok videos ->
  forall p l, (p, l) ∈ videos ->
    exists video_class names video_name,
      (video_class, l) ∈ items /\
      listdir (path_join video_folder video_class) = Ok names /\
      video_name ∈ names /\
      is_avi video_name = true /\
      p = path_join (path_join video_folder video_class) video_name.
Proof.
  revert videos. induction items as [|[video_class label] items IH];
    intros videos Hall p l Hin.
  - injection Hall as <-. by apply elem_of_nil in Hin.
  - cbn [all_videos] in Hall.
    destruct (listdir (path_join video_folder video_class)) as [names|e]
      eqn:Hdir; [|done].
    cbn [mbind result_bind] in Hall.
    destruct (all_videos listdir video_folder items) as [rest|e]; [|done].
    cbn [mbind result_bind] in Hall. injection Hall as <-.
    apply elem_of_app in Hin as [Hin|Hin].
    + unfold class_videos in Hin.
      apply list_elem_of_fmap in Hin as (n & Heq & Hn).
      injection Heq as -> ->.
      apply list_elem_of_filter in Hn as [Havi Hn].
      exists video_class, names, n. split; [left|done].
    + destruct (IH rest eq_refl p l Hin) as (c & ns & n & Hc & ?).
      exists c, ns, n. split; [by right|done].
Qed.

Lemma routed_subseteq (b : bool) (videos : list (pystr * nat))
    (us : list f64) (v : pystr * nat) :
  v ∈ routed b videos us -> v ∈ videos.
Proof.
  unfold routed. intros Hv.
  apply list_elem_of_fmap in Hv as ([v' u] & -> & Hvu).
  apply list_elem_of_filter in Hvu as [_ Hvu].
  by apply elem_of_zip_l in Hvu.
Qed.

(** X7. Every pair of a returned path and its label is true to the
    directory tree: the label is the position of a class folder in the
    sorted list of class folders, hence below their number, and the path
    is that folder joined with one of the [.avi] names listed in it. *)
Theorem prepare_data_labels_are_folders
    (listdir : pystr -> result (list pystr)) (isdir : pystr -> bool)
    {Rng : Type} (rand : Rng -> f64 * Rng)
    (video_folder : pystr) (g g' : Rng) (s : Split)
    (entries : list pystr) :
  listdir video_folder = Ok entries ->
  prepare_data listdir isdir rand video_folder g = Ok (s, g') ->
  forall p l,
    (p, l) ∈ zip (train_paths s) (train_labels s)
             ++ zip (test_paths s) (test_labels s) ->
    exists video_class names video_name,
      class_names_of isdir video_folder entries !! l = Some video_class /\
      l < length (class_names_of isdir video_folder entries) /\
      isdir (path_join video_folder video_class) = true /\
      listdir (path_join video_folder video_class) = Ok names /\
      video_name ∈ names /\
      endswith video_name (str ".avi") = true /\
      p = path_join (path_join video_folder video_class) video_name.
Proof.
  intros Hdir Hrun p l Hin.
  rewrite prepare_data_spec, Hdir in Hrun. cbn [mbind result_bind] in Hrun.
  destruct (all_videos _ _ _) as [videos|e] eqn:Hall; [|done].
  cbn [mbind result_bind] in Hrun. injection Hrun as <- _.
  unfold split_of in Hin.
  cbn [train_paths test_paths train_labels test_labels] in Hin.
  rewrite !zip_fst_snd in Hin.
  assert ((p, l) ∈ videos) as Hv.
  { apply elem_of_app in Hin as [Hin|Hin]; by eapply routed_subseteq. }
  destruct (all_videos_provenance listdir video_folder _ videos Hall p l Hv)
    as (c & names & n & Hc & Hnames & Hn & Havi & ->).
  apply label_dict_of_index in Hc.
  exists c, names, n. split; [done|].
  split; [by eapply lookup_lt_Some|].
  split; [|done].
  apply list_elem_of_lookup_2 in Hc.
  destruct (class_names_sorted isdir video_folder entries) as [_ Hperm].
  rewrite Hperm in Hc. by apply list_elem_of_filter in Hc as [Hc _].
Qed.

Lemma prepare_data_labels_are_folders_witness :
  sample_listdir (str "root") = Ok [str "b"; str "a"; str "f.txt"] /\
  prepare_data sample_listdir sample_isdir sample_rand (str "root") 0
    = Ok (mk_Split [str "root/a/x.avi"; str "root/b/z.avi"]
                   [str "root/b/y.avi"] [0; 1] [1], 3) /\
  exists video_class names video_name,
    class_names_of sample_isdir (str "root")
      [str "b"; str "a"; str "f.txt"] !! 1 = Some video_class /\
    1 < length (class_names_of sample_isdir (str "root")
                  [str "b"; str "a"; str "f.txt"]) /\
    sample_isdir (path_join (str "root") video_class) = true /\
    sample_listdir (path_join (str "root") video_class) = Ok names /\
    video_name ∈ names /\
    endswith video_name (str ".avi") = true /\
    str "root/b/y.avi"
      = path_join (path_join (str "root") video_class) video_name.
Proof.
  assert (H1 : sample_listdir (str "root")
               = Ok [str "b"; str "a"; str "f.txt"]) by reflexivity.
  assert (H2 : prepare_data sample_listdir sample_isdir sample_rand
                 (str "root") 0
               = Ok (mk_Split [str "root/a/x.avi"; str "root/b/z.avi"]
                       [str "root/b/y.avi"] [0; 1] [1], 3))
    by (vm_compute; reflexivity).
  split; [exact H1|]. split; [exact H2|].
  apply (prepare_data_labels_are_folders sample_listdir sample_isdir
           sample_rand (str "root") 0 3 _ _ H1 H2 (str "root/b/y.avi") 1).
  cbn [train_paths test_paths train_labels test_labels].
  apply elem_of_app. right. left.
Defined.

Lemma all_videos_ext (listdir1 listdir2 : pystr -> result (list pystr))
    (video_folder : pystr) (items : list (pystr * nat)) :
  (forall c l, (c, l) ∈ items ->
     listdir1 (path_join video_folder c) = listdir2 (path_join video_folder c)) ->
  all_videos listdir1 video_folder items = all_videos listdir2 video_folder items.
Proof.
  induction items as [|[c l] items IH]; intros Hagree; [done|].
  cbn [all_videos]. rewrite (Hagree c l) by left.
  rewrite IH; [done|]. intros c' l' Hin. apply (Hagree c' l'). by right.
Qed.

(** X8. [prepare_data] lists the root and the class folders and nothing
    else: two directory trees that agree on the entries of the root and on
    the listing of every entry that is a directory give the same result,
    whatever they say about the other paths. *)
Theorem prepare_data_lists_only_class_folders
    (listdir1 listdir2 : pystr -> result (list pystr)) (isdir : pystr -> bool)
    {Rng : Type} (rand : Rng -> f64 * Rng)
    (video_folder : pystr) (g : Rng) (entries : list pystr) :
  listdir1 video_folder = Ok entries ->
  listdir2 video_folder = Ok entries ->
  (forall folder, folder ∈ entries ->
     isdir (path_join video_folder folder) = true ->
     listdir1 (path_join video_folder folder)
     = listdir2 (path_join video_folder folder)) ->
  prepare_data listdir1 isdir rand video_folder g
  = prepare_data listdir2 isdir rand video_folder g.
Proof.
  intros H1 H2 Hagree. rewrite !prepare_data_spec, H1, H2.
  cbn [mbind result_bind].
  rewrite (all_videos_ext listdir1 listdir2); [done|].
  intros c l Hin. apply label_dict_of_index, list_elem_of_lookup_2 in Hin.
  destruct (class_names_sorted isdir video_folder entries) as [_ Hperm].
  rewrite Hperm in Hin. apply list_elem_of_filter in Hin as [Hdir Hin].
  by apply Hagree.
Qed.

Lemma prepare_data_lists_only_class_folders_witness :
  sample_listdir (str "root") = Ok [str "b"; str "a"; str "f.txt"] /\
  sample_listdir2 (str "root") = Ok [str "b"; str "a"; str "f.txt"] /\
  sample_listdir (str "root/f.txt") <> sample_listdir2 (str "root/f.txt") /\
  prepare_data sample_listdir sample_isdir sample_rand (str "root") 0
  = prepare_data sample_listdir2 sample_isdir sample_rand (str "root") 0.
Proof.
  split; [reflexivity|]. split; [reflexivity|]. split; [discriminate|].
  apply (prepare_data_lists_only_class_folders sample_listdir sample_listdir2
           sample_isdir sample_rand (str "root") 0
           [str "b"; str "a"; str "f.txt"]); [reflexivity|reflexivity|].
  intros folder Hin Hdir.
  repeat (apply elem_of_cons in Hin as [->|Hin]; [by vm_compute in Hdir |- *|]).
  by apply elem_of_nil in Hin.
Defined.

Lemma StronglySorted_sublist {A} (R : relation A) (k l : list A) :
  sublist k l -> StronglySorted R l -> StronglySorted R k.
Proof.
  induction 1 as [|x k l Hsub IH|x k l Hsub IH]; intros Hl.
  - constructor.
  - apply StronglySorted_inv in Hl as [Hl Hx].
    constructor; [by apply IH|].
    apply Forall_forall. intros y Hy. rewrite Forall_forall in Hx.
    apply Hx. by apply (sublist_subseteq _ _ Hsub).
  - apply StronglySorted_inv in Hl as [Hl _]. by apply IH.
Qed.

Lemma class_videos_labels (class_path : pystr) (label : nat)
    (names : list pystr) :
  Forall (fun l => l = label) (class_videos class_path label names).*2.
Proof.
  unfold class_videos. apply Forall_forall. intros l Hl.
  apply list_elem_of_fmap in Hl as ([p l'] & -> & Hin).
  apply list_elem_of_fmap in Hin as (n & Heq & _). by injection Heq.
Qed.

Lemma all_videos_labels_sorted (listdir : pystr -> result (list pystr))
    (video_folder : pystr) (names : list pystr) (k : nat)
    (videos : list (pystr * nat)) :
  all_videos listdir video_folder (labels_from k names) = Ok videos ->
  StronglySorted le videos.*2 /\ Forall (fun l => k <= l) videos.*2.
Proof.
  revert k videos. induction names as [|n names IH]; intros k videos Hall.
  - injection Hall as <-. split; constructor.
  - cbn [labels_from all_videos] in Hall.
    destruct (listdir (path_join video_folder n)) as [ns|e]; [|done].
    cbn [mbind result_bind] in Hall.
    destruct (all_videos listdir video_folder (labels_from (S k) names))
      as [rest|e] eqn:Hrest; [|done].
    cbn [mbind result_bind] in Hall. injection Hall as <-.
    destruct (IH (S k) rest Hrest) as [Hsorted Hge].
    pose proof (class_videos_labels (path_join video_folder n) k ns) as Hk.
    rewrite fmap_app. rewrite Forall_forall in Hk, Hge. split.
    + apply StronglySorted_app. split; [|split; [|done]].
      * intros x1 x2 H1 H2. rewrite (Hk x1 H1). specialize (Hge x2 H2). lia.
      * induction ((class_videos (path_join video_folder n) k ns).*2)
          as [|x l IHl]; constructor.
        -- apply IHl. intros y Hy. apply Hk. by right.
        -- apply Forall_forall. intros y Hy.
           rewrite (Hk x) by left. rewrite (Hk y) by (by right). done.
    + apply Forall_forall. intros l Hl.
      apply elem_of_app in Hl as [Hl|Hl].
      * by rewrite (Hk l Hl).
      * specialize (Hge l Hl). lia.
Qed.

Lemma routed_sublist (b : bool) (videos : list (pystr * nat))
    (us : list f64) :
  length us = length videos -> sublist (routed b videos us) videos.
Proof.
  intros Hlen. unfold routed.
  rewrite <- (fst_zip videos us) at 2 by lia.
  apply fmap_sublist, sublist_filter.
Qed.

(** X9. The classes are visited in the order of their labels, so in each of
    the two label lists the labels never decrease: all videos of class 0
    come first, then those of class 1, and so on. *)
Theorem prepare_data_labels_sorted
    (listdir : pystr -> result (list pystr)) (isdir : pystr -> bool)
    {Rng : Type} (rand : Rng -> f64 * Rng)
    (video_folder : pystr) (g g' : Rng) (s : Split)
    (entries : list pystr) :
  listdir video_folder = Ok entries ->
  NoDup entries ->
  prepare_data listdir isdir rand video_folder g = Ok (s, g') ->
  StronglySorted le (train_labels s) /\ StronglySorted le (test_labels s).
Proof.
  intros Hdir Hnd Hrun.
  rewrite prepare_data_spec, Hdir in Hrun. cbn [mbind result_bind] in Hrun.
  destruct (all_videos _ _ _) as [videos|e] eqn:Hall; [|done].
  cbn [mbind result_bind] in Hrun. injection Hrun as <- _.
  destruct (class_names_sorted isdir video_folder entries) as [_ Hperm].
  rewrite label_dict_of_labels_from in Hall
    by (rewrite Hperm; by apply NoDup_filter).
  apply all_videos_labels_sorted in Hall as [Hsorted _].
  pose proof (draws_length rand (length videos) g) as Hlen.
  unfold split_of. cbn [train_labels test_labels].
  split; (eapply StronglySorted_sublist; [|exact Hsorted]);
    by apply fmap_sublist, routed_sublist.
Qed.

Lemma prepare_data_labels_sorted_witness :
  sample_listdir (str "root") = Ok [str "b"; str "a"; str "f.txt"] /\
  NoDup [str "b"; str "a"; str "f.txt"] /\
  prepare_data sample_listdir sample_isdir sample_rand (str "root") 0
    = Ok (mk_Split [str "root/a/x.avi"; str "root/b/z.avi"]
                   [str "root/b/y.avi"] [0; 1] [1], 3) /\
  StronglySorted le [0; 1] /\ StronglySorted le [1].
Proof.
  assert (H1 : sample_listdir (str "root")
               = Ok [str "b"; str "a"; str "f.txt"]) by reflexivity.
  assert (H2 : NoDup [str "b"; str "a"; str "f.txt"])
    by (apply (bool_decide_unpack _); vm_compute; exact I).
  assert (H3 : prepare_data sample_listdir sample_isdir sample_rand
                 (str "root") 0
               = Ok (mk_Split [str "root/a/x.avi"; str "root/b/z.avi"]
                       [str "root/b/y.avi"] [0; 1] [1], 3))
    by (vm_compute; reflexivity).
  split; [exact H1|]. split; [exact H2|]. split; [exact H3|].
  exact (prepare_data_labels_sorted sample_listdir sample_isdir sample_rand
           (str "root") 0 3 _ _ H1 H2 H3).
Defined.

(** X10. A root that lists no directory gives no class: [prepare_data]
    returns four empty lists without listing anything else and without
    drawing a number, also when the root is full of [.avi] files. *)
Theorem prepare_data_no_class_folder
    (listdir : pystr -> result (list pystr)) (isdir : pystr -> bool)
    {Rng : Type} (rand : Rng -> f64 * Rng)
    (video_folder : pystr) (g : Rng) (entries : list pystr) :
  listdir video_folder = Ok entries ->
  (forall folder, folder ∈ entries ->
     isdir (path_join video_folder folder) = false) ->
  prepare_data listdir isdir rand video_folder g
  = Ok (mk_Split [] [] [] [], g).
Proof.
  intros Hdir Hno.
  assert (forall l : list pystr,
    (forall folder, folder ∈ l ->
       isdir (path_join video_folder folder) = false) ->
    filter (fun folder => isdir (path_join video_folder folder) = true) l
    = []) as Hnil.
  { induction l as [|e l IH]; intros Hl; [done|].
    rewrite filter_cons, decide_False.
    - apply IH. intros folder Hin. apply Hl. by right.
    - rewrite (Hl e) by left. done. }
  unfold prepare_data. rewrite Hdir.
  cbn [mbind result_bind]. unfold class_names_of.
  by rewrite (Hnil entries Hno).
Qed.

Lemma prepare_data_no_class_folder_witness :
  flat_listdir (str "root") = Ok [str "x.avi"; str "f.txt"] /\
  (forall folder, folder ∈ [str "x.avi"; str "f.txt"] ->
     no_isdir (path_join (str "root") folder) = false) /\
  prepare_data flat_listdir no_isdir sample_rand (str "root") 0
  = Ok (mk_Split [] [] [] [], 0).
Proof.
  split; [reflexivity|]. split; [intros folder _; reflexivity|].
  apply (prepare_data_no_class_folder flat_listdir no_isdir sample_rand
           (str "root") 0 [str "x.avi"; str "f.txt"]);
    [reflexivity|intros folder _; reflexivity].
Defined.

Lemma routed_all_train (videos : list (pystr * nat)) (us : list f64) :
  length us = length videos ->
  Forall (fun u => f64_ltb u f64_0_8 = true) us ->
  routed true videos us = videos /\ routed false videos us = [].
Proof.
  revert us. induction videos as [|v videos IH]; intros us Hlen Hall.
  - by destruct us.
  - destruct us as [|u us]; [done|].
    apply Forall_cons in Hall as [Hu Hall].
    cbn [length] in Hlen. injection Hlen as Hlen.
    destruct (IH us Hlen Hall) as [Htr Hte].
    rewrite !routed_cons. unfold to_train. rewrite Hu.
    rewrite decide_True by done. rewrite decide_False by done.
    by rewrite Htr, Hte.
Qed.

(** X11. Nothing keeps the test set from being empty: when every draw is
    below 0.8, all the enumerated videos go to the train lists, in
    enumeration order, the test lists are empty, and [test_model] over a
    loader of that test set raises [ZeroDivisionError]. *)
Theorem prepare_data_test_set_can_be_empty
    (listdir : pystr -> result (list pystr)) (isdir : pystr -> bool)
    {Rng : Type} (rand : Rng -> f64 * Rng)
    (video_folder : pystr) (g : Rng)
    (entries : list pystr) (videos : list (pystr * nat))
    {Params Optim Row : Type}
    (apply_model : Params -> bool -> ndarray f32 -> result (list Row))
    (argmax : Row -> nat) (w : World Params Optim) :
  listdir video_folder = Ok entries ->
  all_videos listdir video_folder
    (label_dict_of (class_names_of isdir video_folder entries)) = Ok videos ->
  Forall (fun u => f64_ltb u f64_0_8 = true)
         (draws rand (length videos) g).1 ->
  exists s g',
    prepare_data listdir isdir rand video_folder g = Ok (s, g') /\
    zip (train_paths s) (train_labels s) = videos /\
    test_paths s = [] /\ test_labels s = [] /\
    forall dl, dl_len dl = length (test_paths s) ->
      (test_model apply_model argmax
         (iter_DataLoader dl (sequential dl)) w).1
      = Raise ZeroDivisionError.
Proof.
  intros Hdir Hall Hlow.
  pose proof (draws_length rand (length videos) g) as Hlen.
  destruct (routed_all_train videos _ Hlen Hlow) as [Htr Hte].
  eexists _, _. split.
  { rewrite prepare_data_spec, Hdir. cbn [mbind result_bind].
    rewrite Hall. reflexivity. }
  unfold split_of. cbn [train_paths test_paths train_labels test_labels].
  rewrite zip_fst_snd, Htr, Hte. do 3 (split; [done|]).
  intros dl Hdl. unfold sequential. rewrite Hdl. done.
Qed.

Lemma prepare_data_test_set_can_be_empty_witness :
  sample_listdir (str "root") = Ok [str "b"; str "a"; str "f.txt"] /\
  Forall (fun u => f64_ltb u f64_0_8 = true) (draws low_rand 3 0).1 /\
  exists s g',
    prepare_data sample_listdir sample_isdir low_rand (str "root") 0
      = Ok (s, g') /\
    zip (train_paths s) (train_labels s)
      = [(str "root/a/x.avi", 0); (str "root/b/y.avi", 1);
         (str "root/b/z.avi", 1)] /\
    test_paths s = [] /\ test_labels s = [] /\
    forall dl, dl_len dl = length (test_paths s) ->
      (test_model toy_model id (iter_DataLoader dl (sequential dl))
         toy_world).1
      = Raise ZeroDivisionError.
Proof.
  assert (H1 : sample_listdir (str "root")
               = Ok [str "b"; str "a"; str "f.txt"]) by reflexivity.
  assert (H2 : all_videos sample_listdir (str "root")
    (label_dict_of
       (class_names_of sample_isdir (str "root")
          [str "b"; str "a"; str "f.txt"]))
    = Ok [(str "root/a/x.avi", 0); (str "root/b/y.avi", 1);
          (str "root/b/z.avi", 1)]) by (vm_compute; reflexivity).
  assert (H3 : Forall (fun u => f64_ltb u f64_0_8 = true)
                      (draws low_rand 3 0).1)
    by (repeat constructor).
  split; [exact H1|]. split; [exact H3|].
  exact (prepare_data_test_set_can_be_empty sample_listdir sample_isdir
           low_rand (str "root") 0 _ _ toy_model id toy_world H1 H2 H3).
Defined.

(** ** The batches of a loader *)

Lemma chunks_aux_bounds {A} (fuel n : nat) (l : list A) :
  n <> 0 -> length l <= fuel ->
  length l <= length (chunks_aux fuel n l) * n /\
  length (chunks_aux fuel n l) * n < length l + n /\
  Forall (fun c => 0 < length c <= n) (chunks_aux fuel n l).
Proof.
  intros Hn. revert l. induction fuel as [|fuel IH]; intros l Hl.
  - destruct l; [|cbn in Hl; lia]. cbn. split; [lia|]. split; [lia|done].
  - destruct l as [|x l].
    + cbn. split; [lia|]. split; [lia|done].
    + cbn [chunks_aux].
      destruct (IH (drop n (x :: l))) as (H1 & H2 & H3).
      { rewrite length_drop. cbn [length] in *. lia. }
      rewrite length_drop in H1, H2.
      set (k := length (chunks_aux fuel n (drop n (x :: l)))) in *.
      cbn [length] in *. fold k. split; [nia|]. split.
      * destruct (decide (n <= S (length l))); [nia|].
        assert (k = 0) as Hk by nia. fold k. rewrite Hk. cbn. lia.
      * constructor; [|done]. rewrite length_take. cbn [length]. lia.
Qed.

(** X12. A pass over a loader yields ceil(N / batch_size) batches for the N
    indices of its sampler, the number that [len(train_loader)] divides the
    running loss by; every batch that arrives holds at least one and at
    most [batch_size] labels. *)
Theorem iter_DataLoader_batches (dl : DataLoader) (order : list nat) :
  dl_batch_size dl <> 0 ->
  length (iter_DataLoader dl order)
    = (length order + dl_batch_size dl - 1) / dl_batch_size dl /\
  Forall (fun b => forall inputs labels, b = Ok (inputs, labels) ->
            0 < length labels <= dl_batch_size dl)
         (iter_DataLoader dl order).
Proof.
  intros Hbs. unfold iter_DataLoader, chunks.
  destruct (chunks_aux_bounds (length order) (dl_batch_size dl) order Hbs
              ltac:(done)) as (H1 & H2 & H3).
  rewrite length_map. split.
  - set (k := length (chunks_aux (length order) (dl_batch_size dl) order)) in *.
    apply (Nat.div_unique _ _ _
             (length order + dl_batch_size dl - 1 - k * dl_batch_size dl));
      lia.
  - apply Forall_fmap. eapply Forall_impl; [exact H3|].
    intros idxs Hidxs inputs labels Hb. cbn in Hb.
    destruct (mapM (dl_getitem dl) idxs) as [samples|e] eqn:Hm; [|done].
    cbn [mbind result_bind] in Hb.
    apply default_collate_labels in Hb as [-> _].
    rewrite length_fmap, (mapM_Ok_length _ _ _ Hm). done.
Qed.

Lemma iter_DataLoader_batches_witness :
  dl_batch_size toy_loader <> 0 /\
  length (iter_DataLoader toy_loader [0; 1; 2]) = 2 /\
  (3 + dl_batch_size toy_loader - 1) / dl_batch_size toy_loader = 2.
Proof.
  assert (H : dl_batch_size toy_loader <> 0) by discriminate.
  split; [exact H|].
  destruct (iter_DataLoader_batches toy_loader [0; 1; 2] H) as [Hlen _].
  split; [|reflexivity]. rewrite Hlen. reflexivity.
Defined.

(** ** Exceptions on the way to the model *)

Lemma mapM_Raise {A B} (f : A -> result B) (l : list A) (i : A) (e : exn) :
  i ∈ l -> f i = Raise e -> exists e', mapM f l = Raise e'.
Proof.
  intros Hin Hf. induction l as [|x l IH]; [by apply elem_of_nil in Hin|].
  cbn [mapM]. destruct (f x) as [y|e'] eqn:Hx; [|by exists e'].
  apply elem_of_cons in Hin as [->|Hin]; [congruence|].
  destruct (IH Hin) as [e' ->]. by exists e'.
Qed.

(** A pass over a loader delivers an exception in place of the batch that
    holds an index whose item cannot be fetched. *)
Lemma iter_DataLoader_Raise (dl : DataLoader) (order : list nat) (i : nat)
    (e : exn) :
  dl_batch_size dl <> 0 -> i ∈ order -> dl_getitem dl i = Raise e ->
  exists e', Raise e' ∈ iter_DataLoader dl order.
Proof.
  intros Hbs Hin Hi.
  rewrite <- (chunks_concat (dl_batch_size dl) order Hbs) in Hin.
  apply list_elem_of_In, in_concat in Hin as (idxs & Hidxs & Hi').
  apply list_elem_of_In in Hidxs, Hi'.
  destruct (mapM_Raise (dl_getitem dl) idxs i e Hi' Hi) as [e' He'].
  exists e'. unfold iter_DataLoader.
  apply list_elem_of_fmap. exists idxs. split; [|done].
  by rewrite He'.
Qed.

Section Loops_more.

Context {Params Optim Row Float : Type}.
Variable apply_model : Params -> bool -> ndarray f32 -> result (list Row).
Variable argmax : Row -> nat.
Variable nll : list Row -> list nat -> result Float.
Variable optimizer_step :
  Params -> Optim -> ndarray f32 -> list nat -> result (Params * Optim).
Variable float_zero : Float.
Variable float_add : Float -> Float -> Float.
Variable float_div : Float -> nat -> Float.

(** A first epoch in which a batch does not arrive ends the run before any
    epoch is complete. *)
Lemma train_model_batch_missing (train_loader : nat -> list (result Batch))
    (epochs : nat) (w : World Params Optim) (e : exn) :
  Raise e ∈ train_loader 0 -> 0 < epochs ->
  exists e' w',
    train_model apply_model argmax nll optimizer_step float_zero float_add
      float_div epochs train_loader w = (Raise e', w') /\
    exists evs, trace w' = trace w ++ evs /\ epoch_ends evs = [].
Proof.
  intros Hin Hep. destruct epochs as [|n]; [lia|].
  unfold train_model. cbn [train_epochs].
  unfold mbind, M_bind, set_training, emit, lift.
  destruct (train_batches _ _ _ _ _ _ _ _ _ _) as [r1 w1] eqn:Hb.
  apply train_batches_inv in Hb as (_ & _ & Hevs & Hr1).
  cbn [params optim training grad_enabled trace] in *.
  destruct r1 as [[[rl c] t]|e1].
  - destruct Hr1 as (Hall & _). rewrite Forall_forall in Hall.
    by specialize (Hall _ Hin).
  - by exists e1, w1.
Qed.

(** What [train_batches] does with batches that are all trainable. *)
Lemma train_batches_trainable (batches : list (result Batch))
    (running_loss : Float) (correct total : nat) (w : World Params Optim) :
  Forall (trainable apply_model nll optimizer_step) batches ->
  training w = true ->
  grad_enabled w = true ->
  exists running_loss' correct' w',
    train_batches apply_model argmax nll optimizer_step float_add
      batches running_loss correct total w
    = (Ok (running_loss', correct', total + n_samples batches), w') /\
    correct <= correct' /\
    correct' + total <= correct + (total + n_samples batches) /\
    training w' = true /\ grad_enabled w' = grad_enabled w /\
    trace w' = trace w ++ forward_events (grad_enabled w) batches.
Proof.
  revert running_loss correct total w.
  induction batches as [|b batches IH]; intros rl c t w Hall Htr Hgr.
  - exists rl, c, w. cbn. rewrite Nat.add_0_r, app_nil_r.
    split; [done|]. split; [done|]. split; [lia|done].
  - apply Forall_cons in Hall as [(inputs & labels & -> & Hp) Hall].
    destruct (Hp (params w) (optim w))
      as (outputs & loss & Hm & Hlen & Hloss & Hstep).
    cbn [train_batches].
    unfold mbind, M_bind, lift, call_model, backward_and_step, criterion.
    rewrite Htr, Hgr, Hm, Hlen, Nat.eqb_refl, Hloss.
    cbn [params optim training grad_enabled trace].
    destruct (optimizer_step (params w) (optim w) inputs labels)
      as [[p o]|e]; [|done].
    rewrite count_eq_same_length by (by rewrite length_map).
    match goal with |- context [train_batches _ _ _ _ _ _ ?rl1 ?c1 ?t1 ?w1] =>
      destruct (IH rl1 c1 t1 w1 Hall eq_refl eq_refl)
        as (rl' & c' & w' & Hrun & Hc1 & Hc2 & Htr' & Hg' & Htrace)
    end.
    cbn [params optim training grad_enabled trace] in *.
    pose proof (hits_le (map argmax outputs) labels) as Hh.
    change (n_samples (Ok (inputs, labels) :: batches))
      with (length labels + n_samples batches).
    exists rl', c', w'. rewrite Hrun, Nat.add_assoc.
    split; [done|]. split; [lia|]. split; [lia|]. do 2 (split; [done|]).
    rewrite Htrace, <- app_assoc. done.
Qed.

Lemma forward_calls_app (evs1 evs2 : list Event) :
  forward_calls (evs1 ++ evs2) = forward_calls evs1 ++ forward_calls evs2.
Proof. unfold forward_calls. apply flat_map_app. Qed.

Lemma forward_calls_forward_events (grad : bool)
    (batches : list (result Batch)) :
  forward_calls (forward_events grad batches) = forward_events grad batches /\
  epoch_ends (forward_events grad batches) = [].
Proof.
  induction batches as [|[[x labels]|e] batches [IH1 IH2]]; [done| |done].
  cbn. unfold forward_calls, epoch_ends, forward_events in *. cbn.
  by rewrite IH1, IH2.
Qed.

Lemma n_samples_pos_length (batches : list (result Batch)) :
  0 < n_samples batches -> length batches <> 0.
Proof. destruct batches; [unfold n_samples; cbn; lia|done]. Qed.

(** The epochs over loaders whose batches are all trainable and hold at
    least one sample. *)
Lemma train_epochs_trainable (train_loader : nat -> list (result Batch)) :
  (forall e, Forall (trainable apply_model nll optimizer_step)
                    (train_loader e)) ->
  (forall e, 0 < n_samples (train_loader e)) ->
  forall (n epoch : nat) (losses : list Float) (accs : list f64)
         (w : World Params Optim),
  grad_enabled w = true ->
  exists losses' accs' w' evs,
    train_epochs apply_model argmax nll optimizer_step float_zero float_add
      float_div train_loader epoch n losses accs w
    = (Ok (losses', accs'), w') /\
    length losses' = length losses + n /\
    length accs' = length accs + n /\
    grad_enabled w' = grad_enabled w /\
    training w' = (if n =? 0 then training w else true) /\
    trace w' = trace w ++ evs /\
    forward_calls evs
      = flat_map (fun e => forward_events (grad_enabled w) (train_loader e))
                 (seq epoch n) /\
    (epoch_ends evs).*2
      = map (fun e => n_samples (train_loader e)) (seq epoch n).
Proof.
  intros Hall Hpos n.
  induction n as [|n IH]; intros epoch losses accs w Hgr.
  - exists losses, accs, w, []. cbn. rewrite !Nat.add_0_r, app_nil_r. done.
  - cbn [train_epochs]. unfold mbind, M_bind, set_training, emit, lift.
    match goal with |- context [train_batches _ _ _ _ _ _ ?rl1 ?c1 ?t1 ?w1] =>
      destruct (train_batches_trainable (train_loader epoch) rl1 c1 t1 w1
                  (Hall epoch) eq_refl Hgr)
        as (rl & c & w1' & Hrun & _ & Hct & Htr & Hg & Htrace)
    end.
    cbn [params optim training grad_enabled trace Nat.add] in *.
    rewrite Hrun. cbn [params optim training grad_enabled trace].
    rewrite py_truediv_percentage by lia.
    rewrite (proj2 (Nat.eqb_neq _ 0)) by (specialize (Hpos epoch); lia).
    unfold mean_loss.
    rewrite (proj2 (Nat.eqb_neq _ 0))
      by (apply n_samples_pos_length, Hpos).
    match goal with |- context [train_epochs _ _ _ _ _ _ _ _ _ _ ?l1 ?a1 ?w2] =>
      destruct (IH (S epoch) l1 a1 w2 ltac:(cbn; congruence))
        as (losses' & accs' & w' & evs & Hrun' & Hl & Ha & Hg' & Htr' & Htrace'
            & Hcalls & Hends)
    end.
    cbn [params optim training grad_enabled trace] in *.
    exists losses', accs', w',
      (forward_events (grad_enabled w) (train_loader epoch)
       ++ [EpochEnd c (n_samples (train_loader epoch))] ++ evs).
    rewrite Hrun'. split; [done|].
    rewrite length_app in Hl, Ha. cbn [length] in Hl, Ha.
    split; [lia|]. split; [lia|]. split; [congruence|].
    split.
    { rewrite Htr'. by destruct n. }
    split.
    { rewrite Htrace', Htrace. by rewrite <- !app_assoc. }
    destruct (forward_calls_forward_events (grad_enabled w)
                (train_loader epoch)) as [Hfc Hfe].
    rewrite !forward_calls_app, !epoch_ends_app, Hfc, Hfe, Hcalls.
    cbn [seq flat_map map app]. rewrite Hg. split; [done|].
    rewrite fmap_app. cbn. by rewrite Hends.
Qed.

End Loops_more.

(** X13. One video without frames is enough to stop the training: over a
    loader of a data set in which some video decodes to nothing,
    [train_model] raises during its first epoch, whatever the model, the
    batch size and the order of the sampler, and no epoch is completed. *)
Theorem train_model_unreadable_video {RawFrame Params Optim Row Float : Type}
    (px : RawFrame -> nat * nat -> nat -> nat -> nat -> byte)
    (capture : pystr -> Capture RawFrame)
    (apply_model : Params -> bool -> ndarray f32 -> result (list Row))
    (argmax : Row -> nat)
    (nll : list Row -> list nat -> result Float)
    (optimizer_step :
       Params -> Optim -> ndarray f32 -> list nat -> result (Params * Optim))
    (float_zero : Float) (float_add : Float -> Float -> Float)
    (float_div : Float -> nat -> Float)
    (ds : VideoDataset) (batch_size : nat) (order : nat -> list nat)
    (epochs : nat) (w : World Params Optim)
    (i : nat) (path : pystr) (label : nat) :
  batch_size <> 0 ->
  (forall e, order e ≡ₚ seq 0 (dataset_len ds)) ->
  0 < epochs ->
  video_paths ds !! i = Some path ->
  labels ds !! i = Some label ->
  decoded capture path = [] ->
  exists e w',
    train_model apply_model argmax nll optimizer_step float_zero float_add
      float_div epochs
      (fun e => iter_DataLoader (loader_of px capture ds batch_size) (order e))
      w = (Raise e, w') /\
    exists evs, trace w' = trace w ++ evs /\ epoch_ends evs = [].
Proof.
  intros Hbs Horder Hep Hpath Hlabel Hnil.
  assert (i ∈ order 0) as Hin.
  { rewrite (Horder 0). apply elem_of_seq.
    apply lookup_lt_Some in Hpath. unfold dataset_len. lia. }
  pose proof (getitem_empty px capture ds (Z.of_nat i) path label
                (py_index_lookup _ _ _ Hpath) (py_index_lookup _ _ _ Hlabel)
                Hnil) as Hget.
  destruct (iter_DataLoader_Raise (loader_of px capture ds batch_size)
              (order 0) i _ Hbs Hin Hget) as [e' He'].
  exact (train_model_batch_missing apply_model argmax nll optimizer_step
           float_zero float_add float_div
           (fun e => iter_DataLoader (loader_of px capture ds batch_size)
                       (order e))
           epochs w e' He' Hep).
Qed.

Lemma train_model_unreadable_video_witness :
  2 <> 0 /\
  (forall e : nat, [0; 1; 2] ≡ₚ seq 0 (dataset_len (three_videos 5))) /\
  0 < 1 /\
  video_paths (three_videos 5) !! 1 = Some (str "v.avi") /\
  labels (three_videos 5) !! 1 = Some 1 /\
  decoded middle_unreadable (str "v.avi") = [] /\
  exists e w',
    train_model toy_model id toy_nll toy_step 0 Nat.add Nat.div 1
      (fun e => iter_DataLoader
                  (loader_of black_px middle_unreadable (three_videos 5) 2)
                  [0; 1; 2])
      toy_world = (Raise e, w') /\
    exists evs, trace w' = trace toy_world ++ evs /\ epoch_ends evs = [].
Proof.
  split; [discriminate|]. split; [intros _; reflexivity|]. split; [lia|].
  split; [reflexivity|]. split; [reflexivity|]. split; [reflexivity|].
  apply (train_model_unreadable_video black_px middle_unreadable toy_model id
           toy_nll toy_step 0 Nat.add Nat.div (three_videos 5) 2
           (fun _ => [0; 1; 2]) 1 toy_world 1 (str "v.avi") 1);
    [discriminate|intros _; reflexivity|lia|reflexivity|reflexivity
    |reflexivity].
Defined.

(** X14. Whatever the model and the loader, and also when the run raises,
    [test_model] leaves the parameters and the optimiser state as they
    were, leaves the model in evaluation mode, restores the gradient mode
    it found, and has called the model on a first stretch of the batches
    only, in order, once each, with gradient tracking off. *)
Theorem test_model_never_updates {Params Optim Row : Type}
    (apply_model : Params -> bool -> ndarray f32 -> result (list Row))
    (argmax : Row -> nat)
    (test_loader : list (result Batch)) (w : World Params Optim) :
  let w' := (test_model apply_model argmax test_loader w).2 in
  params w' = params w /\ optim w' = optim w /\
  training w' = false /\ grad_enabled w' = grad_enabled w /\
  exists k, trace w' = trace w ++ forward_events false (take k test_loader).
Proof. apply test_model_frame. Qed.

(** X15. The accuracy that [test_model] returns does not depend on the
    order in which the batches arrive: two loaders that yield the same
    batches in different orders give the same result, for a model that
    returns one row per sample on them. *)
Theorem test_model_batch_order {Params Optim Row : Type}
    (apply_model : Params -> bool -> ndarray f32 -> result (list Row))
    (argmax : Row -> nat)
    (loader1 loader2 : list (result Batch)) (w : World Params Optim) :
  loader1 ≡ₚ loader2 ->
  Forall (served (apply_model (params w) false)) loader1 ->
  (test_model apply_model argmax loader1 w).1
  = (test_model apply_model argmax loader2 w).1.
Proof.
  intros Hperm Hall1.
  assert (Forall (served (apply_model (params w) false)) loader2) as Hall2
    by (by rewrite <- Hperm).
  rewrite !test_model_served by done. cbn [fst].
  unfold n_correct, n_samples, sum_list. by rewrite Hperm.
Qed.

Lemma test_model_batch_order_witness :
  iter_DataLoader toy_loader [0; 1; 2]
    ≡ₚ reverse (iter_DataLoader toy_loader [0; 1; 2]) /\
  Forall (served (toy_model (params toy_world) false))
         (iter_DataLoader toy_loader [0; 1; 2]) /\
  (test_model toy_model id (iter_DataLoader toy_loader [0; 1; 2])
     toy_world).1
  = (test_model toy_model id
       (reverse (iter_DataLoader toy_loader [0; 1; 2])) toy_world).1.
Proof.
  assert (H1 : iter_DataLoader toy_loader [0; 1; 2]
               ≡ₚ reverse (iter_DataLoader toy_loader [0; 1; 2]))
    by (symmetry; apply reverse_Permutation).
  assert (H2 : Forall (served (toy_model (params toy_world) false))
                 (iter_DataLoader toy_loader [0; 1; 2])).
  { repeat constructor; eexists _, _, _;
      (split; [reflexivity|split; reflexivity]). }
  split; [exact H1|]. split; [exact H2|].
  exact (test_model_batch_order toy_model id _ _ toy_world H1 H2).
Defined.

(** X16. [train_model], started with gradient tracking on, returns when,
    in every epoch, every batch arrives with at least one sample in the
    epoch, the model returns one row per sample, the loss is defined and
    the backward pass and the step of the optimiser go through: the two
    histories have one entry per epoch, the model was called once on each
    batch of each epoch, in order, each epoch counted the samples of its
    batches, the gradient mode is as it was and the model is left in
    training mode. *)
Theorem train_model_returns {Params Optim Row Float : Type}
    (apply_model : Params -> bool -> ndarray f32 -> result (list Row))
    (argmax : Row -> nat)
    (nll : list Row -> list nat -> result Float)
    (optimizer_step :
       Params -> Optim -> ndarray f32 -> list nat -> result (Params * Optim))
    (float_zero : Float) (float_add : Float -> Float -> Float)
    (float_div : Float -> nat -> Float)
    (train_loader : nat -> list (result Batch)) (epochs : nat)
    (w : World Params Optim) :
  grad_enabled w = true ->
  (forall e, Forall (trainable apply_model nll optimizer_step)
                    (train_loader e)) ->
  (forall e, 0 < n_samples (train_loader e)) ->
  exists losses accs w' evs,
    train_model apply_model argmax nll optimizer_step float_zero float_add
      float_div epochs train_loader w = (Ok (losses, accs), w') /\
    length losses = epochs /\
    length accs = epochs /\
    grad_enabled w' = grad_enabled w /\
    training w' = (if epochs =? 0 then training w else true) /\
    trace w' = trace w ++ evs /\
    forward_calls evs
      = flat_map (fun e => forward_events (grad_enabled w) (train_loader e))
                 (seq 0 epochs) /\
    (epoch_ends evs).*2
      = map (fun e => n_samples (train_loader e)) (seq 0 epochs).
Proof.
  intros Hgr Hall Hpos.
  destruct (train_epochs_trainable apply_model argmax nll optimizer_step
              float_zero float_add float_div train_loader Hall Hpos
              epochs 0 [] [] w Hgr)
    as (losses & accs & w' & evs & Hrun & Hl & Ha & Hrest).
  by exists losses, accs, w', evs.
Qed.

Lemma train_model_returns_witness :
  grad_enabled toy_world = true /\
  (forall e, Forall (trainable toy_model toy_nll toy_step)
               (iter_DataLoader toy_loader (toy_order e))) /\
  (forall e, 0 < n_samples (iter_DataLoader toy_loader (toy_order e))) /\
  exists losses accs w' evs,
    train_model toy_model id toy_nll toy_step 0 Nat.add Nat.div 2
      (fun e => iter_DataLoader toy_loader (toy_order e)) toy_world
      = (Ok (losses, accs), w') /\
    length losses = 2 /\ length accs = 2 /\
    (epoch_ends evs).*2 = [3; 3] /\
    trace w' = trace toy_world ++ evs.
Proof.
  assert (H1 : forall e, Forall (trainable toy_model toy_nll toy_step)
                           (iter_DataLoader toy_loader (toy_order e))).
  { intros e. unfold toy_order. destruct (Nat.even e);
      repeat constructor; eexists _, _;
      (split; [reflexivity|]); intros p o; eexists _, _;
      (split; [reflexivity|split; [reflexivity|split; reflexivity]]). }
  assert (H2 : forall e,
    0 < n_samples (iter_DataLoader toy_loader (toy_order e))).
  { intros e. unfold toy_order. destruct (Nat.even e); vm_compute; lia. }
  split; [reflexivity|]. split; [exact H1|]. split; [exact H2|].
  destruct (train_model_returns toy_model id toy_nll toy_step 0 Nat.add
              Nat.div _ 2 toy_world eq_refl H1 H2)
    as (losses & accs & w' & evs & Hrun & Hl & Ha & _ & _ & Htr & _ & Hends).
  exists losses, accs, w', evs.
  split; [exact Hrun|]. split; [exact Hl|]. split; [exact Ha|].
  split; [|exact Htr]. rewrite Hends. vm_compute. reflexivity.
Defined.

(** X17. When the model answers a training batch with a number of rows
    that is not the number of its labels, [train_model] raises
    [ValueError] from the loss before anything is updated: the parameters
    and the optimiser state are those of the start (where [test_model]
    would go on by broadcasting). *)
Theorem train_model_rows_mismatch {Params Optim Row Float : Type}
    (apply_model : Params -> bool -> ndarray f32 -> result (list Row))
    (argmax : Row -> nat)
    (nll : list Row -> list nat -> result Float)
    (optimizer_step :
       Params -> Optim -> ndarray f32 -> list nat -> result (Params * Optim))
    (float_zero : Float) (float_add : Float -> Float -> Float)
    (float_div : Float -> nat -> Float)
    (train_loader : nat -> list (result Batch)) (epochs : nat)
    (w : World Params Optim)
    (inputs : ndarray f32) (labels : list nat) (rest : list (result Batch))
    (outputs : list Row) :
  0 < epochs ->
  train_loader 0 = Ok (inputs, labels) :: rest ->
  apply_model (params w) true inputs = Ok outputs ->
  length outputs <> length labels ->
  exists w',
    train_model apply_model argmax nll optimizer_step float_zero float_add
      float_div epochs train_loader w = (Raise ValueError, w') /\
    params w' = params w /\ optim w' = optim w /\
    trace w' = trace w ++ [Forward inputs (grad_enabled w)].
Proof.
  intros Hep Hloader Hm Hlen. destruct epochs as [|n]; [lia|].
  unfold train_model. cbn [train_epochs].
  unfold mbind, M_bind, set_training, emit, lift. rewrite Hloader.
  cbn [train_batches].
  unfold mbind, M_bind, lift, call_model, backward_and_step, criterion.
  cbn [params optim training grad_enabled trace]. rewrite Hm.
  rewrite (proj2 (Nat.eqb_neq _ _) Hlen).
  eexists. split; [reflexivity|]. done.
Qed.

Lemma train_model_rows_mismatch_witness :
  0 < 1 /\
  two_rows_model (params toy_world) true (mk_ndarray [1] [f32_zero])
    = Ok [0; 0] /\
  length [0; 0] <> length [0] /\
  exists w',
    train_model two_rows_model id toy_nll toy_step 0 Nat.add Nat.div 1
      (fun _ => [Ok (mk_ndarray [1] [f32_zero], [0])]) toy_world
      = (Raise ValueError, w') /\
    params w' = params toy_world /\ optim w' = optim toy_world /\
    trace w' = trace toy_world
               ++ [Forward (mk_ndarray [1] [f32_zero])
                           (grad_enabled toy_world)].
Proof.
  split; [lia|]. split; [reflexivity|]. split; [discriminate|].
  apply (train_model_rows_mismatch two_rows_model id toy_nll toy_step 0
           Nat.add Nat.div (fun _ => [Ok (mk_ndarray [1] [f32_zero], [0])])
           1 toy_world (mk_ndarray [1] [f32_zero]) [0] [] [0; 0]);
    [lia|reflexivity|reflexivity|discriminate].
Defined.

(** ** The histories and the plot *)

Lemma train_epochs_lengths {Params Optim Row Float : Type}
    (apply_model : Params -> bool -> ndarray f32 -> result (list Row))
    (argmax : Row -> nat)
    (nll : list Row -> list nat -> result Float)
    (optimizer_step :
       Params -> Optim -> ndarray f32 -> list nat -> result (Params * Optim))
    (float_zero : Float) (float_add : Float -> Float -> Float)
    (float_div : Float -> nat -> Float)
    (train_loader : nat -> list (result Batch))
    (n epoch : nat) (losses losses' : list Float) (accs accs' : list f64)
    (w w' : World Params Optim) :
  train_epochs apply_model argmax nll optimizer_step float_zero float_add
    float_div train_loader epoch n losses accs w = (Ok (losses', accs'), w') ->
  length losses' = length losses + n /\ length accs' = length accs + n.
Proof.
  revert epoch losses accs w.
  induction n as [|n IH]; intros epoch losses accs w Hrun.
  - cbn in Hrun. injection Hrun as <- <- _. lia.
  - cbn [train_epochs] in Hrun.
    unfold mbind, M_bind, set_training, emit, lift in Hrun.
    destruct (train_batches _ _ _ _ _ _ _ _ _ _) as [[[[rl c] t]|e] w1];
      [|done].
    destruct (py_truediv (100 * c) t) as [a|e]; [|done].
    destruct (mean_loss _ _ _ _) as [m|e]; [|done].
    apply IH in Hrun as [Hl Ha].
    rewrite length_app in Hl, Ha. cbn [length] in Hl, Ha. lia.
Qed.

(** X18. Whatever [train_model] returns fits the plot: the two histories
    have exactly [epochs] entries each, the length of the x axis that
    [plot_results] builds, so that [plot_results] does not refuse them. *)
Theorem plot_results_accepts_histories {Params Optim Row Float : Type}
    (apply_model : Params -> bool -> ndarray f32 -> result (list Row))
    (argmax : Row -> nat)
    (nll : list Row -> list nat -> result Float)
    (optimizer_step :
       Params -> Optim -> ndarray f32 -> list nat -> result (Params * Optim))
    (float_zero : Float) (float_add : Float -> Float -> Float)
    (float_div : Float -> nat -> Float)
    (train_loader : nat -> list (result Batch)) (epochs : nat)
    (w w' : World Params Optim)
    (train_losses : list Float) (train_accuracies : list f64) :
  train_model apply_model argmax nll optimizer_step float_zero float_add
    float_div epochs train_loader w
    = (Ok (train_losses, train_accuracies), w') ->
  length train_losses = epochs /\
  length train_accuracies = epochs /\
  plot_results epochs train_losses train_accuracies = Ok tt.
Proof.
  intros Hrun. unfold train_model in Hrun.
  apply train_epochs_lengths in Hrun as [Hl Ha]. cbn [length] in Hl, Ha.
  do 2 (split; [done|]).
  unfold plot_results. by rewrite length_seq, Hl, Ha, !Nat.eqb_refl.
Qed.

Lemma plot_results_accepts_histories_witness :
  exists losses accs w',
    train_model toy_model id toy_nll toy_step 0 Nat.add Nat.div 2
      (fun e => iter_DataLoader toy_loader (toy_order e)) toy_world
      = (Ok (losses, accs), w') /\
    length losses = 2 /\ length accs = 2 /\
    plot_results 2 losses accs = Ok tt /\
    plot_results 3 losses accs = Raise ValueError.
Proof.
  eexists _, _, _. split; [vm_compute; reflexivity|].
  destruct (plot_results_accepts_histories toy_model id toy_nll toy_step 0
              Nat.add Nat.div
              (fun e => iter_DataLoader toy_loader (toy_order e)) 2
              toy_world _ _ _ ltac:(vm_compute; reflexivity))
    as (Hl & Ha & Hplot).
  split; [exact Hl|]. split; [exact Ha|]. split; [exact Hplot|reflexivity].
Defined.

(** ** From the data set to the batches *)

Lemma mapM_Ok_Forall2 {A B} (f : A -> result B) (P : A -> B -> Prop)
    (l : list A) :
  (forall i, i ∈ l -> exists y, f i = Ok y /\ P i y) ->
  exists ys, mapM f l = Ok ys /\ Forall2 P l ys.
Proof.
  induction l as [|x l IH]; intros Hl.
  - exists []. by split; [|constructor].
  - destruct (Hl x ltac:(left)) as (y & Hy & HP).
    destruct IH as (ys & Hys & HF); [intros i Hi; apply Hl; by right|].
    exists (y :: ys). cbn [mapM]. rewrite Hy. cbn. rewrite Hys. cbn.
    by split; [|constructor].
Qed.

Lemma default_collate_uniform (samples : list (ndarray f32 * nat))
    (sh : list nat) :
  samples <> [] ->
  Forall (fun s => shape s.1 = sh) samples ->
  exists inputs,
    default_collate samples = Ok (inputs, samples.*2) /\
    shape inputs = length samples :: sh.
Proof.
  intros Hne Hall. destruct samples as [|s samples]; [done|].
  unfold default_collate, torch_stack. cbn [map fst].
  replace (forallb _ _) with true.
  - eexists. cbn [mbind result_bind]. split; [reflexivity|].
    cbn [shape length]. rewrite length_map.
    apply Forall_cons in Hall as [-> _]. done.
  - symmetry. apply forallb_forall. intros t Ht.
    apply bool_decide_eq_true_2.
    change (In t (map fst (s :: samples))) in Ht.
    apply in_map_iff in Ht as (s' & <- & Hs').
    rewrite Forall_forall in Hall.
    rewrite (Hall s') by (by apply list_elem_of_In).
    by rewrite (Hall s) by left.
Qed.

(** What a pass over a data set of readable videos delivers. *)
Lemma iter_loader_of_spec {RawFrame : Type}
    (px : RawFrame -> nat * nat -> nat -> nat -> nat -> byte)
    (capture : pystr -> Capture RawFrame)
    (ds : VideoDataset) (batch_size : nat) (order : list nat) :
  length (labels ds) = length (video_paths ds) ->
  batch_size <> 0 ->
  (forall path, path ∈ video_paths ds -> decoded capture path <> []) ->
  (forall i, i ∈ order -> i < dataset_len ds) ->
  Forall (fun b => exists inputs ls,
            b = Ok (inputs, ls) /\
            shape inputs = [length ls; fixed_frame_count ds; 3; 224; 224] /\
            0 < length ls <= batch_size)
         (iter_DataLoader (loader_of px capture ds batch_size) order) /\
  Forall2 (fun i l => labels ds !! i = Some l) order
          (batch_labels
             (iter_DataLoader (loader_of px capture ds batch_size) order)).
Proof.
  intros Hpar Hbs Hframes Horder.
  set (dl := loader_of px capture ds batch_size).
  set (F := fixed_frame_count ds).
  assert (Hfetch : forall i, i < dataset_len ds ->
    exists y, dl_getitem dl i = Ok y /\
      (shape y.1 = [F; 3; 224; 224] /\ labels ds !! i = Some y.2)).
  { intros i Hi. unfold dataset_len in Hi.
    destruct (lookup_lt_is_Some_2 (video_paths ds) i Hi) as [path Hpath].
    destruct (lookup_lt_is_Some_2 (labels ds) i) as [label Hlabel];
      [by rewrite Hpar|].
    destruct (getitem_nonempty px capture ds (Z.of_nat i) path label
                (py_index_lookup _ _ _ Hpath) (py_index_lookup _ _ _ Hlabel)
                (Hframes path (list_elem_of_lookup_2 _ _ _ Hpath)))
      as (t & Hget & Hs & _).
    exists (t, label). by split. }
  assert (Hchunks : forall cs : list (list nat),
    Forall (fun c => 0 < length c <= batch_size /\
                     forall i, i ∈ c -> i < dataset_len ds) cs ->
    let batches :=
      map (fun idxs => samples ← mapM (dl_getitem dl) idxs;
                       default_collate samples) cs in
    Forall (fun b => exists inputs ls,
              b = Ok (inputs, ls) /\
              shape inputs = [length ls; F; 3; 224; 224] /\
              0 < length ls <= batch_size) batches /\
    Forall2 (fun i l => labels ds !! i = Some l) (concat cs)
            (batch_labels batches)).
  { induction cs as [|c cs IH]; intros Hcs; cbn zeta.
    - split; constructor.
    - apply Forall_cons in Hcs as [[Hlen Hc] Hcs].
      destruct (IH Hcs) as [IH1 IH2]. cbn [map concat].
      destruct (mapM_Ok_Forall2 (dl_getitem dl)
                  (fun i y => shape y.1 = [F; 3; 224; 224]
                              /\ labels ds !! i = Some y.2) c)
        as (samples & Hm & HF2).
      { intros i Hi. by apply Hfetch, Hc. }
      pose proof (Forall2_length _ _ _ HF2) as Hlen2.
      destruct (default_collate_uniform samples [F; 3; 224; 224])
        as (inputs & Hcol & Hshape).
      { destruct samples; [cbn in Hlen2; lia|done]. }
      { clear -HF2. induction HF2 as [|i y c samples [Hy _] _ IH];
          constructor; done. }
      rewrite Hm. cbn [mbind result_bind]. rewrite Hcol. split.
      + constructor; [|done]. exists inputs, samples.*2.
        rewrite length_fmap, Hshape. split; [done|]. split; [done|lia].
      + unfold batch_labels. cbn [flat_map]. apply Forall2_app; [|done].
        apply Forall2_fmap_r. eapply Forall2_impl; [exact HF2|].
        by intros i y [_ ?]. }
  unfold iter_DataLoader.
  destruct (chunks_aux_bounds (length order) batch_size order Hbs
              ltac:(done)) as (_ & _ & Hsize).
  specialize (Hchunks (chunks batch_size order)).
  cbn zeta in Hchunks. rewrite chunks_concat in Hchunks by done.
  apply Hchunks. unfold chunks.
  apply Forall_forall. intros c Hc. rewrite Forall_forall in Hsize.
  split; [by apply Hsize|].
  intros i Hi. apply Horder.
  rewrite <- (chunks_concat batch_size order Hbs).
  apply list_elem_of_In, in_concat. exists c.
  split; by apply list_elem_of_In.
Qed.

(** X19. Over a data set with as many labels as paths in which every video
    has at least one frame, every batch of a pass arrives: its input has
    the shape (k, F, 3, 224, 224) for the k labels it carries, with
    1 <= k <= batch_size, and the labels of the batches, one after the
    other, are the labels of the indices in the order of the sampler. *)
Theorem loader_batches_arrive {RawFrame : Type}
    (px : RawFrame -> nat * nat -> nat -> nat -> nat -> byte)
    (capture : pystr -> Capture RawFrame)
    (ds : VideoDataset) (batch_size : nat) (order : list nat) :
  length (labels ds) = length (video_paths ds) ->
  batch_size <> 0 ->
  (forall path, path ∈ video_paths ds -> decoded capture path <> []) ->
  (forall i, i ∈ order -> i < dataset_len ds) ->
  Forall (fun b => exists inputs ls,
            b = Ok (inputs, ls) /\
            shape inputs = [length ls; fixed_frame_count ds; 3; 224; 224] /\
            0 < length ls <= batch_size)
         (iter_DataLoader (loader_of px capture ds batch_size) order) /\
  Forall2 (fun i l => labels ds !! i = Some l) order
          (batch_labels
             (iter_DataLoader (loader_of px capture ds batch_size) order)).
Proof. apply iter_loader_of_spec. Qed.

Lemma loader_batches_arrive_witness :
  length (labels (three_videos 5)) = length (video_paths (three_videos 5)) /\
  2 <> 0 /\
  (forall path, path ∈ video_paths (three_videos 5) ->
     decoded two_frames path <> []) /\
  (forall i, i ∈ [2; 0; 1] -> i < dataset_len (three_videos 5)) /\
  Forall2 (fun i l => labels (three_videos 5) !! i = Some l) [2; 0; 1]
          (batch_labels
             (iter_DataLoader (loader_of black_px two_frames
                                 (three_videos 5) 2) [2; 0; 1])).
Proof.
  assert (H3 : forall path, path ∈ video_paths (three_videos 5) ->
                 decoded two_frames path <> [])
    by (intros path _; discriminate).
  assert (H4 : forall i, i ∈ [2; 0; 1] -> i < dataset_len (three_videos 5)).
  { intros i Hi.
    repeat (apply elem_of_cons in Hi as [->|Hi]; [vm_compute; lia|]).
    by apply elem_of_nil in Hi. }
  split; [reflexivity|]. split; [discriminate|]. split; [exact H3|].
  split; [exact H4|].
  exact (proj2 (loader_batches_arrive black_px two_frames (three_videos 5)
                  2 [2; 0; 1] eq_refl ltac:(discriminate) H3 H4)).
Defined.

(** ** The pipeline's model on the pipeline's batches *)

Lemma forward_frames_raise (b t : nat) :
  forward (mk_Model 224 512 101) [b; t; 3; 224; 224] = Raise RuntimeError.
Proof.
  destruct (decide (b * t = 0)) as [Hz|Hnz].
  - by apply forward_empty.
  - rewrite forward_spec by done. cbn [input_size].
    replace (3 * 224 * 224 =? 224) with false; [done|].
    symmetry. apply Nat.eqb_neq. lia.
Qed.

Lemma iter_DataLoader_nonempty (dl : DataLoader) (order : list nat) :
  dl_batch_size dl <> 0 -> order <> [] -> iter_DataLoader dl order <> [].
Proof.
  intros Hbs Hne Hnil. unfold iter_DataLoader in Hnil.
  apply fmap_nil_inv in Hnil.
  pose proof (chunks_concat (dl_batch_size dl) order Hbs) as Hc.
  rewrite Hnil in Hc. by cbn in Hc.
Qed.

(** X20. A model whose layers refuse the shapes that [forward] of the
    model of [main] refuses cannot be trained on the batches of the
    pipeline: over a non-empty data set of readable videos, [train_model]
    raises [RuntimeError] in the first call of the model, on a batch of
    shape (k, F, 3, 224, 224), before any update of the parameters. *)
Theorem train_model_pipeline_raises {RawFrame Params Optim Row Float : Type}
    (px : RawFrame -> nat * nat -> nat -> nat -> nat -> byte)
    (capture : pystr -> Capture RawFrame)
    (ds : VideoDataset) (batch_size : nat)
    (apply_model : Params -> bool -> ndarray f32 -> result (list Row))
    (argmax : Row -> nat)
    (nll : list Row -> list nat -> result Float)
    (optimizer_step :
       Params -> Optim -> ndarray f32 -> list nat -> result (Params * Optim))
    (float_zero : Float) (float_add : Float -> Float -> Float)
    (float_div : Float -> nat -> Float)
    (order : nat -> list nat) (epochs : nat) (w : World Params Optim) :
  length (labels ds) = length (video_paths ds) ->
  batch_size <> 0 ->
  (forall path, path ∈ video_paths ds -> decoded capture path <> []) ->
  order 0 <> [] ->
  (forall i, i ∈ order 0 -> i < dataset_len ds) ->
  0 < epochs ->
  (forall p mode x e,
     forward (mk_Model 224 512 101) (shape x) = Raise e ->
     apply_model p mode x = Raise e) ->
  exists w' inputs k,
    train_model apply_model argmax nll optimizer_step float_zero float_add
      float_div epochs
      (fun e => iter_DataLoader (loader_of px capture ds batch_size) (order e))
      w = (Raise RuntimeError, w') /\
    params w' = params w /\ optim w' = optim w /\
    shape inputs = [k; fixed_frame_count ds; 3; 224; 224] /\
    trace w' = trace w ++ [Forward inputs (grad_enabled w)].
Proof.
  intros Hpar Hbs Hframes Hne Horder Hep Hmodel.
  destruct (iter_loader_of_spec px capture ds batch_size (order 0)
              Hpar Hbs Hframes Horder) as [Hall _].
  pose proof (iter_DataLoader_nonempty (loader_of px capture ds batch_size)
                (order 0) Hbs Hne) as Hbatches.
  destruct (iter_DataLoader _ (order 0)) as [|b rest] eqn:Hloader; [done|].
  apply Forall_cons in Hall as [(inputs & ls & -> & Hshape & _) _].
  assert (Hm : apply_model (params w) true inputs = Raise RuntimeError).
  { apply Hmodel. rewrite Hshape. apply forward_frames_raise. }
  destruct epochs as [|n]; [lia|].
  exists (mk_World (params w) (optim w) true (grad_enabled w)
            (trace w ++ [Forward inputs (grad_enabled w)])),
         inputs, (length ls).
  unfold train_model. cbn [train_epochs].
  unfold mbind, M_bind, set_training, emit, lift. rewrite Hloader.
  cbn [train_batches].
  unfold mbind, M_bind, lift, call_model.
  cbn [params optim training grad_enabled trace]. rewrite Hm.
  done.
Qed.

Lemma train_model_pipeline_raises_witness :
  length (labels (three_videos 5)) = length (video_paths (three_videos 5)) /\
  2 <> 0 /\
  (forall path, path ∈ video_paths (three_videos 5) ->
     decoded two_frames path <> []) /\
  [2; 0; 1] <> [] /\
  (forall i, i ∈ [2; 0; 1] -> i < dataset_len (three_videos 5)) /\
  0 < 1 /\
  (forall (p : nat) (mode : bool) x e,
     forward (mk_Model 224 512 101) (shape x) = Raise e ->
     pipeline_model p mode x = Raise e) /\
  exists w' inputs k,
    train_model pipeline_model id toy_nll toy_step 0 Nat.add Nat.div 1
      (fun _ => iter_DataLoader
                  (loader_of black_px two_frames (three_videos 5) 2)
                  [2; 0; 1])
      toy_world = (Raise RuntimeError, w') /\
    params w' = params toy_world /\ optim w' = optim toy_world /\
    shape inputs = [k; fixed_frame_count (three_videos 5); 3; 224; 224] /\
    trace w' = trace toy_world ++ [Forward inputs (grad_enabled toy_world)].
Proof.
  assert (H3 : forall path, path ∈ video_paths (three_videos 5) ->
                 decoded two_frames path <> [])
    by (intros path _; discriminate).
  assert (H5 : forall i, i ∈ [2; 0; 1] -> i < dataset_len (three_videos 5)).
  { intros i Hi.
    repeat (apply elem_of_cons in Hi as [->|Hi]; [vm_compute; lia|]).
    by apply elem_of_nil in Hi. }
  assert (H7 : forall (p : nat) (mode : bool) x e,
     forward (mk_Model 224 512 101) (shape x) = Raise e ->
     pipeline_model p mode x = Raise e).
  { intros p mode x e He. unfold pipeline_model. by rewrite He. }
  split; [reflexivity|]. split; [discriminate|]. split; [exact H3|].
  split; [discriminate|]. split; [exact H5|]. split; [lia|].
  split; [exact H7|].
  exact (train_model_pipeline_raises black_px two_frames (three_videos 5) 2
           pipeline_model id toy_nll toy_step 0 Nat.add Nat.div
           (fun _ => [2; 0; 1]) 1 toy_world eq_refl ltac:(discriminate)
           H3 ltac:(discriminate) H5 ltac:(lia) H7).
Defined.

(** ** The first batch that stops the evaluation *)

Section Loops_test.

Context {Params Optim Row : Type}.
Variable apply_model : Params -> bool -> ndarray f32 -> result (list Row).
Variable argmax : Row -> nat.

Lemma forward_events_app (grad : bool) (bs1 bs2 : list (result Batch)) :
  forward_events grad (bs1 ++ bs2)
  = forward_events grad bs1 ++ forward_events grad bs2.
Proof. unfold forward_events. apply flat_map_app. Qed.

(** The test loop runs through the batches that are served and goes on
    with the others. *)
Lemma test_batches_app (good more : list (result Batch))
    (correct total : nat) (w : World Params Optim) :
  Forall (served (apply_model (params w) (training w))) good ->
  test_batches apply_model argmax (good ++ more) correct total w =
  test_batches apply_model argmax more
    (correct + n_correct (apply_model (params w) (training w)) argmax good)
    (total + n_samples good)
    (mk_World (params w) (optim w) (training w) (grad_enabled w)
       (trace w ++ forward_events (grad_enabled w) good)).
Proof.
  revert correct total w.
  induction good as [|b good IH]; intros correct total w Hall.
  - cbn [app]. unfold n_correct, n_samples, forward_events. cbn.
    rewrite !Nat.add_0_r, app_nil_r. by destruct w.
  - apply Forall_cons in Hall as [(inputs & labels & outputs & -> & Hm & Hlen)
                                   Hall].
    cbn [app test_batches]. unfold mbind, M_bind, lift, call_model.
    rewrite Hm.
    rewrite count_eq_same_length by (by rewrite length_map).
    rewrite IH by done. cbn [params optim training grad_enabled trace].
    unfold n_correct, n_samples, forward_events.
    cbn [map sum_list sum_list_with flat_map]. rewrite Hm.
    rewrite <- app_assoc. cbn [app]. unfold id. f_equal; lia.
Qed.

End Loops_test.

(** X21. [test_model] stops at the first batch that does not arrive or on
    which the model raises, with that very exception: the batches before
    it were run through the model without gradients, the batches after it
    are never touched, and no accuracy is returned. *)
Theorem test_model_first_failure {Params Optim Row : Type}
    (apply_model : Params -> bool -> ndarray f32 -> result (list Row))
    (argmax : Row -> nat)
    (good rest : list (result Batch)) (b : result Batch) (e : exn)
    (w : World Params Optim) :
  Forall (served (apply_model (params w) false)) good ->
  (b = Raise e \/
   exists inputs labels,
     b = Ok (inputs, labels) /\
     apply_model (params w) false inputs = Raise e) ->
  test_model apply_model argmax (good ++ b :: rest) w =
    (Raise e,
     mk_World (params w) (optim w) false (grad_enabled w)
       (trace w ++ forward_events false (good ++ [b]))).
Proof.
  intros Hgood Hb.
  unfold test_model, mbind, M_bind, set_training, no_grad, lift.
  rewrite test_batches_app by done.
  cbn [params optim training grad_enabled trace].
  rewrite forward_events_app, app_assoc.
  destruct Hb as [->|(inputs & labels & -> & Hm)].
  - cbn [test_batches]. unfold mbind, M_bind, lift.
    cbn [params optim training grad_enabled trace forward_events flat_map].
    by rewrite app_nil_r.
  - cbn [test_batches]. unfold mbind, M_bind, lift, call_model.
    cbn [params optim training grad_enabled trace]. rewrite Hm.
    done.
Qed.

Lemma test_model_first_failure_witness :
  Forall (served (toy_model (params toy_world) false))
         [Ok (mk_ndarray [1] [f32_zero], [0])] /\
  test_model toy_model id
    ([Ok (mk_ndarray [1] [f32_zero], [0])] ++ Raise OSError :: []) toy_world
  = (Raise OSError,
     mk_World (params toy_world) (optim toy_world) false
       (grad_enabled toy_world)
       (trace toy_world
        ++ forward_events false
             ([Ok (mk_ndarray [1] [f32_zero], [0])] ++ [Raise OSError]))).
Proof.
  assert (H : Forall (served (toy_model (params toy_world) false))
                     [Ok (mk_ndarray [1] [f32_zero], [0])]).
  { constructor; [|constructor].
    exists (mk_ndarray [1] [f32_zero]), [0], [0]. done. }
  split; [exact H|].
  exact (test_model_first_failure toy_model id
           [Ok (mk_ndarray [1] [f32_zero], [0])] [] (Raise OSError) OSError
           toy_world H (or_introl eq_refl)).
Defined.

(** ** Folders that cannot be listed *)

Lemma dict_set_keys {V} (d : list (pystr * V)) (k : pystr) (v : V)
    (x : pystr) :
  x ∈ (dict_set d k v).*1 <-> x = k \/ x ∈ d.*1.
Proof.
  induction d as [|[k' v'] d IH]; cbn [dict_set].
  - cbn. rewrite list_elem_of_singleton, elem_of_nil. tauto.
  - destruct (decide (k = k')) as [->|Hne]; cbn [fmap list_fmap fst].
    + rewrite !elem_of_cons. cbn. tauto.
    + rewrite !elem_of_cons, IH. cbn. tauto.
Qed.

Lemma foldl_dict_set_keys (l : list (nat * pystr)) (d : list (pystr * nat))
    (x : pystr) :
  x ∈ (foldl (fun d '(idx, class_name) => dict_set d class_name idx) d l).*1
  <-> x ∈ d.*1 \/ x ∈ l.*2.
Proof.
  revert d. induction l as [|[idx cn] l IH]; intros d; cbn [foldl].
  - cbn. rewrite elem_of_nil. tauto.
  - rewrite IH, dict_set_keys. cbn [fmap list_fmap snd].
    rewrite elem_of_cons. cbn. tauto.
Qed.

Lemma enumerate_snd {A} (l : list A) : (enumerate l).*2 = l.
Proof.
  unfold enumerate.
  assert (H : forall (f : nat -> A -> nat * A),
            (forall i x, (f i x).2 = x) -> (imap f l).*2 = l).
  { induction l as [|x l IH]; intros f Hf; [done|].
    cbn [imap fmap list_fmap]. rewrite Hf. f_equal. apply IH.
    intros i y. apply Hf. }
  by apply H.
Qed.

(** The keys of the label dictionary are the class names. *)
Lemma label_dict_of_keys (names : list pystr) (x : pystr) :
  x ∈ (label_dict_of names).*1 <-> x ∈ names.
Proof.
  unfold label_dict_of. rewrite foldl_dict_set_keys, enumerate_snd.
  cbn. rewrite elem_of_nil. tauto.
Qed.

Lemma class_names_of_elem (isdir : pystr -> bool) (video_folder : pystr)
    (entries : list pystr) (x : pystr) :
  x ∈ class_names_of isdir video_folder entries
  <-> x ∈ entries /\ isdir (path_join video_folder x) = true.
Proof.
  destruct (class_names_sorted isdir video_folder entries) as [_ Hperm].
  rewrite Hperm, list_elem_of_filter. tauto.
Qed.

Lemma route_classes_returns (listdir : pystr -> result (list pystr))
    {Rng : Type} (rand : Rng -> f64 * Rng) (video_folder : pystr)
    (items : list (pystr * nat)) (acc : Split) (g : Rng) :
  is_Ok (route_classes listdir rand video_folder items acc g) = true
  <-> Forall (fun it => is_Ok (listdir (path_join video_folder it.1)) = true)
             items.
Proof.
  revert acc g. induction items as [|[video_class label] items IH];
    intros acc g; cbn [route_classes].
  - split; [constructor|done].
  - rewrite Forall_cons. cbn [fst].
    destruct (listdir (path_join video_folder video_class)) as [names|e];
      cbn [mbind result_bind].
    + destruct (route_videos rand _ label names acc g) as [acc' g'].
      rewrite IH. cbn. tauto.
    + cbn. split; [done|]. by intros [? _].
Qed.

Lemma route_classes_raises (listdir : pystr -> result (list pystr))
    {Rng : Type} (rand : Rng -> f64 * Rng) (video_folder : pystr)
    (items : list (pystr * nat)) (acc : Split) (g : Rng) (e : exn) :
  route_classes listdir rand video_folder items acc g = Raise e ->
  exists it, it ∈ items /\ listdir (path_join video_folder it.1) = Raise e.
Proof.
  revert acc g. induction items as [|[video_class label] items IH];
    intros acc g; cbn [route_classes]; [done|].
  destruct (listdir (path_join video_folder video_class)) as [names|e']
    eqn:Hl; cbn [mbind result_bind].
  - destruct (route_videos rand _ label names acc g) as [acc' g'].
    intros Hr. destruct (IH _ _ Hr) as (it & Hit & He).
    exists it. split; [by right|done].
  - intros [= <-]. exists (video_class, label). split; [by left|done].
Qed.

(** X22. [prepare_data] returns a split exactly when the root folder and
    every entry of it that is a directory can be listed; an exception it
    raises is the one [os.listdir] raised for the root or for one of
    those class folders. *)
Theorem prepare_data_returns_iff (listdir : pystr -> result (list pystr))
    (isdir : pystr -> bool) {Rng : Type} (rand : Rng -> f64 * Rng)
    (video_folder : pystr) (g : Rng) :
  (is_Ok (prepare_data listdir isdir rand video_folder g) = true
   <-> exists entries,
         listdir video_folder = Ok entries /\
         forall cls, cls ∈ entries ->
           isdir (path_join video_folder cls) = true ->
           is_Ok (listdir (path_join video_folder cls)) = true) /\
  (forall e,
     prepare_data listdir isdir rand video_folder g = Raise e ->
     listdir video_folder = Raise e \/
     exists entries cls,
       listdir video_folder = Ok entries /\ cls ∈ entries /\
       isdir (path_join video_folder cls) = true /\
       listdir (path_join video_folder cls) = Raise e).
Proof.
  unfold prepare_data.
  destruct (listdir video_folder) as [entries|e0] eqn:Hroot;
    cbn [mbind result_bind].
  - split.
    + rewrite route_classes_returns, Forall_forall. split.
      * intros Hall. exists entries. split; [done|]. intros cls Hin Hdir.
        assert (cls ∈ (label_dict_of
                         (class_names_of isdir video_folder entries)).*1)
          as Hk by (by apply label_dict_of_keys, class_names_of_elem).
        apply list_elem_of_fmap in Hk as ([k v] & -> & Hkv).
        exact (Hall _ Hkv).
      * intros (entries' & [= <-] & Hall) [k v] Hkv. cbn [fst].
        assert (k ∈ (label_dict_of
                       (class_names_of isdir video_folder entries)).*1)
          as Hk by (apply list_elem_of_fmap; by exists (k, v)).
        apply label_dict_of_keys, class_names_of_elem in Hk as [Hin Hdir].
        by apply Hall.
    + intros e He. right.
      apply route_classes_raises in He as ([k v] & Hkv & He).
      assert (k ∈ (label_dict_of
                     (class_names_of isdir video_folder entries)).*1)
        as Hk by (apply list_elem_of_fmap; by exists (k, v)).
      apply label_dict_of_keys, class_names_of_elem in Hk as [Hin Hdir].
      by exists entries, k.
  - split.
    + split; [done|]. by intros (entries & [=] & _).
    + intros e [= <-]. by left.
Qed.

(** ** Training without gradient tracking *)

(** X23. Started with gradient tracking off, [train_model] cannot take a
    step: on the first batch that arrives and on which the model returns
    one row per sample with a defined loss, [loss.backward()] raises
    [RuntimeError]; the model was called once, and the parameters and the
    optimiser state are those of the start. *)
Theorem train_model_without_grad {Params Optim Row Float : Type}
    (apply_model : Params -> bool -> ndarray f32 -> result (list Row))
    (argmax : Row -> nat)
    (nll : list Row -> list nat -> result Float)
    (optimizer_step :
       Params -> Optim -> ndarray f32 -> list nat -> result (Params * Optim))
    (float_zero : Float) (float_add : Float -> Float -> Float)
    (float_div : Float -> nat -> Float)
    (train_loader : nat -> list (result Batch)) (epochs : nat)
    (w : World Params Optim)
    (inputs : ndarray f32) (labels : list nat) (rest : list (result Batch))
    (outputs : list Row) (loss : Float) :
  grad_enabled w = false ->
  0 < epochs ->
  train_loader 0 = Ok (inputs, labels) :: rest ->
  apply_model (params w) true inputs = Ok outputs ->
  length outputs = length labels ->
  nll outputs labels = Ok loss ->
  exists w',
    train_model apply_model argmax nll optimizer_step float_zero float_add
      float_div epochs train_loader w = (Raise RuntimeError, w') /\
    params w' = params w /\ optim w' = optim w /\
    trace w' = trace w ++ [Forward inputs false].
Proof.
  intros Hgr Hep Hloader Hm Hlen Hloss. destruct epochs as [|n]; [lia|].
  unfold train_model. cbn [train_epochs].
  unfold mbind, M_bind, set_training, emit, lift. rewrite Hloader.
  cbn [train_batches].
  unfold mbind, M_bind, lift, call_model, backward_and_step, criterion.
  cbn [params optim training grad_enabled trace].
  rewrite Hm, Hlen, Nat.eqb_refl, Hloss, Hgr.
  eexists. split; [reflexivity|]. done.
Qed.

Lemma train_model_without_grad_witness :
  grad_enabled (mk_World 0 tt true false []) = false /\
  0 < 1 /\
  exists w',
    train_model toy_model id toy_nll toy_step 0 Nat.add Nat.div 1
      (fun _ => [Ok (mk_ndarray [1] [f32_zero], [0])])
      (mk_World 0 tt true false [])
      = (Raise RuntimeError, w') /\
    params w' = 0 /\ optim w' = tt /\
    trace w' = [Forward (mk_ndarray [1] [f32_zero]) false].
Proof.
  split; [reflexivity|]. split; [lia|].
  exact (train_model_without_grad toy_model id toy_nll toy_step 0 Nat.add
           Nat.div (fun _ => [Ok (mk_ndarray [1] [f32_zero], [0])]) 1
           (mk_World 0 tt true false []) (mk_ndarray [1] [f32_zero]) [0] []
           [0] 0 eq_refl ltac:(lia) eq_refl eq_refl eq_refl eq_refl).
Defined.

(** ** The loaders of the pipeline *)

(** X24. [create_data_loaders] needs a training video: on a split without
    training paths the shuffling loader cannot be built and the call
    raises [ValueError], whatever the test paths and the batch size; on a
    split with a training path and for a positive batch size it returns
    the two loaders, each over the data set of its half of the split. *)
Theorem create_data_loaders_needs_training_videos {RawFrame : Type}
    (px : RawFrame -> nat * nat -> nat -> nat -> nat -> byte)
    (capture : pystr -> Capture RawFrame)
    (batch_size F : nat) (split : Split) :
  (train_paths split = [] ->
   create_data_loaders px capture batch_size F split = Raise ValueError) /\
  (train_paths split <> [] -> batch_size <> 0 ->
   create_data_loaders px capture batch_size F split
   = Ok (loader_of px capture
           (mk_VideoDataset (train_paths split) (train_labels split) F)
           batch_size,
         loader_of px capture
           (mk_VideoDataset (test_paths split) (test_labels split) F)
           batch_size)).
Proof.
  unfold create_data_loaders, new_DataLoader, loader_of, dataset_len.
  cbn [video_paths andb]. split.
  - by intros ->.
  - intros Hne Hbs. destruct (train_paths split) as [|path paths]; [done|].
    cbn [length Nat.eqb].
    by rewrite (proj2 (Nat.eqb_neq batch_size 0) Hbs).
Qed.

Lemma create_data_loaders_needs_training_videos_witness :
  exists s g',
    prepare_data flat_listdir no_isdir sample_rand (str "root") 0
      = Ok (s, g') /\
    train_paths s = [] /\
    create_data_loaders black_px two_frames 8 100 s = Raise ValueError.
Proof.
  exists (mk_Split [] [] [] []), 0.
  split; [reflexivity|]. split; [reflexivity|].
  exact (proj1 (create_data_loaders_needs_training_videos black_px
                  two_frames 8 100 (mk_Split [] [] [] [])) eq_refl).
Defined.
